(** * Ride-Dispatch-System: the dispatch and tick engines

    A shallow embedding of [backend/models.py], [backend/config.py],
    [backend/services/dispatch.py] and the routers
    [backend/routers/requests.py], [backend/routers/drivers.py] and
    [backend/routers/riders.py].

    Modelling choices.
    - Python [float] coordinates, scores and configuration constants are
      exact rationals [Q]; [float('inf')] as an initial best score is [None]
      in an [option Q].  This is the arithmetic of the code as long as no
      result is rounded or overflows; the module [Binary64] embeds the
      scoring functions, [_dispatch_ride_internal] and the reject endpoint
      over binary64 numbers, where a score can be [inf].
    - A [Dict[int, T]] is the list of its values in insertion order (what
      [.values()] iterates over); every insertion in the source stores an
      object under its own [id], so a key lookup is a search on the [id]
      field.
    - The objects held by the dictionaries are mutated in place while other
      lists (the snapshot of available drivers, the waiting requests) still
      point at them.  Such lists are lists of references (the [id] of the
      object), and every read goes through the live store.
    - [random.random()] is an oracle [random : nat -> Q] together with the
      number of draws made so far. *)

From Stdlib Require Import ZArith QArith Qabs Qminmax Lqa Lia List Bool String.
From Stdlib Require Floats.
Import ListNotations.
Open Scope Q_scope.

(** ** models.py *)

Inductive DriverStatus := AVAILABLE | ON_TRIP | OFFLINE.

Inductive RequestStatus := WAITING | ASSIGNED | REJECTED | COMPLETED | FAILED.

Definition DriverStatus_eqb (a b : DriverStatus) : bool :=
  match a, b with
  | AVAILABLE, AVAILABLE | ON_TRIP, ON_TRIP | OFFLINE, OFFLINE => true
  | _, _ => false
  end.

Definition RequestStatus_eqb (a b : RequestStatus) : bool :=
  match a, b with
  | WAITING, WAITING | ASSIGNED, ASSIGNED | REJECTED, REJECTED
  | COMPLETED, COMPLETED | FAILED, FAILED => true
  | _, _ => false
  end.

Module Driver.
Record t := mk {
  id : Z;
  x : Q;
  y : Q;
  status : DriverStatus;
  assigned_request_id : option Z
}.

(** In-place assignments to the fields of a driver object. *)
Definition set_position (new_x new_y : Q) (d : t) : t :=
  mk (id d) new_x new_y (status d) (assigned_request_id d).
Definition set_status (s : DriverStatus) (d : t) : t :=
  mk (id d) (x d) (y d) s (assigned_request_id d).
Definition set_assigned_request_id (r : option Z) (d : t) : t :=
  mk (id d) (x d) (y d) (status d) r.
End Driver.

Module Rider.
Record t := mk {
  id : Z;
  pickup_x : Q;
  pickup_y : Q;
  dropoff_x : Q;
  dropoff_y : Q
}.
End Rider.

Module RideRequest.
Record t := mk {
  id : Z;
  rider_id : Z;
  pickup_x : Q;
  pickup_y : Q;
  dropoff_x : Q;
  dropoff_y : Q;
  status : RequestStatus;
  attempts : Z;
  assigned_driver_id : option Z;
  picked_up : bool
}.

(** In-place assignments to the fields of a request object. *)
Definition set_status (s : RequestStatus) (r : t) : t :=
  mk (id r) (rider_id r) (pickup_x r) (pickup_y r) (dropoff_x r) (dropoff_y r)
     s (attempts r) (assigned_driver_id r) (picked_up r).
Definition set_attempts (n : Z) (r : t) : t :=
  mk (id r) (rider_id r) (pickup_x r) (pickup_y r) (dropoff_x r) (dropoff_y r)
     (status r) n (assigned_driver_id r) (picked_up r).
Definition set_assigned_driver_id (d : option Z) (r : t) : t :=
  mk (id r) (rider_id r) (pickup_x r) (pickup_y r) (dropoff_x r) (dropoff_y r)
     (status r) (attempts r) d (picked_up r).
Definition set_picked_up (b : bool) (r : t) : t :=
  mk (id r) (rider_id r) (pickup_x r) (pickup_y r) (dropoff_x r) (dropoff_y r)
     (status r) (attempts r) (assigned_driver_id r) b.
End RideRequest.

(** One entry of the list [_dispatch_ride_internal] returns. *)
Module DispatchResult.
Record t := mk {
  request_id : Z;
  assigned_driver_id : option Z;
  attempts : Z;
  status : string
}.
End DispatchResult.

(** One entry of the list [_tick_internal] returns. *)
Module TickEvent.
Record t := mk {
  driver_id : Z;
  request_id : Z;
  event : string
}.
End TickEvent.

(** ** config.py *)

Record Config := mkConfig {
  DISPATCH_ALPHA : Q;
  DISPATCH_BETA : Q;
  REJECTION_RATE : Q;
  MOVE_SPEED : Q
}.

(** The values [config.py] resolves to when the environment sets nothing. *)
Definition default_config : Config := mkConfig 1 (1 # 10) (1 # 10) 1.

(** ** Comparisons *)

(** [a < b] on floats, as a boolean. *)
Definition Qlt_bool (a b : Q) : bool := negb (Qle_bool b a).

(** [score < best_score] where [best_score] starts as [float('inf')]: a
    rational score is below [inf].  (A double can be [inf] itself, see
    [Binary64.best_driver_loop].) *)
Definition lt_best (score : Q) (best_score : option Q) : bool :=
  match best_score with
  | None => true
  | Some b => Qlt_bool score b
  end.

(** Truth value of an [Optional[int]]: [None] and [0] are falsy. *)
Definition truthy (o : option Z) : bool :=
  match o with
  | None => false
  | Some n => negb (n =? 0)%Z
  end.

(** ** dispatch.py: utility functions *)

Definition calculate_manhattan_distance (x1 y1 x2 y2 : Q) : Q :=
  Qabs (x1 - x2) + Qabs (y1 - y2).

Section Utilities.
Variable cfg : Config.

Definition calculate_driver_score (driver : Driver.t) (request : RideRequest.t) : Q :=
  let eta_to_pickup :=
    calculate_manhattan_distance (Driver.x driver) (Driver.y driver)
      (RideRequest.pickup_x request) (RideRequest.pickup_y request) in
  let num_assigned := if truthy (Driver.assigned_request_id driver) then 1 else 0 in
  DISPATCH_ALPHA cfg * eta_to_pickup + DISPATCH_BETA cfg * num_assigned.

(** One axis of [move_towards_target]: the [if]/[elif] on one coordinate.
    Python's [min(a, b)] returns [a] unless [b < a], and [max(a, b)]
    returns [a] unless [b > a], which is what [Qmin] and [Qmax] do. *)
Definition move_axis (current target : Q) : Q :=
  if Qlt_bool current target then Qmin (current + MOVE_SPEED cfg) target
  else if Qlt_bool target current then Qmax (current - MOVE_SPEED cfg) target
  else current.

Definition move_towards_target (current_x current_y target_x target_y : Q) : Q * Q :=
  let new_x := move_axis current_x target_x in
  let new_y := move_axis current_y target_y in
  (new_x, new_y).

(** [random.random() < REJECTION_RATE] on the [n]-th draw. *)
Definition simulate_driver_rejection (random : nat -> Q) (n : nat) : bool :=
  Qlt_bool (random n) (REJECTION_RATE cfg).
End Utilities.


(** ** dispatch.py: the global store *)

Record World := mkWorld {
  drivers : list Driver.t;
  riders : list Rider.t;
  requests : list RideRequest.t;
  current_time : Z
}.

(** [drivers.get(k)] and [requests.get(k)]. *)
Definition get_driver (k : Z) (ds : list Driver.t) : option Driver.t :=
  find (fun d => (Driver.id d =? k)%Z) ds.

Definition get_request (k : Z) (rs : list RideRequest.t) : option RideRequest.t :=
  find (fun r => (RideRequest.id r =? k)%Z) rs.

(** Mutation of the object a reference points at: the entry stored under
    [k] is replaced by its image under [f], every other entry is kept. *)
Definition update_driver (k : Z) (f : Driver.t -> Driver.t) (ds : list Driver.t)
  : list Driver.t :=
  map (fun d => if (Driver.id d =? k)%Z then f d else d) ds.

Definition update_request (k : Z) (f : RideRequest.t -> RideRequest.t)
    (rs : list RideRequest.t) : list RideRequest.t :=
  map (fun r => if (RideRequest.id r =? k)%Z then f r else r) rs.

Definition with_drivers (ds : list Driver.t) (w : World) : World :=
  mkWorld ds (riders w) (requests w) (current_time w).

Definition with_requests (rs : list RideRequest.t) (w : World) : World :=
  mkWorld (drivers w) (riders w) rs (current_time w).

(** [l.remove(k)]: drops the first occurrence.  The source raises
    [ValueError] on a missing element; with rational scores the retry loop
    only ever removes a member, and the list is returned as it is otherwise.
    ([Binary64.list_remove] has the exception.) *)
Fixpoint remove_first (k : Z) (l : list Z) : list Z :=
  match l with
  | [] => []
  | h :: t => if (h =? k)%Z then t else h :: remove_first k t
  end.


(** ** dispatch.py: dispatch logic *)

(** What a [Dispatch] call threads through its loops: the store, the number
    of draws taken from the random source, and the [results] list. *)
Record DispatchState := mkDispatchState {
  world : World;
  draws : nat;
  results : list DispatchResult.t
}.

Section Dispatch.
Variable cfg : Config.
Variable random : nat -> Q.

(** The scoring loop
    [for driver in available_drivers: score = ...; if score < best_score: ...]
    run from given values of the variables [best_driver] and
    [best_score]; it returns their final values.  The drivers are read
    from the live store [ds]; a reference always resolves there, since no
    driver is added or removed during a call ([snapshot_resolves],
    [get_driver_update_resolves]). *)
Fixpoint best_driver_loop (ds : list Driver.t) (request : RideRequest.t)
    (available_drivers : list Z) (best_driver : option Z) (best_score : option Q)
  : option Z * option Q :=
  match available_drivers with
  | [] => (best_driver, best_score)
  | k :: rest =>
      match get_driver k ds with
      | None => best_driver_loop ds request rest best_driver best_score
      | Some driver =>
          let score := calculate_driver_score cfg driver request in
          if lt_best score best_score
          then best_driver_loop ds request rest (Some k) (Some score)
          else best_driver_loop ds request rest best_driver best_score
      end
  end.

(** The [else] branch of the retry loop: the driver accepts.  The source
    also removes the driver from [available_drivers] here; that list is the
    request's private copy and is dropped at the [break] that follows. *)
Definition accept_offer (request_id best_driver : Z) (attempts_made : Z)
    (st : DispatchState) : DispatchState :=
  let w := world st in
  let rs := update_request request_id
              (fun r => RideRequest.set_attempts attempts_made
                          (RideRequest.set_assigned_driver_id (Some best_driver)
                             (RideRequest.set_status ASSIGNED r)))
              (requests w) in
  let ds := update_driver best_driver
              (fun d => Driver.set_assigned_request_id (Some request_id)
                          (Driver.set_status ON_TRIP d))
              (drivers w) in
  mkDispatchState (with_drivers ds (with_requests rs w)) (S (draws st))
    (results st ++ [DispatchResult.mk request_id (Some best_driver) attempts_made "assigned"]).

(** [while attempts_made < max_attempts: ...].  The first argument is the
    loop variant [max_attempts - attempts_made], so the guard holds exactly
    when it is not zero.  Returns the state and the final value of
    [attempts_made]. *)
Fixpoint offer_loop (remaining : nat) (request_id : Z) (request : RideRequest.t)
    (available_drivers : list Z) (best_driver : Z) (attempts_made : Z)
    (st : DispatchState) : DispatchState * Z :=
  match remaining with
  | O => (st, attempts_made)
  | S remaining' =>
      if simulate_driver_rejection cfg random (draws st) then
        let st := mkDispatchState (world st) (S (draws st)) (results st) in
        let available_drivers := remove_first best_driver available_drivers in
        let attempts_made := (attempts_made + 1)%Z in
        match available_drivers with
        | [] => (st, attempts_made)
        | _ :: _ =>
            (* [best_score = float('inf')]; [best_driver] keeps its value *)
            let best_driver :=
              match fst (best_driver_loop (drivers (world st)) request
                           available_drivers (Some best_driver) None) with
              | Some b => b
              | None => best_driver
              end in
            offer_loop remaining' request_id request available_drivers best_driver
              attempts_made st
        end
      else (accept_offer request_id best_driver attempts_made st, attempts_made)
  end.

(** [if attempts_made >= max_attempts: ...]: every driver rejected. *)
Definition fail_request (request_id : Z) (attempts_made : Z) (st : DispatchState)
  : DispatchState :=
  let w := world st in
  let rs := update_request request_id
              (fun r => RideRequest.set_attempts attempts_made
                          (RideRequest.set_status FAILED r))
              (requests w) in
  mkDispatchState (with_requests rs w) (draws st)
    (results st ++ [DispatchResult.mk request_id None attempts_made "failed"]).

(** The body of [for request in waiting_requests], for the request object
    stored under [request_id] (always found, see [waiting_resolves]);
    [snapshot] is [all_available_drivers], of which [available_drivers] is
    a copy.  [if best_driver:] is the [Some] branch. *)
Definition dispatch_request (snapshot : list Z) (st : DispatchState)
    (request_id : Z) : DispatchState :=
  match get_request request_id (requests (world st)) with
  | None => st
  | Some request =>
      let available_drivers := snapshot in
      match fst (best_driver_loop (drivers (world st)) request available_drivers
                   None None) with
      | None => st
      | Some best_driver =>
          let max_attempts := List.length available_drivers in
          let '(st', attempts_made) :=
            offer_loop max_attempts request_id request available_drivers
              best_driver 0%Z st in
          if (Z.of_nat max_attempts <=? attempts_made)%Z
          then fail_request request_id attempts_made st'
          else st'
      end
  end.

Definition waiting_requests (w : World) : list Z :=
  map RideRequest.id
    (filter (fun req => RequestStatus_eqb (RideRequest.status req) WAITING) (requests w)).

Definition all_available_drivers (w : World) : list Z :=
  map Driver.id
    (filter (fun driver => DriverStatus_eqb (Driver.status driver) AVAILABLE) (drivers w)).

(** [_dispatch_ride_internal], started when [n] draws have been made. *)
Definition _dispatch_ride_internal (w : World) (n : nat) : DispatchState :=
  match waiting_requests w with
  | [] => mkDispatchState w n []
  | _ :: _ =>
      match all_available_drivers w with
      | [] => mkDispatchState w n []
      | _ :: _ =>
          fold_left (dispatch_request (all_available_drivers w))
            (waiting_requests w) (mkDispatchState w n [])
      end
  end.
End Dispatch.

(** ** dispatch.py: tick logic *)

Section Tick.
Variable cfg : Config.

(** The body of [for driver in drivers.values()], for the driver object
    stored under [k]; the state is the store and [updated_requests]. *)
Definition tick_driver (st : World * list TickEvent.t) (k : Z)
  : World * list TickEvent.t :=
  let '(w, updated_requests) := st in
  match get_driver k (drivers w) with
  | None => st
  | Some driver =>
      if DriverStatus_eqb (Driver.status driver) ON_TRIP
         && truthy (Driver.assigned_request_id driver)
      then
        match Driver.assigned_request_id driver with
        | None => st
        | Some rid =>
            match get_request rid (requests w) with
            | None => st
            | Some request =>
                if negb (RideRequest.picked_up request) then
                  let distance_to_pickup :=
                    calculate_manhattan_distance (Driver.x driver) (Driver.y driver)
                      (RideRequest.pickup_x request) (RideRequest.pickup_y request) in
                  if Qlt_bool 0 distance_to_pickup then
                    let '(new_x, new_y) :=
                      move_towards_target cfg (Driver.x driver) (Driver.y driver)
                        (RideRequest.pickup_x request) (RideRequest.pickup_y request) in
                    let w1 :=
                      with_drivers
                        (update_driver k (Driver.set_position new_x new_y) (drivers w)) w in
                    if Qeq_bool
                         (calculate_manhattan_distance new_x new_y
                            (RideRequest.pickup_x request) (RideRequest.pickup_y request)) 0
                    then
                      (with_requests
                         (update_request rid (RideRequest.set_picked_up true) (requests w1)) w1,
                       updated_requests ++
                         [TickEvent.mk (Driver.id driver) (RideRequest.id request)
                            "reached_pickup"])
                    else (w1, updated_requests)
                  else if Qeq_bool distance_to_pickup 0 then
                    (with_requests
                       (update_request rid (RideRequest.set_picked_up true) (requests w)) w,
                     updated_requests ++
                       [TickEvent.mk (Driver.id driver) (RideRequest.id request)
                          "reached_pickup"])
                  else st
                else
                  let distance_to_dropoff :=
                    calculate_manhattan_distance (Driver.x driver) (Driver.y driver)
                      (RideRequest.dropoff_x request) (RideRequest.dropoff_y request) in
                  if Qlt_bool 0 distance_to_dropoff then
                    let '(new_x, new_y) :=
                      move_towards_target cfg (Driver.x driver) (Driver.y driver)
                        (RideRequest.dropoff_x request) (RideRequest.dropoff_y request) in
                    let w1 :=
                      with_drivers
                        (update_driver k (Driver.set_position new_x new_y) (drivers w)) w in
                    if Qeq_bool
                         (calculate_manhattan_distance new_x new_y
                            (RideRequest.dropoff_x request) (RideRequest.dropoff_y request)) 0
                    then
                      let rs :=
                        update_request rid
                          (fun r => RideRequest.set_picked_up false
                                      (RideRequest.set_status COMPLETED r))
                          (requests w1) in
                      let ds :=
                        update_driver k
                          (fun d => Driver.set_assigned_request_id None
                                      (Driver.set_status AVAILABLE d))
                          (drivers w1) in
                      (with_drivers ds (with_requests rs w1),
                       updated_requests ++
                         [TickEvent.mk (Driver.id driver) (RideRequest.id request)
                            "completed"])
                    else (w1, updated_requests)
                  else st
            end
        end
      else st
  end.

(** [_tick_internal]: the new store and [updated_requests]. *)
Definition _tick_internal (w : World) : World * list TickEvent.t :=
  let w0 := mkWorld (drivers w) (riders w) (requests w) (current_time w + 1)%Z in
  fold_left tick_driver (map Driver.id (drivers w)) (w0, []).
End Tick.

(** ** routers/requests.py: manual reject *)

(** What an endpoint produces: a value, or [raise HTTPException(...)]. *)
Inductive Response (A : Type) :=
| Ok (a : A)
| HTTPException (status_code : Z) (detail : string).
Arguments Ok {A} a.
Arguments HTTPException {A} status_code detail.

Section Reject.
Variable cfg : Config.

(** [find_best_driver(request, exclude)] over the live store [ds]. *)
Definition find_best_driver (ds : list Driver.t) (request : RideRequest.t)
    (exclude : list Z) : option Z :=
  let available_drivers :=
    map Driver.id
      (filter (fun driver =>
                 DriverStatus_eqb (Driver.status driver) AVAILABLE
                 && negb (existsb (Z.eqb (Driver.id driver)) exclude))
              ds) in
  match available_drivers with
  | [] => None
  | _ :: _ =>
      fst (best_driver_loop cfg ds request available_drivers None None)
  end.

(** [_reject_request_internal]: the new store and the request as returned.
    [requests[request_id]] on a missing key is a [KeyError], here [None]. *)
Definition _reject_request_internal (w : World) (request_id driver_id : Z)
  : option (World * RideRequest.t) :=
  match get_request request_id (requests w) with
  | None => None
  | Some request0 =>
      let request := RideRequest.set_attempts (RideRequest.attempts request0 + 1)%Z request0 in
      let w1 :=
        with_requests
          (update_request request_id
             (fun r => RideRequest.set_attempts (RideRequest.attempts r + 1)%Z r)
             (requests w)) w in
      match find_best_driver (drivers w1) request [driver_id] with
      | Some best_driver =>
          let upd := fun r => RideRequest.set_assigned_driver_id (Some best_driver)
                                (RideRequest.set_status ASSIGNED r) in
          let rs := update_request request_id upd (requests w1) in
          let ds :=
            update_driver best_driver
              (fun d => Driver.set_assigned_request_id (Some request_id)
                          (Driver.set_status ON_TRIP d))
              (drivers w1) in
          Some (with_drivers ds (with_requests rs w1), upd request)
      | None =>
          let upd := fun r => RideRequest.set_assigned_driver_id None
                                (RideRequest.set_status FAILED r) in
          let rs := update_request request_id upd (requests w1) in
          Some (with_requests rs w1, upd request)
      end
  end.

(** The endpoint [reject_request]: its checks, then the internal call. *)
Definition reject_request (w : World) (request_id driver_id : Z)
  : Response (World * RideRequest.t) :=
  match get_request request_id (requests w) with
  | None => HTTPException 404 "Request not found"
  | Some request =>
      if negb (RequestStatus_eqb (RideRequest.status request) WAITING)
      then HTTPException 400 "Request is not in waiting status"
      else
        match get_driver driver_id (drivers w) with
        | None => HTTPException 404 "Driver not found"
        | Some _ =>
            match _reject_request_internal w request_id driver_id with
            | Some out => Ok out
            | None => HTTPException 500 "Internal Server Error"
            end
        end
  end.
End Reject.

(** ** Concrete worlds *)

(** A request as [_create_request_internal] and [init_sample_data] build it. *)
Definition new_request (id rider_id : Z) (pickup_x pickup_y dropoff_x dropoff_y : Q)
  : RideRequest.t :=
  RideRequest.mk id rider_id pickup_x pickup_y dropoff_x dropoff_y WAITING 0 None false.

(** The store after [init_sample_data]. *)
Definition sample_world : World :=
  mkWorld
    [ Driver.mk 1 0 0 AVAILABLE None;
      Driver.mk 2 5 5 AVAILABLE None;
      Driver.mk 3 10 10 OFFLINE None ]
    [ Rider.mk 1 2 2 8 8;
      Rider.mk 2 15 15 20 20 ]
    [ new_request 1 1 2 2 8 8;
      new_request 2 2 15 15 20 20 ]
    0.

(** Scenario A: one available driver at the origin, one waiting request
    from (2,2) to (8,8). *)
Definition scenario_A_world : World :=
  mkWorld
    [ Driver.mk 1 0 0 AVAILABLE None ]
    [ Rider.mk 1 2 2 8 8 ]
    [ new_request 1 1 2 2 8 8 ]
    0.

(** The store [Dispatch] leaves in scenario A. *)
Definition scenario_A_dispatched : World :=
  mkWorld
    [ Driver.mk 1 0 0 ON_TRIP (Some 1%Z) ]
    [ Rider.mk 1 2 2 8 8 ]
    [ RideRequest.mk 1 1 2 2 8 8 ASSIGNED 0 (Some 1%Z) false ]
    0.

(** Rejection rate 0 and speed 1, the weights at their defaults. *)
Definition scenario_A_config : Config := mkConfig 1 (1 # 10) 0 1.

(** One available driver and two waiting requests. *)
Definition one_driver_two_requests : World :=
  mkWorld
    [ Driver.mk 1 0 0 AVAILABLE None ]
    [ Rider.mk 1 2 2 8 8;
      Rider.mk 2 15 15 20 20 ]
    [ new_request 1 1 2 2 8 8;
      new_request 2 2 15 15 20 20 ]
    0.

(** [n] calls of [Tick] in a row: the store and the events of each call,
    the first call's events first. *)
Fixpoint tick_n (cfg : Config) (n : nat) (w : World) : World * list (list TickEvent.t) :=
  match n with
  | O => (w, [])
  | S n' =>
      let '(w1, events) := _tick_internal cfg w in
      let '(w2, later) := tick_n cfg n' w1 in
      (w2, events :: later)
  end.

(** ** Properties the claims are about *)

(** The drivers a [Dispatch] call reports as assigned, in result order. *)
Fixpoint assigned_drivers (rs : list DispatchResult.t) : list Z :=
  match rs with
  | [] => []
  | e :: rest =>
      match DispatchResult.assigned_driver_id e with
      | Some k => k :: assigned_drivers rest
      | None => assigned_drivers rest
      end
  end.

Definition option_Z_eqb (a b : option Z) : bool :=
  match a, b with
  | Some m, Some n => (m =? n)%Z
  | None, None => true
  | _, _ => false
  end.

(** Back-reference symmetry: every assigned request names exactly one
    driver, which is on trip and points back at the request. *)
Definition back_reference_ok (w : World) : bool :=
  forallb
    (fun r =>
       if RequestStatus_eqb (RideRequest.status r) ASSIGNED then
         match RideRequest.assigned_driver_id r with
         | None => false
         | Some k =>
             match filter (fun d => (Driver.id d =? k)%Z) (drivers w) with
             | [d] =>
                 DriverStatus_eqb (Driver.status d) ON_TRIP
                 && option_Z_eqb (Driver.assigned_request_id d) (Some (RideRequest.id r))
             | _ => false
             end
         end
       else true)
    (requests w).

(** Where the driver stored under [k] is. *)
Definition driver_at (k : Z) (px py : Q) (w : World) : Prop :=
  exists d, get_driver k (drivers w) = Some d /\ Driver.x d == px /\ Driver.y d == py.

(** Scenario A with the two tick counts left open: [Dispatch] assigns
    driver 1 with no rejection; the driver is at the pickup point (2,2)
    after [to_pickup] ticks and not before; the only events of the first
    [to_pickup + to_dropoff] ticks are [reached_pickup] on tick [to_pickup]
    and [completed] on the last one. *)
Definition scenario_A_holds (random : nat -> Q) (to_pickup to_dropoff : nat) : Prop :=
  let st := _dispatch_ride_internal scenario_A_config random scenario_A_world 0 in
  results st = [DispatchResult.mk 1 (Some 1%Z) 0 "assigned"] /\
  (forall k, (k < to_pickup)%nat ->
     ~ driver_at 1 2 2 (fst (tick_n scenario_A_config k (world st)))) /\
  driver_at 1 2 2 (fst (tick_n scenario_A_config to_pickup (world st))) /\
  snd (tick_n scenario_A_config (to_pickup + to_dropoff) (world st)) =
    repeat [] (to_pickup - 1) ++ [[TickEvent.mk 1 1 "reached_pickup"]] ++
    repeat [] (to_dropoff - 1) ++ [[TickEvent.mk 1 1 "completed"]].

(** Draws under which the sample data's second request is refused by its
    best driver and accepted by the next one. *)
Definition second_offer_rejected (n : nat) : Q :=
  match n with
  | 1%nat => 1 # 20
  | _ => 1 # 2
  end.

(** ** dispatch.py: status overview *)

Module Status.
Record t := mk {
  current_time : Z;
  drivers_total : nat;
  drivers_available : nat;
  drivers_on_trip : nat;
  drivers_offline : nat;
  riders_total : nat;
  requests_total : nat;
  requests_waiting : nat;
  requests_assigned : nat;
  requests_completed : nat;
  requests_failed : nat
}.
End Status.

(** [len([d for d in drivers.values() if d.status == s])]. *)
Definition count_drivers (s : DriverStatus) (ds : list Driver.t) : nat :=
  List.length (filter (fun d => DriverStatus_eqb (Driver.status d) s) ds).

Definition count_requests (s : RequestStatus) (rs : list RideRequest.t) : nat :=
  List.length (filter (fun r => RequestStatus_eqb (RideRequest.status r) s) rs).

Definition get_system_status (w : World) : Status.t :=
  Status.mk (current_time w)
    (List.length (drivers w))
    (count_drivers AVAILABLE (drivers w))
    (count_drivers ON_TRIP (drivers w))
    (count_drivers OFFLINE (drivers w))
    (List.length (riders w))
    (List.length (requests w))
    (count_requests WAITING (requests w))
    (count_requests ASSIGNED (requests w))
    (count_requests COMPLETED (requests w))
    (count_requests FAILED (requests w)).

(** ** Dictionary writes *)

(** [d[key(v)] = v]: an existing key keeps its place and gets the new
    value, a new key goes to the end.  Every such write in the source
    stores an object under its own [id]. *)
Definition dict_set {A : Type} (key : A -> Z) (v : A) (l : list A) : list A :=
  if existsb (fun a => (key a =? key v)%Z) l
  then map (fun a => if (key a =? key v)%Z then v else a) l
  else l ++ [v].

(** [del d[k]]. *)
Definition dict_del {A : Type} (key : A -> Z) (k : Z) (l : list A) : list A :=
  filter (fun a => negb (key a =? k)%Z) l.

(** [riders.get(k)]; [k in riders] is [get_rider k _ <> None]. *)
Definition get_rider (k : Z) (rs : list Rider.t) : option Rider.t :=
  find (fun r => (Rider.id r =? k)%Z) rs.

(** ** The process state: the store and the id counters *)

(** [services/dispatch.py] owns [driver_counter], [rider_counter] and
    [request_counter].  Each router does
    [from services.dispatch import ..., x_counter], which binds a name of
    its own to the value the counter has at import time (1), and its
    [global x_counter; x_counter += 1] rebinds that name only. *)
Record System := mkSystem {
  store : World;
  driver_counter : Z;
  rider_counter : Z;
  request_counter : Z;
  drivers_router_counter : Z;
  riders_router_counter : Z;
  requests_router_counter : Z
}.

(** The state when the modules have just been imported. *)
Definition startup : System := mkSystem (mkWorld [] [] [] 0) 1 1 1 1 1 1.

Definition with_store (w : World) (s : System) : System :=
  mkSystem w (driver_counter s) (rider_counter s) (request_counter s)
    (drivers_router_counter s) (riders_router_counter s) (requests_router_counter s).

(** ** dispatch.py: data management *)

Record InitData := mkInitData {
  message : string;
  drivers_created : nat;
  riders_created : nat;
  requests_created : nat
}.

Definition sample_drivers : list (Q * Q * DriverStatus) :=
  [ (0, 0, AVAILABLE); (5, 5, AVAILABLE); (10, 10, OFFLINE) ].

Definition sample_riders : list (Q * Q * Q * Q) :=
  [ (2, 2, 8, 8); (15, 15, 20, 20) ].

Definition sample_requests : list (Z * Q * Q * Q * Q) :=
  [ (1%Z, 2, 2, 8, 8); (2%Z, 15, 15, 20, 20) ].

(** [init_sample_data]: the three dictionaries are cleared, the module's
    counters reset, and the sample entities created with ids drawn from
    those counters.  [current_time] and the routers' counters are not
    touched. *)
Definition init_sample_data (s : System) : System * InitData :=
  let '(ds, driver_counter) :=
    fold_left
      (fun (acc : list Driver.t * Z) (driver_data : Q * Q * DriverStatus) =>
         let '(ds, c) := acc in
         let '(x, y, status) := driver_data in
         (dict_set Driver.id (Driver.mk c x y status None) ds, (c + 1)%Z))
      sample_drivers ([], 1%Z) in
  let '(rds, rider_counter) :=
    fold_left
      (fun (acc : list Rider.t * Z) (rider_data : Q * Q * Q * Q) =>
         let '(rds, c) := acc in
         let '(px, py, dx, dy) := rider_data in
         (dict_set Rider.id (Rider.mk c px py dx dy) rds, (c + 1)%Z))
      sample_riders ([], 1%Z) in
  let '(rqs, request_counter) :=
    fold_left
      (fun (acc : list RideRequest.t * Z) (request_data : Z * Q * Q * Q * Q) =>
         let '(rqs, c) := acc in
         let '(rider_id, px, py, dx, dy) := request_data in
         (dict_set RideRequest.id
            (RideRequest.mk c rider_id px py dx dy WAITING 0 None false) rqs,
          (c + 1)%Z))
      sample_requests ([], 1%Z) in
  (mkSystem (mkWorld ds rds rqs (current_time (store s)))
     driver_counter rider_counter request_counter
     (drivers_router_counter s) (riders_router_counter s) (requests_router_counter s),
   mkInitData "Sample data initialized"
     (List.length sample_drivers) (List.length sample_riders)
     (List.length sample_requests)).

Definition reset_all_data (s : System) : System * InitData :=
  (mkSystem (mkWorld [] [] [] (current_time (store s))) 1 1 1
     (drivers_router_counter s) (riders_router_counter s) (requests_router_counter s),
   mkInitData "All data reset to completely clean state" 0 0 0).

(** [dispatch_ride] and [tick]: the internal functions under the lock. *)
Definition dispatch_ride (cfg : Config) (random : nat -> Q) (w : World) (n : nat)
  : DispatchState :=
  _dispatch_ride_internal cfg random w n.

Definition tick (cfg : Config) (w : World) : World * list TickEvent.t :=
  _tick_internal cfg w.

(** ** routers/drivers.py *)

Module DriversRouter.

Record DriverCreate := mkDriverCreate {
  x : Q;
  y : Q;
  status : DriverStatus
}.

Definition _create_driver_internal (s : System) (driver_request : DriverCreate)
  : System * Driver.t :=
  let new_id := drivers_router_counter s in
  let driver :=
    Driver.mk new_id (x driver_request) (y driver_request) (status driver_request) None in
  let w := store s in
  (mkSystem (with_drivers (dict_set Driver.id driver (drivers w)) w)
     (driver_counter s) (rider_counter s) (request_counter s)
     (new_id + 1)%Z (riders_router_counter s) (requests_router_counter s),
   driver).

Definition create_driver (s : System) (driver_request : DriverCreate)
  : System * Driver.t :=
  _create_driver_internal s driver_request.

Definition _update_driver_status_internal (s : System) (driver_id : Z)
    (status : DriverStatus) : option (System * Driver.t) :=
  match get_driver driver_id (drivers (store s)) with
  | None => None
  | Some existing_driver =>
      let driver :=
        Driver.mk driver_id (Driver.x existing_driver) (Driver.y existing_driver)
          status (Driver.assigned_request_id existing_driver) in
      let w := store s in
      Some (with_store (with_drivers (dict_set Driver.id driver (drivers w)) w) s, driver)
  end.

Definition update_driver_status (s : System) (driver_id : Z) (status : DriverStatus)
  : Response (System * Driver.t) :=
  match get_driver driver_id (drivers (store s)) with
  | None => HTTPException 404 "Driver not found"
  | Some _ =>
      match _update_driver_status_internal s driver_id status with
      | Some out => Ok out
      | None => HTTPException 500 "Internal Server Error"
      end
  end.

Definition delete_driver (s : System) (driver_id : Z) : Response (System * string) :=
  match get_driver driver_id (drivers (store s)) with
  | None => HTTPException 404 "Driver not found"
  | Some _ =>
      let w := store s in
      Ok (with_store (with_drivers (dict_del Driver.id driver_id (drivers w)) w) s,
          "Driver deleted successfully"%string)
  end.

(** The endpoint [get_driver]; it comes last here because its name hides
    the dictionary lookup of the same name. *)
Definition get_driver (s : System) (driver_id : Z) : Response Driver.t :=
  match get_driver driver_id (drivers (store s)) with
  | None => HTTPException 404 "Driver not found"
  | Some d => Ok d
  end.

End DriversRouter.

(** ** routers/riders.py *)

Module RidersRouter.

(** [RiderCreate] and [UpdateRiderRequest] have the same four fields. *)
Record RiderCreate := mkRiderCreate {
  pickup_x : Q;
  pickup_y : Q;
  dropoff_x : Q;
  dropoff_y : Q
}.

Definition with_riders (rs : list Rider.t) (w : World) : World :=
  mkWorld (drivers w) rs (requests w) (current_time w).

Definition _create_rider_internal (s : System) (rider_request : RiderCreate)
  : System * Rider.t :=
  let new_id := riders_router_counter s in
  let rider :=
    Rider.mk new_id (pickup_x rider_request) (pickup_y rider_request)
      (dropoff_x rider_request) (dropoff_y rider_request) in
  let w := store s in
  (mkSystem (with_riders (dict_set Rider.id rider (riders w)) w)
     (driver_counter s) (rider_counter s) (request_counter s)
     (drivers_router_counter s) (new_id + 1)%Z (requests_router_counter s),
   rider).

Definition create_rider (s : System) (rider_request : RiderCreate)
  : System * Rider.t :=
  _create_rider_internal s rider_request.

Definition _update_rider_internal (s : System) (rider_id : Z)
    (rider_request : RiderCreate) : System * Rider.t :=
  let rider :=
    Rider.mk rider_id (pickup_x rider_request) (pickup_y rider_request)
      (dropoff_x rider_request) (dropoff_y rider_request) in
  let w := store s in
  (with_store (with_riders (dict_set Rider.id rider (riders w)) w) s, rider).

Definition update_rider (s : System) (rider_id : Z) (rider_request : RiderCreate)
  : Response (System * Rider.t) :=
  match get_rider rider_id (riders (store s)) with
  | None => HTTPException 404 "Rider not found"
  | Some _ => Ok (_update_rider_internal s rider_id rider_request)
  end.

Definition delete_rider (s : System) (rider_id : Z) : Response (System * string) :=
  match get_rider rider_id (riders (store s)) with
  | None => HTTPException 404 "Rider not found"
  | Some _ =>
      let w := store s in
      Ok (with_store (with_riders (dict_del Rider.id rider_id (riders w)) w) s,
          "Rider deleted successfully"%string)
  end.

(** The endpoint [get_rider]. *)
Definition get_rider (s : System) (rider_id : Z) : Response Rider.t :=
  match get_rider rider_id (riders (store s)) with
  | None => HTTPException 404 "Rider not found"
  | Some r => Ok r
  end.

End RidersRouter.

(** ** routers/requests.py: create, read, manual accept *)

Module RequestsRouter.

Record RideRequestCreate := mkRideRequestCreate {
  rider_id : Z;
  pickup_x : Q;
  pickup_y : Q;
  dropoff_x : Q;
  dropoff_y : Q
}.

Definition _create_request_internal (s : System) (request_data : RideRequestCreate)
  : System * RideRequest.t :=
  let new_id := requests_router_counter s in
  let request :=
    RideRequest.mk new_id (rider_id request_data)
      (pickup_x request_data) (pickup_y request_data)
      (dropoff_x request_data) (dropoff_y request_data)
      WAITING 0 None false in
  let w := store s in
  (mkSystem (with_requests (dict_set RideRequest.id request (requests w)) w)
     (driver_counter s) (rider_counter s) (request_counter s)
     (drivers_router_counter s) (riders_router_counter s) (new_id + 1)%Z,
   request).

Definition create_request (s : System) (request_data : RideRequestCreate)
  : Response (System * RideRequest.t) :=
  match get_rider (rider_id request_data) (riders (store s)) with
  | None => HTTPException 400 "Rider not found"
  | Some _ => Ok (_create_request_internal s request_data)
  end.

(** [_accept_request_internal]; a missing key is a [KeyError], here
    [None]. *)
Definition _accept_request_internal (w : World) (request_id driver_id : Z)
  : option (World * RideRequest.t) :=
  match get_request request_id (requests w), get_driver driver_id (drivers w) with
  | Some request, Some driver =>
      let upd := fun r => RideRequest.set_attempts 0
                            (RideRequest.set_assigned_driver_id (Some driver_id)
                               (RideRequest.set_status ASSIGNED r)) in
      let rs := update_request request_id upd (requests w) in
      let ds :=
        update_driver driver_id
          (fun d => Driver.set_assigned_request_id (Some request_id)
                      (Driver.set_status ON_TRIP d))
          (drivers w) in
      Some (with_drivers ds (with_requests rs w), upd request)
  | _, _ => None
  end.

(** The endpoint [accept_request]: its checks, then the internal call. *)
Definition accept_request (w : World) (request_id driver_id : Z)
  : Response (World * RideRequest.t) :=
  match get_request request_id (requests w) with
  | None => HTTPException 404 "Request not found"
  | Some request =>
      if negb (RequestStatus_eqb (RideRequest.status request) WAITING)
      then HTTPException 400 "Request is not in waiting status"
      else
        match get_driver driver_id (drivers w) with
        | None => HTTPException 404 "Driver not found"
        | Some driver =>
            if negb (DriverStatus_eqb (Driver.status driver) AVAILABLE)
            then HTTPException 400 "Driver is not available"
            else
              match _accept_request_internal w request_id driver_id with
              | Some out => Ok out
              | None => HTTPException 500 "Internal Server Error"
              end
        end
  end.

(** The endpoint [get_request]. *)
Definition get_request (s : System) (request_id : Z) : Response RideRequest.t :=
  match get_request request_id (requests (store s)) with
  | None => HTTPException 404 "Request not found"
  | Some r => Ok r
  end.

End RequestsRouter.

(** ** Named store updates *)

(** The three writes an iteration of [Tick]'s loop can make. *)
Definition move_driver (k : Z) (new_x new_y : Q) (w : World) : World :=
  with_drivers (update_driver k (Driver.set_position new_x new_y) (drivers w)) w.

Definition mark_picked_up (rid : Z) (w : World) : World :=
  with_requests (update_request rid (RideRequest.set_picked_up true) (requests w)) w.

Definition complete_trip (k rid : Z) (w : World) : World :=
  with_drivers
    (update_driver k
       (fun d => Driver.set_assigned_request_id None (Driver.set_status AVAILABLE d))
       (drivers w))
    (with_requests
       (update_request rid
          (fun r => RideRequest.set_picked_up false (RideRequest.set_status COMPLETED r))
          (requests w))
       w).

(** Back-reference symmetry as a proposition, with the driver found by key
    lookup. *)
Definition linked (w : World) : Prop :=
  forall r, In r (requests w) -> RideRequest.status r = ASSIGNED ->
    exists k d,
      RideRequest.assigned_driver_id r = Some k /\
      get_driver k (drivers w) = Some d /\
      Driver.status d = ON_TRIP /\
      Driver.assigned_request_id d = Some (RideRequest.id r).

(** The draws one result entry stands for: one per refusal, and one more
    for the acceptance when there is one. *)
Definition draws_used (e : DispatchResult.t) : nat :=
  Z.to_nat (DispatchResult.attempts e) +
  match DispatchResult.assigned_driver_id e with
  | Some _ => 1
  | None => 0
  end.

(** What a result entry of a call with [candidates] snapshot drivers looks
    like: assigned to a snapshot driver after fewer refusals than there are
    candidates, or failed after as many. *)
Definition result_ok (snapshot : list Z) (e : DispatchResult.t) : Prop :=
  (DispatchResult.status e = "assigned"%string /\
   (exists b, DispatchResult.assigned_driver_id e = Some b /\ In b snapshot) /\
   (0 <= DispatchResult.attempts e < Z.of_nat (List.length snapshot))%Z)
  \/
  (DispatchResult.status e = "failed"%string /\
   DispatchResult.assigned_driver_id e = None /\
   DispatchResult.attempts e = Z.of_nat (List.length snapshot)).

(** ** Completion of a trip, read on a whole [Tick] *)

(** What C6 says of the driver stored under [k], read on what the call
    returns: if at the start of the call the driver is on trip for a request
    that is picked up, does not stand on the dropoff point, and one movement
    step from where it stands lands exactly on it, then the returned events
    hold a [completed] for the pair, and the returned store holds the
    request [COMPLETED] with [picked_up] false and the driver [AVAILABLE]
    with no assigned request.  ([rid <> 0]: the id is one Python treats as
    true, as every id drawn from the counters is.) *)
Definition completes_trip (cfg : Config) (w : World) (k : Z) : Prop :=
  forall (d : Driver.t) (rid : Z) (request : RideRequest.t),
    get_driver k (drivers w) = Some d ->
    Driver.status d = ON_TRIP ->
    Driver.assigned_request_id d = Some rid ->
    rid <> 0%Z ->
    get_request rid (requests w) = Some request ->
    RideRequest.picked_up request = true ->
    ~ (Driver.x d == RideRequest.dropoff_x request /\
       Driver.y d == RideRequest.dropoff_y request) ->
    let new := move_towards_target cfg (Driver.x d) (Driver.y d)
                 (RideRequest.dropoff_x request) (RideRequest.dropoff_y request) in
    fst new == RideRequest.dropoff_x request /\
    snd new == RideRequest.dropoff_y request ->
    In (TickEvent.mk k rid "completed") (snd (_tick_internal cfg w)) /\
    get_request rid (requests (fst (_tick_internal cfg w))) =
      Some (RideRequest.set_picked_up false (RideRequest.set_status COMPLETED request)) /\
    get_driver k (drivers (fst (_tick_internal cfg w))) =
      Some (Driver.mk k (fst new) (snd new) AVAILABLE None).

(** The request of the driver stored under [k] is the request of no other
    driver that is on trip. *)
Definition sole_driver_of_its_request (w : World) (k : Z) : Prop :=
  forall (d : Driver.t) (rid : Z),
    get_driver k (drivers w) = Some d ->
    Driver.assigned_request_id d = Some rid ->
    forall (k' : Z) (d' : Driver.t),
      get_driver k' (drivers w) = Some d' ->
      Driver.status d' = ON_TRIP ->
      Driver.assigned_request_id d' = Some rid ->
      k' = k.

(** Two drivers on trip for the same request, each one step away from its
    dropoff point (8,8).  Such a store is reached when a request created
    through the router reuses the id of a request already under way (the
    router's counter starts again at 1 after [init_sample_data]) and is then
    dispatched to another driver. *)
Definition shared_request_world : World :=
  mkWorld
    [ Driver.mk 1 7 7 ON_TRIP (Some 1%Z);
      Driver.mk 2 8 7 ON_TRIP (Some 1%Z) ]
    [ Rider.mk 1 2 2 8 8 ]
    [ RideRequest.mk 1 1 2 2 8 8 ASSIGNED 0 (Some 2%Z) true ]
    7.

(** The same with a request whose pickup point is its dropoff point. *)
Definition shared_spot_world : World :=
  mkWorld
    [ Driver.mk 1 7 7 ON_TRIP (Some 1%Z);
      Driver.mk 2 8 7 ON_TRIP (Some 1%Z) ]
    [ Rider.mk 1 8 8 8 8 ]
    [ RideRequest.mk 1 1 8 8 8 8 ASSIGNED 0 (Some 2%Z) true ]
    7.

(** The two states the loop of a [Tick] goes through for a trip that the
    call completes: until the driver's iteration, driver and request are as
    at the start and no other on-trip driver points at the request; from
    then on, the event is recorded, driver and request are as the
    completion left them, and no on-trip driver points at the request. *)
Definition trip_pending (k rid : Z) (d : Driver.t) (request : RideRequest.t)
    (st : World * list TickEvent.t) : Prop :=
  get_driver k (drivers (fst st)) = Some d /\
  get_request rid (requests (fst st)) = Some request /\
  forall k' d', get_driver k' (drivers (fst st)) = Some d' ->
    Driver.status d' = ON_TRIP -> Driver.assigned_request_id d' = Some rid -> k' = k.

Definition trip_done (k rid : Z) (released : Driver.t) (done : RideRequest.t)
    (st : World * list TickEvent.t) : Prop :=
  In (TickEvent.mk k rid "completed") (snd st) /\
  get_driver k (drivers (fst st)) = Some released /\
  get_request rid (requests (fst st)) = Some done /\
  forall k' d', get_driver k' (drivers (fst st)) = Some d' ->
    Driver.status d' = ON_TRIP -> Driver.assigned_request_id d' <> Some rid.

(** * The scoring and offer code on binary64 numbers

    Everything above computes with exact rationals.  A Python [float] is an
    IEEE 754 binary64 number: sums, differences and products are rounded,
    and one that exceeds the largest double is [inf], for which
    [inf < inf] is false.  The scoring functions, [_dispatch_ride_internal]
    and the reject endpoint are embedded here once more, over Rocq's
    primitive floats, which are binary64 numbers with the same rounding
    (to nearest, ties to even) and the same comparisons.  The list
    operations are those of the source as well: [list.remove] raises
    [ValueError] when the element is not in the list. *)

Module Binary64.
Import PrimFloat.
Local Open Scope float_scope.
Set Warnings "-inexact-float".

(** *** models.py *)

Module Driver.
Record t := mk {
  id : Z;
  x : float;
  y : float;
  status : DriverStatus;
  assigned_request_id : option Z
}.

Definition set_status (s : DriverStatus) (d : t) : t :=
  mk (id d) (x d) (y d) s (assigned_request_id d).
Definition set_assigned_request_id (r : option Z) (d : t) : t :=
  mk (id d) (x d) (y d) (status d) r.
End Driver.

Module RideRequest.
Record t := mk {
  id : Z;
  rider_id : Z;
  pickup_x : float;
  pickup_y : float;
  dropoff_x : float;
  dropoff_y : float;
  status : RequestStatus;
  attempts : Z;
  assigned_driver_id : option Z;
  picked_up : bool
}.

Definition set_status (s : RequestStatus) (r : t) : t :=
  mk (id r) (rider_id r) (pickup_x r) (pickup_y r) (dropoff_x r) (dropoff_y r)
     s (attempts r) (assigned_driver_id r) (picked_up r).
Definition set_attempts (n : Z) (r : t) : t :=
  mk (id r) (rider_id r) (pickup_x r) (pickup_y r) (dropoff_x r) (dropoff_y r)
     (status r) n (assigned_driver_id r) (picked_up r).
Definition set_assigned_driver_id (d : option Z) (r : t) : t :=
  mk (id r) (rider_id r) (pickup_x r) (pickup_y r) (dropoff_x r) (dropoff_y r)
     (status r) (attempts r) d (picked_up r).
End RideRequest.

(** *** config.py *)

Record Config := mkConfig {
  DISPATCH_ALPHA : float;
  DISPATCH_BETA : float;
  REJECTION_RATE : float;
  MOVE_SPEED : float
}.

(** [float("1.0")], [float("0.1")], [float("0.1")], [float("1.0")]: the
    doubles nearest to the decimal strings. *)
Definition default_config : Config := mkConfig 1 0.1 0.1 1.

(** *** dispatch.py: utility functions *)

Definition calculate_manhattan_distance (x1 y1 x2 y2 : float) : float :=
  abs (x1 - x2) + abs (y1 - y2).

Section Utilities.
Variable cfg : Config.

(** [num_assigned] is the [int] 0 or 1, which the product with a float
    converts exactly. *)
Definition calculate_driver_score (driver : Driver.t) (request : RideRequest.t) : float :=
  let eta_to_pickup :=
    calculate_manhattan_distance (Driver.x driver) (Driver.y driver)
      (RideRequest.pickup_x request) (RideRequest.pickup_y request) in
  let num_assigned := if truthy (Driver.assigned_request_id driver) then 1 else 0 in
  DISPATCH_ALPHA cfg * eta_to_pickup + DISPATCH_BETA cfg * num_assigned.

(** [random.random() < REJECTION_RATE] on the [n]-th draw. *)
Definition simulate_driver_rejection (random : nat -> float) (n : nat) : bool :=
  random n <? REJECTION_RATE cfg.
End Utilities.

(** *** dispatch.py: the drivers and requests of the global store *)

Record World := mkWorld {
  drivers : list Driver.t;
  requests : list RideRequest.t
}.

Definition get_driver (k : Z) (ds : list Driver.t) : option Driver.t :=
  find (fun d => (Driver.id d =? k)%Z) ds.

Definition get_request (k : Z) (rs : list RideRequest.t) : option RideRequest.t :=
  find (fun r => (RideRequest.id r =? k)%Z) rs.

Definition update_driver (k : Z) (f : Driver.t -> Driver.t) (ds : list Driver.t)
  : list Driver.t :=
  map (fun d => if (Driver.id d =? k)%Z then f d else d) ds.

Definition update_request (k : Z) (f : RideRequest.t -> RideRequest.t)
    (rs : list RideRequest.t) : list RideRequest.t :=
  map (fun r => if (RideRequest.id r =? k)%Z then f r else r) rs.

(** [l.remove(k)]: drops the first occurrence; [None] is the [ValueError]
    Python raises when there is none. *)
Fixpoint list_remove (k : Z) (l : list Z) : option (list Z) :=
  match l with
  | [] => None
  | h :: t => if (h =? k)%Z then Some t else option_map (cons h) (list_remove k t)
  end.

(** *** dispatch.py: dispatch logic *)

Record DispatchState := mkDispatchState {
  world : World;
  draws : nat;
  results : list DispatchResult.t
}.

(** A call returns a value or raises; the store is global, so what the call
    wrote before it raised stays written. *)
Inductive Outcome (A : Type) :=
| Returns (a : A)
| Raises (exception : string) (st : DispatchState).
Arguments Returns {A} a.
Arguments Raises {A} exception st.

(** The state a call ends in: the one it returns, or the one its exception
    leaves behind. *)
Definition final_state (o : Outcome DispatchState) : DispatchState :=
  match o with
  | Returns st => st
  | Raises _ st => st
  end.

Section Dispatch.
Variable cfg : Config.
Variable random : nat -> float.

(** The scoring loop, run from given values of [best_driver] and
    [best_score]. *)
Fixpoint best_driver_loop (ds : list Driver.t) (request : RideRequest.t)
    (available_drivers : list Z) (best_driver : option Z) (best_score : float)
  : option Z * float :=
  match available_drivers with
  | [] => (best_driver, best_score)
  | k :: rest =>
      match get_driver k ds with
      | None => best_driver_loop ds request rest best_driver best_score
      | Some driver =>
          let score := calculate_driver_score cfg driver request in
          if score <? best_score
          then best_driver_loop ds request rest (Some k) score
          else best_driver_loop ds request rest best_driver best_score
      end
  end.

(** The writes of the [else] branch of the retry loop, which come before
    its [available_drivers.remove(best_driver)]. *)
Definition assign (request_id best_driver : Z) (attempts_made : Z) (w : World) : World :=
  mkWorld
    (update_driver best_driver
       (fun d => Driver.set_assigned_request_id (Some request_id)
                   (Driver.set_status ON_TRIP d))
       (drivers w))
    (update_request request_id
       (fun r => RideRequest.set_attempts attempts_made
                   (RideRequest.set_assigned_driver_id (Some best_driver)
                      (RideRequest.set_status ASSIGNED r)))
       (requests w)).

(** [while attempts_made < max_attempts: ...], the first argument being
    [max_attempts - attempts_made].  After a refusal the scoring loop starts
    again from [best_score = float('inf')] with [best_driver] as it is. *)
Fixpoint offer_loop (remaining : nat) (request_id : Z) (request : RideRequest.t)
    (available_drivers : list Z) (best_driver : Z) (attempts_made : Z)
    (st : DispatchState) : Outcome (DispatchState * Z) :=
  match remaining with
  | O => Returns (st, attempts_made)
  | S remaining' =>
      if simulate_driver_rejection cfg random (draws st) then
        let st := mkDispatchState (world st) (S (draws st)) (results st) in
        match list_remove best_driver available_drivers with
        | None => Raises "ValueError" st
        | Some available_drivers =>
            let attempts_made := (attempts_made + 1)%Z in
            match available_drivers with
            | [] => Returns (st, attempts_made)
            | _ :: _ =>
                let best_driver :=
                  match fst (best_driver_loop (drivers (world st)) request
                               available_drivers (Some best_driver) infinity) with
                  | Some b => b
                  | None => best_driver
                  end in
                offer_loop remaining' request_id request available_drivers best_driver
                  attempts_made st
            end
        end
      else
        let st :=
          mkDispatchState (assign request_id best_driver attempts_made (world st))
            (S (draws st)) (results st) in
        match list_remove best_driver available_drivers with
        | None => Raises "ValueError" st
        | Some _ =>
            Returns
              (mkDispatchState (world st) (draws st)
                 (results st ++
                    [DispatchResult.mk request_id (Some best_driver) attempts_made
                       "assigned"]),
               attempts_made)
        end
  end.

(** [if attempts_made >= max_attempts: ...]. *)
Definition fail_request (request_id : Z) (attempts_made : Z) (st : DispatchState)
  : DispatchState :=
  mkDispatchState
    (mkWorld (drivers (world st))
       (update_request request_id
          (fun r => RideRequest.set_attempts attempts_made
                      (RideRequest.set_status FAILED r))
          (requests (world st))))
    (draws st)
    (results st ++ [DispatchResult.mk request_id None attempts_made "failed"]).

(** The body of [for request in waiting_requests]; [if best_driver:] is
    the [Some] branch. *)
Definition dispatch_request (snapshot : list Z) (st : DispatchState)
    (request_id : Z) : Outcome DispatchState :=
  match get_request request_id (requests (world st)) with
  | None => Returns st
  | Some request =>
      let available_drivers := snapshot in
      match fst (best_driver_loop (drivers (world st)) request available_drivers
                   None infinity) with
      | None => Returns st
      | Some best_driver =>
          let max_attempts := List.length available_drivers in
          match offer_loop max_attempts request_id request available_drivers
                  best_driver 0%Z st with
          | Raises exception st' => Raises exception st'
          | Returns (st', attempts_made) =>
              if (Z.of_nat max_attempts <=? attempts_made)%Z
              then Returns (fail_request request_id attempts_made st')
              else Returns st'
          end
      end
  end.

(** The [for] loop: an exception ends it. *)
Fixpoint dispatch_requests (snapshot : list Z) (waiting : list Z)
    (st : DispatchState) : Outcome DispatchState :=
  match waiting with
  | [] => Returns st
  | request_id :: rest =>
      match dispatch_request snapshot st request_id with
      | Raises exception st' => Raises exception st'
      | Returns st' => dispatch_requests snapshot rest st'
      end
  end.

Definition waiting_requests (w : World) : list Z :=
  map RideRequest.id
    (filter (fun req => RequestStatus_eqb (RideRequest.status req) WAITING) (requests w)).

Definition all_available_drivers (w : World) : list Z :=
  map Driver.id
    (filter (fun driver => DriverStatus_eqb (Driver.status driver) AVAILABLE) (drivers w)).

(** [_dispatch_ride_internal], started when [n] draws have been made. *)
Definition _dispatch_ride_internal (w : World) (n : nat) : Outcome DispatchState :=
  match waiting_requests w with
  | [] => Returns (mkDispatchState w n [])
  | _ :: _ =>
      match all_available_drivers w with
      | [] => Returns (mkDispatchState w n [])
      | _ :: _ =>
          dispatch_requests (all_available_drivers w) (waiting_requests w)
            (mkDispatchState w n [])
      end
  end.
End Dispatch.

(** *** routers/requests.py: manual reject *)

Section Reject.
Variable cfg : Config.

(** [find_best_driver(request, exclude)]. *)
Definition find_best_driver (ds : list Driver.t) (request : RideRequest.t)
    (exclude : list Z) : option Z :=
  let available_drivers :=
    map Driver.id
      (filter (fun driver =>
                 DriverStatus_eqb (Driver.status driver) AVAILABLE
                 && negb (existsb (Z.eqb (Driver.id driver)) exclude))
              ds) in
  match available_drivers with
  | [] => None
  | _ :: _ =>
      fst (best_driver_loop cfg ds request available_drivers None infinity)
  end.

(** [_reject_request_internal]: the new store and the request as returned;
    [None] is the [KeyError] of [requests[request_id]]. *)
Definition _reject_request_internal (w : World) (request_id driver_id : Z)
  : option (World * RideRequest.t) :=
  match get_request request_id (requests w) with
  | None => None
  | Some request0 =>
      let bump := fun r => RideRequest.set_attempts (RideRequest.attempts r + 1)%Z r in
      let request := bump request0 in
      let w1 := mkWorld (drivers w) (update_request request_id bump (requests w)) in
      match find_best_driver (drivers w1) request [driver_id] with
      | Some best_driver =>
          let upd := fun r => RideRequest.set_assigned_driver_id (Some best_driver)
                                (RideRequest.set_status ASSIGNED r) in
          Some (mkWorld
                  (update_driver best_driver
                     (fun d => Driver.set_assigned_request_id (Some request_id)
                                 (Driver.set_status ON_TRIP d))
                     (drivers w1))
                  (update_request request_id upd (requests w1)),
                upd request)
      | None =>
          let upd := fun r => RideRequest.set_assigned_driver_id None
                                (RideRequest.set_status FAILED r) in
          Some (mkWorld (drivers w1) (update_request request_id upd (requests w1)),
                upd request)
      end
  end.

(** The endpoint [reject_request]: its checks, then the internal call. *)
Definition reject_request (w : World) (request_id driver_id : Z)
  : Response (World * RideRequest.t) :=
  match get_request request_id (requests w) with
  | None => HTTPException 404 "Request not found"
  | Some request =>
      if negb (RequestStatus_eqb (RideRequest.status request) WAITING)
      then HTTPException 400 "Request is not in waiting status"
      else
        match get_driver driver_id (drivers w) with
        | None => HTTPException 404 "Driver not found"
        | Some _ =>
            match _reject_request_internal w request_id driver_id with
            | Some out => Ok out
            | None => HTTPException 500 "Internal Server Error"
            end
        end
  end.
End Reject.

(** *** Concrete stores *)

(** Two available drivers, the second one far out on the x axis, and a
    waiting request whose pickup point is as far out on the other side.
    All coordinates are finite doubles ([0x1p1023] is 2^1023, about
    8.99e307); the distance from driver 2 to the pickup point, 2^1024, is
    not. *)
Definition far_driver_world : World :=
  mkWorld
    [ Driver.mk 1 0 0 AVAILABLE None;
      Driver.mk 2 0x1p1023 0 AVAILABLE None ]
    [ RideRequest.mk 1 1 (-0x1p1023) 0 0 0 WAITING 0 None false ].

(** Rejection rate 1, the other constants at their defaults. *)
Definition always_reject_config : Config := mkConfig 1 0.1 1 1.

(** Rejection rate 0, the other constants at their defaults. *)
Definition never_reject_config : Config := mkConfig 1 0.1 0 1.

End Binary64.

(** * Proofs *)

Lemma Qlt_bool_iff (a b : Q) : Qlt_bool a b = true <-> a < b.
Proof.
  unfold Qlt_bool. rewrite negb_true_iff.
  split; intro H.
  - apply Qnot_le_lt. intro Hle. apply Qle_bool_iff in Hle. congruence.
  - destruct (Qle_bool b a) eqn:E; [|reflexivity].
    apply Qle_bool_iff in E. exfalso. apply (Qlt_not_le _ _ H E).
Qed.

Lemma Qlt_bool_false_iff (a b : Q) : Qlt_bool a b = false <-> b <= a.
Proof.
  unfold Qlt_bool. rewrite negb_false_iff. apply Qle_bool_iff.
Qed.

Lemma move_axis_towards (cfg : Config) (c t : Q) :
  0 < MOVE_SPEED cfg ->
  (c <= t -> c <= move_axis cfg c t /\ move_axis cfg c t <= t) /\
  (t <= c -> t <= move_axis cfg c t /\ move_axis cfg c t <= c).
Proof.
  intro Hs. unfold move_axis.
  destruct (Qlt_bool c t) eqn:E1.
  - apply Qlt_bool_iff in E1.
    destruct (Q.min_spec (c + MOVE_SPEED cfg) t) as [[Hm Em]|[Hm Em]]; split; intros; lra.
  - apply Qlt_bool_false_iff in E1.
    destruct (Qlt_bool t c) eqn:E2.
    + apply Qlt_bool_iff in E2.
      destruct (Q.max_spec (c - MOVE_SPEED cfg) t) as [[Hm Em]|[Hm Em]]; split; intros; lra.
    + apply Qlt_bool_false_iff in E2. split; intros; lra.
Qed.

Lemma move_axis_closer (cfg : Config) (c t : Q) :
  0 < MOVE_SPEED cfg ->
  Qabs (move_axis cfg c t - t) <= Qabs (c - t).
Proof.
  intro Hs.
  destruct (move_axis_towards cfg c t Hs) as [Hle Hge].
  destruct (Qlt_le_dec c t) as [Hlt|Hct].
  - destruct (Hle (Qlt_le_weak _ _ Hlt)) as [H1 H2].
    rewrite (Qabs_neg (move_axis cfg c t - t)) by lra.
    rewrite (Qabs_neg (c - t)) by lra. lra.
  - destruct (Hge Hct) as [H1 H2].
    rewrite (Qabs_pos (move_axis cfg c t - t)) by lra.
    rewrite (Qabs_pos (c - t)) by lra. lra.
Qed.

(** C5. One movement step with a positive step size never overshoots: the
    rectilinear distance to the target does not grow, and each coordinate
    stays between its old value and the target's, whichever side it started
    on. *)
Theorem move_towards_target_no_overshoot
    (cfg : Config) (current_x current_y target_x target_y : Q) :
  0 < MOVE_SPEED cfg ->
  let new := move_towards_target cfg current_x current_y target_x target_y in
  calculate_manhattan_distance (fst new) (snd new) target_x target_y
    <= calculate_manhattan_distance current_x current_y target_x target_y /\
  (current_x <= target_x -> current_x <= fst new /\ fst new <= target_x) /\
  (target_x <= current_x -> target_x <= fst new /\ fst new <= current_x) /\
  (current_y <= target_y -> current_y <= snd new /\ snd new <= target_y) /\
  (target_y <= current_y -> target_y <= snd new /\ snd new <= current_y).
Proof.
  intros Hs new. subst new. unfold move_towards_target, calculate_manhattan_distance.
  cbn [fst snd].
  pose proof (move_axis_closer cfg current_x target_x Hs) as Hx.
  pose proof (move_axis_closer cfg current_y target_y Hs) as Hy.
  destruct (move_axis_towards cfg current_x target_x Hs) as [Hx1 Hx2].
  destruct (move_axis_towards cfg current_y target_y Hs) as [Hy1 Hy2].
  repeat split; try (intros; (apply Hx1 || apply Hx2 || apply Hy1 || apply Hy2); assumption).
  lra.
Qed.

Lemma move_towards_target_no_overshoot_witness :
  0 < MOVE_SPEED default_config /\
  fst (move_towards_target default_config 0 5 (5 # 2) (9 # 2)) <= 5 # 2.
Proof.
  assert (Hs : 0 < MOVE_SPEED default_config) by reflexivity.
  split; [exact Hs|].
  pose proof (move_towards_target_no_overshoot default_config 0 5 (5 # 2) (9 # 2) Hs) as H.
  cbv zeta in H.
  destruct H as [_ [H _]].
  apply H. vm_compute. discriminate.
Defined.

(** ** Scenario A *)

Lemma never_rejects (cfg : Config) (random : nat -> Q) (n : nat) :
  REJECTION_RATE cfg <= 0 -> (forall i, 0 <= random i) ->
  simulate_driver_rejection cfg random n = false.
Proof.
  intros Hr Hrand. unfold simulate_driver_rejection.
  apply Qlt_bool_false_iff. specialize (Hrand n). lra.
Qed.

Lemma scenario_A_dispatch (random : nat -> Q) :
  (forall i, 0 <= random i) ->
  _dispatch_ride_internal scenario_A_config random scenario_A_world 0 =
  mkDispatchState scenario_A_dispatched 1
    [DispatchResult.mk 1 (Some 1%Z) 0 "assigned"].
Proof.
  intro Hrand.
  unfold _dispatch_ride_internal.
  change (waiting_requests scenario_A_world) with [1%Z].
  change (all_available_drivers scenario_A_world) with [1%Z].
  cbn [fold_left]. unfold dispatch_request.
  cbn [world]. 
  change (get_request 1 (requests scenario_A_world))
    with (Some (new_request 1 1 2 2 8 8)).
  cbv zeta.
  change (fst (best_driver_loop scenario_A_config (drivers scenario_A_world)
                 (new_request 1 1 2 2 8 8) [1%Z] None None)) with (Some 1%Z).
  cbn [List.length offer_loop draws].
  rewrite never_rejects by (try assumption; vm_compute; discriminate).
  reflexivity.
Qed.

Ltac not_at_pickup :=
  let d := fresh "d" in
  let Hget := fresh "Hget" in
  let Hx := fresh "Hx" in
  intros [d [Hget [Hx _]]];
  vm_compute in Hget; injection Hget as <-;
  vm_compute in Hx; discriminate Hx.

(** C2, as the code behaves.  With rejection rate 0 and speed 1, whatever
    the random source draws, [Dispatch] assigns the driver with no rejection;
    both coordinates advance in one tick, so the driver reaches (2,2) after
    exactly 2 ticks and [reached_pickup] is emitted on the 2nd tick; the
    [completed] event is emitted 6 ticks after that. *)
Theorem scenario_A_two_then_six (random : nat -> Q) :
  (forall i, 0 <= random i) ->
  scenario_A_holds random 2 6.
Proof.
  intro Hrand. unfold scenario_A_holds.
  rewrite (scenario_A_dispatch random Hrand). cbn [results world].
  split; [reflexivity|].
  split.
  - intros k Hk.
    destruct k as [|[|k]]; [not_at_pickup | not_at_pickup | lia].
  - split.
    + eexists. split; [vm_compute; reflexivity|].
      split; reflexivity.
    + vm_compute. reflexivity.
Qed.

Lemma scenario_A_two_then_six_witness :
  (forall i : nat, 0 <= (fun _ => 1 # 2) i) /\ scenario_A_holds (fun _ => 1 # 2) 2 6.
Proof.
  assert (H : forall i : nat, 0 <= (fun _ : nat => 1 # 2) i).
  { intro i. vm_compute. discriminate. }
  split; [exact H|].
  exact (scenario_A_two_then_six (fun _ => 1 # 2) H).
Defined.

(** C2, as stated, fails: after the dispatch of scenario A the driver is
    already at (2,2) after 2 ticks, so it is not the case that 4 ticks are
    needed with [reached_pickup] on the 4th. *)
Lemma scenario_A_not_four_ticks : ~ scenario_A_holds (fun _ => 1 # 2) 4 6.
Proof.
  unfold scenario_A_holds.
  rewrite scenario_A_dispatch by (intro i; vm_compute; discriminate).
  cbn [results world].
  intros [_ [H _]].
  apply (H 2%nat); [lia|].
  eexists. split; [vm_compute; reflexivity|].
  split; reflexivity.
Qed.

(** ** Double booking *)

(** C1 fails on the code.  On the sample data, with the first offer
    accepted, the second request's first offer refused and its second one
    accepted, [Dispatch] hands driver 1 to request 1 and then again to
    request 2: the per-request copy of the snapshot still lists the driver
    that was put on trip a moment before. *)
Theorem dispatch_assigns_driver_twice :
  let st := _dispatch_ride_internal default_config second_offer_rejected sample_world 0 in
  results st =
    [ DispatchResult.mk 1 (Some 1%Z) 0 "assigned";
      DispatchResult.mk 2 (Some 1%Z) 1 "assigned" ] /\
  ~ NoDup (assigned_drivers (results st)).
Proof.
  cbv zeta.
  assert (E : results (_dispatch_ride_internal default_config second_offer_rejected
                         sample_world 0) =
              [ DispatchResult.mk 1 (Some 1%Z) 0 "assigned";
                DispatchResult.mk 2 (Some 1%Z) 1 "assigned" ]) by (vm_compute; reflexivity).
  rewrite E. split; [reflexivity|].
  cbn [assigned_drivers DispatchResult.assigned_driver_id].
  intro H. inversion H as [|? ? Hnot _]. apply Hnot. left. reflexivity.
Qed.

(** C3 fails on the code.  With one available driver, two waiting requests
    and every offer accepted, both requests end up assigned to driver 1,
    whose back-reference names request 2 only: request 1 is assigned to a
    driver that does not point back at it. *)
Theorem dispatch_breaks_back_reference :
  let st := _dispatch_ride_internal default_config (fun _ => 1 # 2)
              one_driver_two_requests 0 in
  back_reference_ok one_driver_two_requests = true /\
  get_request 1 (requests (world st)) =
    Some (RideRequest.mk 1 1 2 2 8 8 ASSIGNED 0 (Some 1%Z) false) /\
  get_driver 1 (drivers (world st)) = Some (Driver.mk 1 0 0 ON_TRIP (Some 2%Z)) /\
  back_reference_ok (world st) = false.
Proof.
  cbv zeta. repeat split; vm_compute; reflexivity.
Qed.

(** ** Lookups and in-place updates *)

Lemma DriverStatus_eqb_eq (a b : DriverStatus) : DriverStatus_eqb a b = true <-> a = b.
Proof. destruct a, b; simpl; split; intro H; congruence. Qed.

Lemma RequestStatus_eqb_eq (a b : RequestStatus) : RequestStatus_eqb a b = true <-> a = b.
Proof. destruct a, b; simpl; split; intro H; congruence. Qed.

Lemma get_driver_some (k : Z) (ds : list Driver.t) (d : Driver.t) :
  get_driver k ds = Some d -> In d ds /\ Driver.id d = k.
Proof.
  unfold get_driver. intro H. apply find_some in H. destruct H as [Hin Hk].
  split; [assumption | now apply Z.eqb_eq].
Qed.

Lemma get_request_some (k : Z) (rs : list RideRequest.t) (r : RideRequest.t) :
  get_request k rs = Some r -> In r rs /\ RideRequest.id r = k.
Proof.
  unfold get_request. intro H. apply find_some in H. destruct H as [Hin Hk].
  split; [assumption | now apply Z.eqb_eq].
Qed.

Lemma get_driver_of_member (ds : list Driver.t) (d : Driver.t) :
  NoDup (map Driver.id ds) -> In d ds -> get_driver (Driver.id d) ds = Some d.
Proof.
  unfold get_driver. induction ds as [|a ds IH]; simpl; intros Hnd Hin; [contradiction|].
  inversion Hnd as [|? ? Hnot Hnd']; subst.
  destruct Hin as [->|Hin].
  - now rewrite Z.eqb_refl.
  - destruct (Z.eqb_spec (Driver.id a) (Driver.id d)) as [E|_].
    + exfalso. apply Hnot. rewrite E. now apply in_map.
    + now apply IH.
Qed.

Lemma get_driver_update (k k' : Z) (f : Driver.t -> Driver.t) (ds : list Driver.t) :
  (forall d, Driver.id (f d) = Driver.id d) ->
  get_driver k (update_driver k' f ds) =
  if (k =? k')%Z then option_map f (get_driver k ds) else get_driver k ds.
Proof.
  intro Hid. unfold get_driver, update_driver.
  induction ds as [|a ds IH]; simpl.
  - now destruct (k =? k')%Z.
  - destruct (Z.eqb_spec (Driver.id a) k') as [E1|E1].
    + rewrite Hid. destruct (Z.eqb_spec (Driver.id a) k) as [E2|E2].
      * subst. now rewrite Z.eqb_refl.
      * exact IH.
    + destruct (Z.eqb_spec (Driver.id a) k) as [E2|E2].
      * subst. destruct (Z.eqb_spec (Driver.id a) k'); [contradiction|reflexivity].
      * exact IH.
Qed.

Lemma get_request_update (k k' : Z) (f : RideRequest.t -> RideRequest.t)
    (rs : list RideRequest.t) :
  (forall r, RideRequest.id (f r) = RideRequest.id r) ->
  get_request k (update_request k' f rs) =
  if (k =? k')%Z then option_map f (get_request k rs) else get_request k rs.
Proof.
  intro Hid. unfold get_request, update_request.
  induction rs as [|a rs IH]; simpl.
  - now destruct (k =? k')%Z.
  - destruct (Z.eqb_spec (RideRequest.id a) k') as [E1|E1].
    + rewrite Hid. destruct (Z.eqb_spec (RideRequest.id a) k) as [E2|E2].
      * subst. now rewrite Z.eqb_refl.
      * exact IH.
    + destruct (Z.eqb_spec (RideRequest.id a) k) as [E2|E2].
      * subst. destruct (Z.eqb_spec (RideRequest.id a) k'); [contradiction|reflexivity].
      * exact IH.
Qed.

Lemma filter_none {A : Type} (p : A -> bool) (l : list A) :
  (forall a, In a l -> p a = false) -> filter p l = [].
Proof.
  induction l as [|a l IH]; simpl; intro H; [reflexivity|].
  rewrite (H a) by now left. apply IH. intros b Hb. apply H. now right.
Qed.

(** ** Nothing to dispatch, nothing to move *)

(** C7. When no driver is available, or no request is waiting, [Dispatch]
    returns an empty result list and the store it was given, without a draw
    from the random source; the function is total, so no error is raised. *)
Theorem dispatch_nothing_to_do (cfg : Config) (random : nat -> Q) (w : World) (n : nat) :
  (forall d, In d (drivers w) -> Driver.status d <> AVAILABLE) \/
  (forall r, In r (requests w) -> RideRequest.status r <> WAITING) ->
  _dispatch_ride_internal cfg random w n = mkDispatchState w n [].
Proof.
  intros [Hd|Hr]; unfold _dispatch_ride_internal.
  - assert (E : all_available_drivers w = []).
    { unfold all_available_drivers. rewrite filter_none; [reflexivity|].
      intros d Hin. specialize (Hd d Hin).
      destruct (DriverStatus_eqb (Driver.status d) AVAILABLE) eqn:E; [|reflexivity].
      apply DriverStatus_eqb_eq in E. contradiction. }
    rewrite E. now destruct (waiting_requests w).
  - assert (E : waiting_requests w = []).
    { unfold waiting_requests. rewrite filter_none; [reflexivity|].
      intros r Hin. specialize (Hr r Hin).
      destruct (RequestStatus_eqb (RideRequest.status r) WAITING) eqn:E; [|reflexivity].
      apply RequestStatus_eqb_eq in E. contradiction. }
    now rewrite E.
Qed.

(** Scenario C on the sample data with both available drivers offline. *)
Lemma dispatch_nothing_to_do_witness :
  let w := mkWorld [ Driver.mk 1 0 0 OFFLINE None; Driver.mk 2 5 5 ON_TRIP (Some 7%Z) ]
             (riders sample_world) (requests sample_world) 0 in
  _dispatch_ride_internal default_config (fun _ => 0) w 0 = mkDispatchState w 0 [].
Proof.
  cbv zeta. apply dispatch_nothing_to_do.
  left. simpl. intros d [<-|[<-|[]]]; simpl; discriminate.
Defined.

Lemma tick_driver_idle (cfg : Config) (w : World) (evs : list TickEvent.t) (k : Z) :
  (forall d, In d (drivers w) -> Driver.status d <> ON_TRIP) ->
  tick_driver cfg (w, evs) k = (w, evs).
Proof.
  intro H. unfold tick_driver.
  destruct (get_driver k (drivers w)) as [d|] eqn:E; [|reflexivity].
  apply get_driver_some in E. destruct E as [Hin _].
  specialize (H d Hin).
  destruct (Driver.status d); try reflexivity. contradiction.
Qed.

(** C8. When no driver is on trip, [Tick] adds one to the time counter,
    returns no event, and leaves every driver, rider and request as it
    was. *)
Theorem tick_without_trips (cfg : Config) (w : World) :
  (forall d, In d (drivers w) -> Driver.status d <> ON_TRIP) ->
  _tick_internal cfg w =
  (mkWorld (drivers w) (riders w) (requests w) (current_time w + 1)%Z, []).
Proof.
  intro H. unfold _tick_internal.
  generalize (map Driver.id (drivers w)) as ks.
  induction ks as [|k ks IH]; [reflexivity|].
  cbn [fold_left]. rewrite tick_driver_idle by exact H. exact IH.
Qed.

Lemma tick_without_trips_witness :
  _tick_internal default_config sample_world =
  (mkWorld (drivers sample_world) (riders sample_world) (requests sample_world) 1, []).
Proof.
  apply (tick_without_trips default_config sample_world).
  simpl. intros d [<-|[<-|[<-|[]]]]; simpl; discriminate.
Defined.

(** ** Stale back-references *)

Lemma fold_left_invariant {A B : Type} (f : A -> B -> A) (P : A -> Prop)
    (l : list B) (a : A) :
  P a -> (forall a b, P a -> P (f a b)) -> P (fold_left f l a).
Proof.
  intros Ha Hstep. revert a Ha.
  induction l as [|b l IH]; intros a Ha; simpl; [assumption|].
  apply IH. now apply Hstep.
Qed.

Lemma release_id (d : Driver.t) :
  Driver.id (Driver.set_assigned_request_id None (Driver.set_status AVAILABLE d))
  = Driver.id d.
Proof. reflexivity. Qed.

Lemma get_request_update_none (k k' : Z) (f : RideRequest.t -> RideRequest.t)
    (rs : list RideRequest.t) :
  (forall r, RideRequest.id (f r) = RideRequest.id r) ->
  get_request k rs = None -> get_request k (update_request k' f rs) = None.
Proof.
  intros Hid H. rewrite get_request_update by exact Hid. rewrite H.
  now destruct (k =? k')%Z.
Qed.

Lemma get_driver_update_other (k k' : Z) (f : Driver.t -> Driver.t) (ds : list Driver.t) :
  (forall d, Driver.id (f d) = Driver.id d) -> k <> k' ->
  get_driver k (update_driver k' f ds) = get_driver k ds.
Proof.
  intros Hid Hne. rewrite get_driver_update by exact Hid.
  destruct (Z.eqb_spec k k'); [contradiction|reflexivity].
Qed.

(** What one loop iteration of [Tick] can touch: only the driver stored
    under [k]; no request appears or disappears; the new events, if any,
    carry that driver's id. *)
Lemma tick_driver_frame (cfg : Config) (w w' : World) (evs evs' : list TickEvent.t)
    (k : Z) :
  tick_driver cfg (w, evs) k = (w', evs') ->
  (forall k', k' <> k -> get_driver k' (drivers w') = get_driver k' (drivers w)) /\
  (forall r, get_request r (requests w) = None -> get_request r (requests w') = None) /\
  (exists new, evs' = evs ++ new /\ forall e, In e new -> TickEvent.driver_id e = k).
Proof.
  unfold tick_driver.
  assert (Hsame : (w, evs) = (w', evs') ->
    (forall k', k' <> k -> get_driver k' (drivers w') = get_driver k' (drivers w)) /\
    (forall r, get_request r (requests w) = None -> get_request r (requests w') = None) /\
    (exists new, evs' = evs ++ new /\ forall e, In e new -> TickEvent.driver_id e = k)).
  { intro E. injection E as <- <-. repeat split; auto.
    exists []. rewrite app_nil_r. split; [reflexivity|]. intros e []. }
  destruct (get_driver k (drivers w)) as [driver|] eqn:Ed; [|exact Hsame].
  apply get_driver_some in Ed. destruct Ed as [_ Ek].
  destruct (DriverStatus_eqb (Driver.status driver) ON_TRIP
            && truthy (Driver.assigned_request_id driver)); [|exact Hsame].
  destruct (Driver.assigned_request_id driver) as [rid|]; [|exact Hsame].
  destruct (get_request rid (requests w)) as [request|]; [|exact Hsame].
  destruct (negb (RideRequest.picked_up request)).
  - destruct (Qlt_bool 0 _).
    + destruct (move_towards_target _ _ _ _ _) as [new_x new_y].
      destruct (Qeq_bool _ 0); intro E; injection E as <- <-; cbn [drivers requests with_drivers with_requests].
      * repeat split.
        -- intros k' Hk'. now apply get_driver_update_other.
        -- intros r Hr. now apply get_request_update_none.
        -- eexists. split; [reflexivity|]. intros e [<-|[]]. exact Ek.
      * repeat split.
        -- intros k' Hk'. now apply get_driver_update_other.
        -- auto.
        -- exists []. rewrite app_nil_r. split; [reflexivity|]. intros e [].
    + destruct (Qeq_bool _ 0); [|exact Hsame].
      intro E; injection E as <- <-; cbn [drivers requests with_drivers with_requests].
      repeat split.
      * intros r Hr. now apply get_request_update_none.
      * eexists. split; [reflexivity|]. intros e [<-|[]]. exact Ek.
  - destruct (Qlt_bool 0 _); [|exact Hsame].
    destruct (move_towards_target _ _ _ _ _) as [new_x new_y].
    destruct (Qeq_bool _ 0); intro E; injection E as <- <-; cbn [drivers requests with_drivers with_requests].
    + repeat split.
      * intros k' Hk'. rewrite get_driver_update_other by (auto using release_id).
        now apply get_driver_update_other.
      * intros r Hr. now apply get_request_update_none.
      * eexists. split; [reflexivity|]. intros e [<-|[]]. exact Ek.
    + repeat split.
      * intros k' Hk'. now apply get_driver_update_other.
      * auto.
      * exists []. rewrite app_nil_r. split; [reflexivity|]. intros e [].
Qed.

(** The iteration for a driver whose request cannot be found changes
    nothing. *)
Lemma tick_driver_stale (cfg : Config) (w : World) (evs : list TickEvent.t)
    (k : Z) (d : Driver.t) :
  get_driver k (drivers w) = Some d ->
  (forall rid, Driver.assigned_request_id d = Some rid ->
               get_request rid (requests w) = None) ->
  tick_driver cfg (w, evs) k = (w, evs).
Proof.
  intros Hd Hstale. unfold tick_driver. rewrite Hd.
  destruct (DriverStatus_eqb (Driver.status d) ON_TRIP
            && truthy (Driver.assigned_request_id d)); [|reflexivity].
  destruct (Driver.assigned_request_id d) as [rid|]; [|reflexivity].
  now rewrite (Hstale rid eq_refl).
Qed.

(** C9. A driver on trip whose [assigned_request_id] resolves to no request
    is skipped by [Tick]: after the call the store holds the same driver
    under the same key, with position, status and [assigned_request_id]
    as before, and no returned event carries its id. *)
Theorem tick_skips_stale_reference (cfg : Config) (w : World) (k : Z) (d : Driver.t) :
  get_driver k (drivers w) = Some d ->
  Driver.status d = ON_TRIP ->
  (forall rid, Driver.assigned_request_id d = Some rid ->
               get_request rid (requests w) = None) ->
  get_driver k (drivers (fst (_tick_internal cfg w))) = Some d /\
  forall e, In e (snd (_tick_internal cfg w)) -> TickEvent.driver_id e <> k.
Proof.
  intros Hd _ Hstale. unfold _tick_internal.
  set (P := fun st : World * list TickEvent.t =>
              get_driver k (drivers (fst st)) = Some d /\
              (forall rid, Driver.assigned_request_id d = Some rid ->
                           get_request rid (requests (fst st)) = None) /\
              (forall e, In e (snd st) -> TickEvent.driver_id e <> k)).
  assert (H : P (fold_left (tick_driver cfg) (map Driver.id (drivers w))
                   (mkWorld (drivers w) (riders w) (requests w) (current_time w + 1)%Z, []))).
  { apply fold_left_invariant.
    - unfold P; cbn [fst snd drivers requests]. repeat split; auto.
    - intros [w1 evs1] k1 (H1 & H2 & H3). cbn [fst snd] in H1, H2, H3.
      destruct (Z.eq_dec k1 k) as [->|Hne].
      + rewrite (tick_driver_stale cfg w1 evs1 k d H1 H2).
        unfold P; cbn [fst snd]. auto.
      + destruct (tick_driver cfg (w1, evs1) k1) as [w2 evs2] eqn:E.
        apply tick_driver_frame in E. destruct E as (F1 & F2 & new & -> & F3).
        unfold P; cbn [fst snd]. repeat split.
        * rewrite F1 by congruence. exact H1.
        * intros rid Hrid. apply F2. now apply H2.
        * intros e He. apply in_app_or in He. destruct He as [He|He].
          -- now apply H3.
          -- rewrite (F3 e He). exact Hne. }
  destruct H as (H1 & _ & H3). split; assumption.
Qed.

Lemma tick_skips_stale_reference_witness :
  let d := Driver.mk 2 5 5 ON_TRIP (Some 9%Z) in
  let w := mkWorld [ Driver.mk 1 0 0 ON_TRIP (Some 1%Z); d ]
             (riders sample_world)
             [ RideRequest.mk 1 1 2 2 8 8 ASSIGNED 0 (Some 1%Z) false ] 0 in
  get_driver 2 (drivers (fst (_tick_internal default_config w))) = Some d /\
  forall e, In e (snd (_tick_internal default_config w)) -> TickEvent.driver_id e <> 2%Z.
Proof.
  cbv zeta. apply tick_skips_stale_reference.
  - reflexivity.
  - reflexivity.
  - intros rid H. simpl in H. injection H as <-. reflexivity.
Defined.

(** ** Distances that are zero *)

Lemma Qabs_zero_iff (q : Q) : Qabs q == 0 <-> q == 0.
Proof.
  split; intro H.
  - destruct (Qlt_le_dec q 0) as [Hneg|Hpos].
    + rewrite Qabs_neg in H by lra. lra.
    + rewrite Qabs_pos in H by lra. lra.
  - rewrite H. reflexivity.
Qed.

Lemma Qsum_zero (a b : Q) : 0 <= a -> 0 <= b -> (a + b == 0 <-> a == 0 /\ b == 0).
Proof. intros Ha Hb. split; [intro H; split | intros [H1 H2]]; lra. Qed.

Lemma manhattan_zero_iff (x1 y1 x2 y2 : Q) :
  calculate_manhattan_distance x1 y1 x2 y2 == 0 <-> x1 == x2 /\ y1 == y2.
Proof.
  unfold calculate_manhattan_distance.
  rewrite (Qsum_zero _ _ (Qabs_nonneg (x1 - x2)) (Qabs_nonneg (y1 - y2))).
  rewrite !Qabs_zero_iff. split; intros [H1 H2]; split; lra.
Qed.

Lemma manhattan_positive_iff (x1 y1 x2 y2 : Q) :
  Qlt_bool 0 (calculate_manhattan_distance x1 y1 x2 y2) = true <->
  ~ (x1 == x2 /\ y1 == y2).
Proof.
  rewrite Qlt_bool_iff, <- manhattan_zero_iff.
  assert (Hnn : 0 <= calculate_manhattan_distance x1 y1 x2 y2).
  { unfold calculate_manhattan_distance.
    pose proof (Qabs_nonneg (x1 - x2)) as Hx.
    pose proof (Qabs_nonneg (y1 - y2)) as Hy.
    revert Hx Hy. generalize (Qabs (x1 - x2)) (Qabs (y1 - y2)). intros; lra. }
  revert Hnn. generalize (calculate_manhattan_distance x1 y1 x2 y2).
  intros q Hq. split; intro H; lra.
Qed.

(** ** The scoring loop *)

(** The scoring loop either keeps the values it started from, when no
    listed driver scores strictly below the starting score, or ends on a
    listed driver whose score is strictly below the starting score and
    minimal over the list. *)
Lemma best_driver_loop_spec (cfg : Config) (ds : list Driver.t) (request : RideRequest.t)
    (available : list Z) :
  forall (b0 : option Z) (s0 : option Q),
  (best_driver_loop cfg ds request available b0 s0 = (b0, s0) /\
   forall k d, In k available -> get_driver k ds = Some d ->
     exists y, s0 = Some y /\ y <= calculate_driver_score cfg d request)
  \/
  (exists k d,
     best_driver_loop cfg ds request available b0 s0
       = (Some k, Some (calculate_driver_score cfg d request)) /\
     In k available /\ get_driver k ds = Some d /\
     (forall y, s0 = Some y -> calculate_driver_score cfg d request < y) /\
     forall k' d', In k' available -> get_driver k' ds = Some d' ->
       calculate_driver_score cfg d request <= calculate_driver_score cfg d' request).
Proof.
  induction available as [|k rest IH]; intros b0 s0.
  - left. split; [reflexivity|]. intros k d [].
  - cbn [best_driver_loop].
    destruct (get_driver k ds) as [driver|] eqn:Ek.
    + destruct (lt_best (calculate_driver_score cfg driver request) s0) eqn:Elt.
      * right.
        assert (Hlt : forall y, s0 = Some y ->
                        calculate_driver_score cfg driver request < y).
        { intros y ->. now apply Qlt_bool_iff. }
        destruct (IH (Some k) (Some (calculate_driver_score cfg driver request)))
          as [[E Hmin]|(k2 & d2 & E & Hin & Hget & Hbelow & Hmin)].
        -- exists k, driver. split; [exact E|]. split; [now left|].
           split; [exact Ek|]. split; [exact Hlt|].
           intros k' d' [<-|Hin] Hget.
           ++ rewrite Ek in Hget. injection Hget as <-. apply Qle_refl.
           ++ destruct (Hmin k' d' Hin Hget) as (y & Ey & Hy).
              injection Ey as <-. exact Hy.
        -- exists k2, d2. split; [exact E|]. split; [now right|].
           split; [exact Hget|].
           pose proof (Hbelow _ eq_refl) as Hb.
           split.
           ++ intros y Hy. specialize (Hlt y Hy). lra.
           ++ intros k' d' [<-|Hin'] Hget'.
              ** rewrite Ek in Hget'. injection Hget' as <-. lra.
              ** now apply (Hmin k' d').
      * destruct s0 as [y0|]; [|discriminate Elt].
        cbn [lt_best] in Elt. apply Qlt_bool_false_iff in Elt.
        destruct (IH b0 (Some y0))
          as [[E Hmin]|(k2 & d2 & E & Hin & Hget & Hbelow & Hmin)].
        -- left. split; [exact E|].
           intros k' d' [<-|Hin] Hget.
           ++ rewrite Ek in Hget. injection Hget as <-. now exists y0.
           ++ now apply (Hmin k' d').
        -- right. exists k2, d2. split; [exact E|]. split; [now right|].
           split; [exact Hget|]. split; [exact Hbelow|].
           pose proof (Hbelow _ eq_refl) as Hb.
           intros k' d' [<-|Hin'] Hget'.
           ++ rewrite Ek in Hget'. injection Hget' as <-. lra.
           ++ now apply (Hmin k' d').
    + destruct (IH b0 s0) as [[E Hmin]|(k2 & d2 & E & Hin & Hget & Hbelow & Hmin)].
      * left. split; [exact E|].
        intros k' d' [<-|Hin] Hget; [congruence|]. now apply (Hmin k' d').
      * right. exists k2, d2. split; [exact E|]. split; [now right|].
        split; [exact Hget|]. split; [exact Hbelow|].
        intros k' d' [<-|Hin'] Hget'; [congruence|]. now apply (Hmin k' d').
Qed.

(** From an infinite starting score, over a list whose first reference
    resolves, the loop ends on a listed driver of minimal score. *)
Lemma best_driver_loop_from_inf (cfg : Config) (ds : list Driver.t)
    (request : RideRequest.t) (k0 : Z) (rest : list Z) (b0 : option Z) :
  get_driver k0 ds <> None ->
  exists k d,
    fst (best_driver_loop cfg ds request (k0 :: rest) b0 None) = Some k /\
    In k (k0 :: rest) /\ get_driver k ds = Some d /\
    forall k' d', In k' (k0 :: rest) -> get_driver k' ds = Some d' ->
      calculate_driver_score cfg d request <= calculate_driver_score cfg d' request.
Proof.
  intro Hres.
  destruct (best_driver_loop_spec cfg ds request (k0 :: rest) b0 None)
    as [[_ Hmin]|(k & d & E & Hin & Hget & _ & Hmin)].
  - destruct (get_driver k0 ds) as [d0|] eqn:E0; [|contradiction].
    destruct (Hmin k0 d0 (or_introl eq_refl) E0) as (y & Hy & _). discriminate Hy.
  - exists k, d. rewrite E. auto.
Qed.

(** ** Manual reject *)

Lemma find_best_driver_spec (cfg : Config) (ds : list Driver.t) (request : RideRequest.t)
    (driver_id : Z) :
  NoDup (map Driver.id ds) ->
  match find_best_driver cfg ds request [driver_id] with
  | Some k =>
      exists best, Driver.id best = k /\ In best ds /\
        Driver.status best = AVAILABLE /\ k <> driver_id /\
        forall d, In d ds -> Driver.status d = AVAILABLE -> Driver.id d <> driver_id ->
          calculate_driver_score cfg best request <= calculate_driver_score cfg d request
  | None =>
      forall d, In d ds -> Driver.status d = AVAILABLE -> Driver.id d = driver_id
  end.
Proof.
  intro Hnd. unfold find_best_driver.
  set (p := fun driver : Driver.t =>
              DriverStatus_eqb (Driver.status driver) AVAILABLE
              && negb (existsb (Z.eqb (Driver.id driver)) [driver_id])).
  assert (Hp : forall d, p d = true <->
                 Driver.status d = AVAILABLE /\ Driver.id d <> driver_id).
  { intro d. unfold p. cbn [existsb]. rewrite orb_false_r, andb_true_iff,
      negb_true_iff, DriverStatus_eqb_eq, Z.eqb_neq. reflexivity. }
  destruct (filter p ds) as [|d0 rest] eqn:Ef.
  - cbn [map]. intros d Hin Hst.
    destruct (Z.eq_dec (Driver.id d) driver_id) as [|Hne]; [assumption|].
    assert (Hd : In d (filter p ds)) by (apply filter_In; split; [assumption | now apply Hp]).
    rewrite Ef in Hd. contradiction.
  - cbn [map].
    assert (Hmem : forall d, In d (d0 :: rest) <-> In d ds /\ p d = true).
    { intro d. rewrite <- Ef. apply filter_In. }
    assert (H0 : In d0 ds) by (apply Hmem; now left).
    destruct (best_driver_loop_from_inf cfg ds request (Driver.id d0)
                (map Driver.id rest) None)
      as (k & best & E & Hin & Hget & Hmin).
    { rewrite (get_driver_of_member ds d0 Hnd H0). discriminate. }
    rewrite E.
    change (Driver.id d0 :: map Driver.id rest) with (map Driver.id (d0 :: rest)) in Hin, Hmin.
    apply in_map_iff in Hin. destruct Hin as (d1 & Hk & Hd1).
    apply Hmem in Hd1. destruct Hd1 as [Hd1 Hp1].
    rewrite <- Hk, (get_driver_of_member ds d1 Hnd Hd1) in Hget.
    injection Hget as <-.
    apply Hp in Hp1. destruct Hp1 as [Hst Hne].
    exists d1. repeat split; try assumption; try congruence.
    intros d Hd Hsd Hnd'.
    apply (Hmin (Driver.id d) d).
    + apply in_map. apply Hmem. split; [assumption|]. now apply Hp.
    + now apply get_driver_of_member.
Qed.

(** ** The retry loop *)

Lemma remove_first_length (k : Z) (l : list Z) :
  In k l -> S (List.length (remove_first k l)) = List.length l.
Proof.
  induction l as [|h t IH]; simpl; [contradiction|].
  intros [->|Hin].
  - now rewrite Z.eqb_refl.
  - destruct (h =? k)%Z; [reflexivity|]. simpl. now rewrite IH.
Qed.

Lemma remove_first_incl (k x : Z) (l : list Z) :
  In x (remove_first k l) -> In x l.
Proof.
  induction l as [|h t IH]; simpl; [auto|].
  destruct (h =? k)%Z; simpl; intuition.
Qed.


Lemma get_driver_member (ds : list Driver.t) (d : Driver.t) :
  In d ds -> get_driver (Driver.id d) ds <> None.
Proof.
  intros Hin E. unfold get_driver in E.
  pose proof (find_none _ _ E d Hin) as H. cbn in H.
  now rewrite Z.eqb_refl in H.
Qed.

Lemma get_request_member (rs : list RideRequest.t) (r : RideRequest.t) :
  In r rs -> get_request (RideRequest.id r) rs <> None.
Proof.
  intros Hin E. unfold get_request in E.
  pose proof (find_none _ _ E r Hin) as H. cbn in H.
  now rewrite Z.eqb_refl in H.
Qed.


(** ** References that keep resolving *)

Lemma Forall2_map_r {A B : Type} (R : A -> B -> Prop) (h : B -> B) (l : list A)
    (l' : list B) :
  (forall a b, R a b -> R a (h b)) -> Forall2 R l l' -> Forall2 R l (map h l').
Proof.
  intros Hh H. induction H; simpl; constructor; auto.
Qed.

Lemma Forall2_diag {A : Type} (R : A -> A -> Prop) (l : list A) :
  (forall a, In a l -> R a a) -> Forall2 R l l.
Proof.
  induction l as [|a l IH]; intro H; constructor.
  - apply H. now left.
  - apply IH. intros b Hb. apply H. now right.
Qed.

Lemma get_driver_update_resolves (k k' : Z) (f : Driver.t -> Driver.t)
    (ds : list Driver.t) :
  (forall d, Driver.id (f d) = Driver.id d) ->
  get_driver k ds <> None -> get_driver k (update_driver k' f ds) <> None.
Proof.
  intros Hid H. rewrite get_driver_update by exact Hid.
  destruct (k =? k')%Z; [|exact H].
  destruct (get_driver k ds); [discriminate|contradiction].
Qed.

Lemma get_request_update_resolves (k k' : Z) (f : RideRequest.t -> RideRequest.t)
    (rs : list RideRequest.t) :
  (forall r, RideRequest.id (f r) = RideRequest.id r) ->
  get_request k rs <> None -> get_request k (update_request k' f rs) <> None.
Proof.
  intros Hid H. rewrite get_request_update by exact Hid.
  destruct (k =? k')%Z; [|exact H].
  destruct (get_request k rs); [discriminate|contradiction].
Qed.

Lemma snapshot_resolves (w : World) (k : Z) :
  In k (all_available_drivers w) -> get_driver k (drivers w) <> None.
Proof.
  unfold all_available_drivers. intro H.
  apply in_map_iff in H. destruct H as (d & <- & Hd).
  apply filter_In in Hd. destruct Hd as [Hd _]. now apply get_driver_member.
Qed.

Lemma waiting_resolves (w : World) (k : Z) :
  In k (waiting_requests w) -> get_request k (requests w) <> None.
Proof.
  unfold waiting_requests. intro H.
  apply in_map_iff in H. destruct H as (r & <- & Hr).
  apply filter_In in Hr. destruct Hr as [Hr _]. now apply get_request_member.
Qed.

Lemma waiting_member (w : World) (r : RideRequest.t) :
  In r (requests w) -> RideRequest.status r = WAITING ->
  In (RideRequest.id r) (waiting_requests w).
Proof.
  intros Hin Hst. unfold waiting_requests. apply in_map.
  apply filter_In. split; [assumption|]. now apply RequestStatus_eqb_eq.
Qed.

(** * Further properties of the code *)

(** ** The tick loop, case by case *)

Lemma manhattan_zero_bool (x1 y1 x2 y2 : Q) :
  Qeq_bool (calculate_manhattan_distance x1 y1 x2 y2) 0 = true <->
  x1 == x2 /\ y1 == y2.
Proof. rewrite Qeq_bool_iff. apply manhattan_zero_iff. Qed.

Lemma manhattan_zero_bool_false (x1 y1 x2 y2 : Q) :
  Qeq_bool (calculate_manhattan_distance x1 y1 x2 y2) 0 = false <->
  ~ (x1 == x2 /\ y1 == y2).
Proof.
  rewrite <- manhattan_zero_bool.
  destruct (Qeq_bool _ 0); split; intro H; congruence.
Qed.

Lemma manhattan_positive_false (x1 y1 x2 y2 : Q) :
  Qlt_bool 0 (calculate_manhattan_distance x1 y1 x2 y2) = false <->
  x1 == x2 /\ y1 == y2.
Proof.
  rewrite <- manhattan_zero_iff, Qlt_bool_false_iff.
  assert (Hnn : 0 <= calculate_manhattan_distance x1 y1 x2 y2).
  { unfold calculate_manhattan_distance.
    pose proof (Qabs_nonneg (x1 - x2)) as Hx.
    pose proof (Qabs_nonneg (y1 - y2)) as Hy.
    revert Hx Hy. generalize (Qabs (x1 - x2)) (Qabs (y1 - y2)). intros; lra. }
  revert Hnn. generalize (calculate_manhattan_distance x1 y1 x2 y2).
  intros q Hq. split; intro H; lra.
Qed.

(** Every way one iteration of [Tick]'s loop can go.  Either it changes
    nothing, or the driver under [k] is on trip for a request that is found,
    and the iteration is one of: pickup noted on the spot; a step that
    reaches the pickup point; a step that completes the trip; a step that
    reaches nothing. *)
Lemma tick_driver_cases (cfg : Config) (w : World) (evs : list TickEvent.t) (k : Z) :
  tick_driver cfg (w, evs) k = (w, evs) \/
  exists driver rid request,
    get_driver k (drivers w) = Some driver /\
    Driver.status driver = ON_TRIP /\
    Driver.assigned_request_id driver = Some rid /\
    rid <> 0%Z /\
    get_request rid (requests w) = Some request /\
    ((RideRequest.picked_up request = false /\
      Driver.x driver == RideRequest.pickup_x request /\
      Driver.y driver == RideRequest.pickup_y request /\
      tick_driver cfg (w, evs) k =
        (mark_picked_up rid w, evs ++ [TickEvent.mk k rid "reached_pickup"]))
     \/
     (exists new_x new_y,
        RideRequest.picked_up request = false /\
        ~ (Driver.x driver == RideRequest.pickup_x request /\
           Driver.y driver == RideRequest.pickup_y request) /\
        move_towards_target cfg (Driver.x driver) (Driver.y driver)
          (RideRequest.pickup_x request) (RideRequest.pickup_y request) = (new_x, new_y) /\
        ((new_x == RideRequest.pickup_x request /\ new_y == RideRequest.pickup_y request /\
          tick_driver cfg (w, evs) k =
            (mark_picked_up rid (move_driver k new_x new_y w),
             evs ++ [TickEvent.mk k rid "reached_pickup"]))
         \/
         (~ (new_x == RideRequest.pickup_x request /\
             new_y == RideRequest.pickup_y request) /\
          tick_driver cfg (w, evs) k = (move_driver k new_x new_y w, evs))))
     \/
     (exists new_x new_y,
        RideRequest.picked_up request = true /\
        ~ (Driver.x driver == RideRequest.dropoff_x request /\
           Driver.y driver == RideRequest.dropoff_y request) /\
        move_towards_target cfg (Driver.x driver) (Driver.y driver)
          (RideRequest.dropoff_x request) (RideRequest.dropoff_y request) = (new_x, new_y) /\
        ((new_x == RideRequest.dropoff_x request /\ new_y == RideRequest.dropoff_y request /\
          tick_driver cfg (w, evs) k =
            (complete_trip k rid (move_driver k new_x new_y w),
             evs ++ [TickEvent.mk k rid "completed"]))
         \/
         (~ (new_x == RideRequest.dropoff_x request /\
             new_y == RideRequest.dropoff_y request) /\
          tick_driver cfg (w, evs) k = (move_driver k new_x new_y w, evs))))).
Proof.
  unfold tick_driver.
  destruct (get_driver k (drivers w)) as [driver|] eqn:Ed; [|now left].
  destruct (get_driver_some _ _ _ Ed) as [_ Ek].
  destruct (Driver.status driver) eqn:Est; cbn [DriverStatus_eqb andb]; try now left.
  destruct (Driver.assigned_request_id driver) as [rid|] eqn:Eas; [|now left].
  cbn [truthy]. destruct (Z.eqb_spec rid 0) as [|Hrid]; cbn [negb]; [now left|].
  destruct (get_request rid (requests w)) as [request|] eqn:Er; [|now left].
  destruct (get_request_some _ _ _ Er) as [_ Erid].
  rewrite Ek, Erid.
  destruct (RideRequest.picked_up request) eqn:Epk; cbn [negb].
  - destruct (Qlt_bool 0 _) eqn:Efar; [|now left].
    apply manhattan_positive_iff in Efar.
    destruct (move_towards_target cfg _ _ (RideRequest.dropoff_x request) _)
      as [new_x new_y] eqn:Em.
    right. exists driver, rid, request.
    repeat (split; [first [reflexivity | assumption]|]).
    right. right. exists new_x, new_y.
    repeat (split; [first [reflexivity | assumption]|]).
    destruct (Qeq_bool _ 0) eqn:Eland.
    + apply manhattan_zero_bool in Eland. left. destruct Eland. auto.
    + apply manhattan_zero_bool_false in Eland. right. auto.
  - destruct (Qlt_bool 0 _) eqn:Efar.
    + apply manhattan_positive_iff in Efar.
      destruct (move_towards_target cfg _ _ (RideRequest.pickup_x request) _)
        as [new_x new_y] eqn:Em.
      right. exists driver, rid, request.
      repeat (split; [first [reflexivity | assumption]|]).
      right. left. exists new_x, new_y.
      repeat (split; [first [reflexivity | assumption]|]).
      destruct (Qeq_bool _ 0) eqn:Eland.
      * apply manhattan_zero_bool in Eland. left. destruct Eland. auto.
      * apply manhattan_zero_bool_false in Eland. right. auto.
    + pose proof Efar as Hat. apply manhattan_positive_false in Hat.
      destruct Hat as [Hx Hy].
      assert (Ez : Qeq_bool
                     (calculate_manhattan_distance (Driver.x driver) (Driver.y driver)
                        (RideRequest.pickup_x request) (RideRequest.pickup_y request)) 0
                   = true) by (apply manhattan_zero_bool; auto).
      rewrite Ez.
      right. exists driver, rid, request.
      repeat (split; [first [reflexivity | assumption]|]).
      left. auto.
Qed.

(** ** What a tick leaves alone *)

Lemma Forall2_same {A : Type} (R : A -> A -> Prop) (l : list A) :
  (forall a, R a a) -> Forall2 R l l.
Proof. intro H. induction l; constructor; auto. Qed.

(** X4.  [Tick] adds one to the time counter and neither adds, removes nor
    reorders anything: the riders are untouched, every driver keeps its key,
    and every request keeps all its fields except [status] and
    [picked_up]. *)
Theorem tick_frame (cfg : Config) (w : World) :
  let w' := fst (_tick_internal cfg w) in
  current_time w' = (current_time w + 1)%Z /\
  riders w' = riders w /\
  Forall2 (fun d d' => Driver.id d' = Driver.id d) (drivers w) (drivers w') /\
  Forall2 (fun r r' =>
             RideRequest.set_picked_up (RideRequest.picked_up r)
               (RideRequest.set_status (RideRequest.status r) r') = r)
          (requests w) (requests w').
Proof.
  cbv zeta. unfold _tick_internal.
  set (Rd := fun d d' : Driver.t => Driver.id d' = Driver.id d).
  set (Rr := fun r r' : RideRequest.t =>
               RideRequest.set_picked_up (RideRequest.picked_up r)
                 (RideRequest.set_status (RideRequest.status r) r') = r).
  set (P := fun st : World * list TickEvent.t =>
              current_time (fst st) = (current_time w + 1)%Z /\
              riders (fst st) = riders w /\
              Forall2 Rd (drivers w) (drivers (fst st)) /\
              Forall2 Rr (requests w) (requests (fst st))).
  apply (fold_left_invariant (tick_driver cfg) P).
  - unfold P. cbn [fst current_time riders drivers requests].
    repeat split; apply Forall2_same; intros []; reflexivity.
  - intros [w1 evs1] k (H1 & H2 & H3 & H4). cbn [fst] in H1, H2, H3, H4.
    assert (Hmove : forall nx ny, P (move_driver k nx ny w1, evs1)).
    { intros nx ny. unfold P, move_driver. cbn [fst current_time riders drivers requests
        with_drivers]. repeat split; try assumption.
      apply Forall2_map_r; [|exact H3].
      intros a b Hab. unfold Rd in *. destruct (Driver.id b =? k)%Z; [|assumption].
      exact Hab. }
    assert (Hpick : forall rid w2 evs2, P (w2, evs2) -> P (mark_picked_up rid w2, evs2)).
    { intros rid w2 evs2 (G1 & G2 & G3 & G4). cbn [fst] in G1, G2, G3, G4.
      unfold P, mark_picked_up. cbn [fst current_time riders drivers requests
        with_requests]. repeat split; try assumption.
      apply Forall2_map_r; [|exact G4].
      intros a b Hab. unfold Rr in *. destruct (RideRequest.id b =? rid)%Z; [|assumption].
      rewrite <- Hab at 3. reflexivity. }
    assert (Hdone : forall rid w2 evs2, P (w2, evs2) -> P (complete_trip k rid w2, evs2)).
    { intros rid w2 evs2 (G1 & G2 & G3 & G4). cbn [fst] in G1, G2, G3, G4.
      unfold P, complete_trip. cbn [fst current_time riders drivers requests
        with_drivers with_requests]. repeat split; try assumption.
      - apply Forall2_map_r; [|exact G3].
        intros a b Hab. unfold Rd in *. destruct (Driver.id b =? k)%Z; [|assumption].
        exact Hab.
      - apply Forall2_map_r; [|exact G4].
        intros a b Hab. unfold Rr in *. destruct (RideRequest.id b =? rid)%Z; [|assumption].
        rewrite <- Hab at 3. reflexivity. }
    assert (Hev : forall w2 evs2 evs3, P (w2, evs2) -> P (w2, evs3)) by (intros; assumption).
    destruct (tick_driver_cases cfg w1 evs1 k)
      as [->|(driver & rid & request & _ & _ & _ & _ & _ &
              [(_ & _ & _ & ->)|[(nx & ny & _ & _ & _ & [(_ & _ & ->)|(_ & ->)])
                                |(nx & ny & _ & _ & _ & [(_ & _ & ->)|(_ & ->)])]])].
    + unfold P. cbn [fst]. auto.
    + apply (Hev _ evs1). apply Hpick. unfold P. cbn [fst]. auto.
    + apply (Hev _ evs1). apply Hpick. apply Hmove.
    + apply Hmove.
    + apply (Hev _ evs1). apply Hdone. apply Hmove.
    + apply Hmove.
Qed.

(** Lookups in the stores the loop writes. *)
Lemma get_driver_move_driver (k' k : Z) (nx ny : Q) (w : World) :
  get_driver k' (drivers (move_driver k nx ny w)) =
  if (k' =? k)%Z then option_map (Driver.set_position nx ny) (get_driver k' (drivers w))
  else get_driver k' (drivers w).
Proof. unfold move_driver. cbn [drivers with_drivers]. now apply get_driver_update. Qed.

Lemma get_driver_complete_trip (k' k rid : Z) (w : World) :
  get_driver k' (drivers (complete_trip k rid w)) =
  if (k' =? k)%Z
  then option_map
         (fun d => Driver.set_assigned_request_id None (Driver.set_status AVAILABLE d))
         (get_driver k' (drivers w))
  else get_driver k' (drivers w).
Proof. unfold complete_trip. cbn [drivers with_drivers]. now apply get_driver_update. Qed.

Lemma get_request_mark_picked_up (r rid : Z) (w : World) :
  get_request r (requests (mark_picked_up rid w)) =
  if (r =? rid)%Z
  then option_map (RideRequest.set_picked_up true) (get_request r (requests w))
  else get_request r (requests w).
Proof.
  unfold mark_picked_up. cbn [requests with_requests]. now apply get_request_update.
Qed.

Lemma get_request_complete_trip (r k rid : Z) (w : World) :
  get_request r (requests (complete_trip k rid w)) =
  if (r =? rid)%Z
  then option_map
         (fun q => RideRequest.set_picked_up false (RideRequest.set_status COMPLETED q))
         (get_request r (requests w))
  else get_request r (requests w).
Proof.
  unfold complete_trip. cbn [requests with_drivers with_requests].
  now apply get_request_update.
Qed.

(** ** Completion of a trip *)

(** The iteration for a driver that is one step away from the dropoff point
    of its picked-up request: the driver is moved, the trip is completed and
    the event is appended. *)
Lemma tick_driver_completes (cfg : Config) (w : World) (evs : list TickEvent.t)
    (k rid : Z) (d : Driver.t) (request : RideRequest.t) :
  get_driver k (drivers w) = Some d ->
  Driver.status d = ON_TRIP ->
  Driver.assigned_request_id d = Some rid ->
  rid <> 0%Z ->
  get_request rid (requests w) = Some request ->
  RideRequest.picked_up request = true ->
  ~ (Driver.x d == RideRequest.dropoff_x request /\
     Driver.y d == RideRequest.dropoff_y request) ->
  let new := move_towards_target cfg (Driver.x d) (Driver.y d)
               (RideRequest.dropoff_x request) (RideRequest.dropoff_y request) in
  fst new == RideRequest.dropoff_x request /\
  snd new == RideRequest.dropoff_y request ->
  tick_driver cfg (w, evs) k =
    (complete_trip k rid (move_driver k (fst new) (snd new) w),
     evs ++ [TickEvent.mk k rid "completed"]).
Proof.
  intros Hd Hst Has Hrid Hreq Hpicked Hfar new Hland.
  destruct (get_driver_some _ _ _ Hd) as [_ Ek].
  destruct (get_request_some _ _ _ Hreq) as [_ Er].
  unfold tick_driver.
  rewrite Hd, Hst, Has. cbn [DriverStatus_eqb andb truthy].
  destruct (Z.eqb_spec rid 0) as [|_]; [contradiction|]. cbn [negb].
  rewrite Hreq, Hpicked. cbn [negb].
  apply manhattan_positive_iff in Hfar. rewrite Hfar.
  subst new.
  destruct (move_towards_target cfg (Driver.x d) (Driver.y d)
              (RideRequest.dropoff_x request) (RideRequest.dropoff_y request))
    as [new_x new_y].
  cbn [fst snd] in Hland |- *.
  apply manhattan_zero_iff in Hland. apply Qeq_bool_iff in Hland. rewrite Hland.
  rewrite Ek, Er. reflexivity.
Qed.

(** An iteration for a driver that is not on trip for the request [rid]
    leaves that request alone, touches no other driver, and does not make
    its own driver point at another request than before. *)
Lemma tick_driver_elsewhere (cfg : Config) (w : World) (evs : list TickEvent.t)
    (k1 rid : Z) :
  (forall d1, get_driver k1 (drivers w) = Some d1 -> Driver.status d1 = ON_TRIP ->
              Driver.assigned_request_id d1 <> Some rid) ->
  exists w' new,
    tick_driver cfg (w, evs) k1 = (w', evs ++ new) /\
    get_request rid (requests w') = get_request rid (requests w) /\
    (forall k', k' <> k1 -> get_driver k' (drivers w') = get_driver k' (drivers w)) /\
    (forall d', get_driver k1 (drivers w') = Some d' -> Driver.status d' = ON_TRIP ->
       exists d1, get_driver k1 (drivers w) = Some d1 /\ Driver.status d1 = ON_TRIP /\
                  Driver.assigned_request_id d1 = Driver.assigned_request_id d').
Proof.
  intro Hnot.
  destruct (tick_driver_cases cfg w evs k1)
    as [E|(driver & rid1 & request1 & Hd & Hon & Has & _ & Hreq1 & Hcases)].
  { exists w, []. rewrite app_nil_r. split; [exact E|]. split; [reflexivity|].
    split; [reflexivity|]. intros d' Hget Hst. exists d'. auto. }
  assert (Hne : (rid =? rid1)%Z = false).
  { apply Z.eqb_neq. intros ->. exact (Hnot driver Hd Hon Has). }
  assert (Hmoved : forall nx ny d',
    get_driver k1 (drivers (move_driver k1 nx ny w)) = Some d' ->
    Driver.status d' = ON_TRIP ->
    exists d1, get_driver k1 (drivers w) = Some d1 /\ Driver.status d1 = ON_TRIP /\
               Driver.assigned_request_id d1 = Driver.assigned_request_id d').
  { intros nx ny d' Hget Hst.
    rewrite get_driver_move_driver, Z.eqb_refl, Hd in Hget.
    cbn in Hget. injection Hget as <-. exists driver. auto. }
  assert (Hother : forall nx ny k', k' <> k1 ->
    get_driver k' (drivers (move_driver k1 nx ny w)) = get_driver k' (drivers w)).
  { intros nx ny k' Hk'. rewrite get_driver_move_driver.
    destruct (Z.eqb_spec k' k1); [contradiction | reflexivity]. }
  destruct Hcases
    as [(_ & _ & _ & E)|[(nx & ny & _ & _ & _ & [(_ & _ & E)|(_ & E)])
                        |(nx & ny & _ & _ & _ & [(_ & _ & E)|(_ & E)])]].
  - eexists. eexists. split; [exact E|].
    split; [now rewrite get_request_mark_picked_up, Hne|].
    split; [reflexivity|].
    intros d' Hget Hst. exists d'. auto.
  - eexists. eexists. split; [exact E|].
    split; [now rewrite get_request_mark_picked_up, Hne|].
    split; [apply Hother | apply Hmoved].
  - exists (move_driver k1 nx ny w), []. rewrite app_nil_r. split; [exact E|].
    split; [reflexivity|].
    split; [apply Hother | apply Hmoved].
  - eexists. eexists. split; [exact E|].
    split; [now rewrite get_request_complete_trip, Hne|].
    split.
    + intros k' Hk'. rewrite get_driver_complete_trip.
      destruct (Z.eqb_spec k' k1); [contradiction|]. now apply Hother.
    + intros d' Hget Hst. exfalso.
      rewrite get_driver_complete_trip, Z.eqb_refl in Hget.
      rewrite get_driver_move_driver, Z.eqb_refl, Hd in Hget.
      cbn in Hget. injection Hget as <-. discriminate Hst.
  - exists (move_driver k1 nx ny w), []. rewrite app_nil_r. split; [exact E|].
    split; [reflexivity|].
    split; [apply Hother | apply Hmoved].
Qed.

(** Once a trip is completed, the rest of the loop leaves it so. *)
Lemma trip_done_step (cfg : Config) (k rid : Z) (released : Driver.t)
    (done : RideRequest.t) (st : World * list TickEvent.t) (k1 : Z) :
  Driver.status released = AVAILABLE ->
  trip_done k rid released done st ->
  trip_done k rid released done (tick_driver cfg st k1).
Proof.
  intros Hav. destruct st as [w evs]. intros (Hev & Hdrv & Hreq & Hnone).
  cbn [fst snd] in Hev, Hdrv, Hreq, Hnone.
  destruct (tick_driver_elsewhere cfg w evs k1 rid) as (w' & new & E & F1 & F2 & F3).
  { intros d1 Hget Hst. now apply (Hnone k1). }
  rewrite E. unfold trip_done. cbn [fst snd].
  split; [apply in_or_app; now left|]. split; [|split].
  - destruct (Z.eq_dec k k1) as [<-|Hne]; [|now rewrite F2].
    assert (Eid : tick_driver cfg (w, evs) k = (w, evs)).
    { unfold tick_driver. rewrite Hdrv, Hav. reflexivity. }
    rewrite Eid in E. injection E as <- _. exact Hdrv.
  - now rewrite F1.
  - intros k' d' Hget Hst.
    destruct (Z.eq_dec k' k1) as [->|Hne].
    + destruct (F3 d' Hget Hst) as (d1 & Hget1 & Hst1 & <-).
      now apply (Hnone k1).
    + rewrite F2 in Hget by exact Hne. now apply (Hnone k').
Qed.

(** Until the driver's own iteration, the loop leaves a trip that no other
    on-trip driver shares as it found it. *)
Lemma trip_pending_step (cfg : Config) (k rid : Z) (d : Driver.t)
    (request : RideRequest.t) (st : World * list TickEvent.t) (k1 : Z) :
  k1 <> k ->
  trip_pending k rid d request st ->
  trip_pending k rid d request (tick_driver cfg st k1).
Proof.
  intros Hk1. destruct st as [w evs]. intros (Hdrv & Hreq & Honly).
  cbn [fst] in Hdrv, Hreq, Honly.
  destruct (tick_driver_elsewhere cfg w evs k1 rid) as (w' & new & E & F1 & F2 & F3).
  { intros d1 Hget Hst Has. apply Hk1. now apply (Honly k1 d1). }
  rewrite E. unfold trip_pending. cbn [fst].
  split; [|split].
  - rewrite F2 by congruence. exact Hdrv.
  - now rewrite F1.
  - intros k' d' Hget Hst Has.
    destruct (Z.eq_dec k' k1) as [->|Hne].
    + destruct (F3 d' Hget Hst) as (d1 & Hget1 & Hst1 & Has1).
      apply (Honly k1 d1 Hget1 Hst1). congruence.
    + rewrite F2 in Hget by exact Hne. now apply (Honly k' d').
Qed.

(** A loop that still has the driver's iteration ahead of it ends with the
    trip completed. *)
Lemma trip_completed_by_loop (cfg : Config) (k rid : Z) (d : Driver.t)
    (request : RideRequest.t) :
  Driver.status d = ON_TRIP ->
  Driver.assigned_request_id d = Some rid ->
  rid <> 0%Z ->
  RideRequest.picked_up request = true ->
  ~ (Driver.x d == RideRequest.dropoff_x request /\
     Driver.y d == RideRequest.dropoff_y request) ->
  let new := move_towards_target cfg (Driver.x d) (Driver.y d)
               (RideRequest.dropoff_x request) (RideRequest.dropoff_y request) in
  fst new == RideRequest.dropoff_x request /\
  snd new == RideRequest.dropoff_y request ->
  forall (ks : list Z) (st : World * list TickEvent.t),
  In k ks ->
  trip_pending k rid d request st ->
  trip_done k rid (Driver.mk k (fst new) (snd new) AVAILABLE None)
    (RideRequest.set_picked_up false (RideRequest.set_status COMPLETED request))
    (fold_left (tick_driver cfg) ks st).
Proof.
  intros Hon Has Hrid Hpk Hfar new Hland.
  induction ks as [|k1 ks IH]; intros st Hin Hpend; [contradiction|].
  cbn [fold_left].
  destruct (Z.eq_dec k1 k) as [->|Hne].
  - clear IH Hin. destruct st as [w evs].
    destruct Hpend as (Hdrv & Hreq & Honly). cbn [fst] in Hdrv, Hreq, Honly.
    destruct (get_driver_some _ _ _ Hdrv) as [_ Ek].
    rewrite (tick_driver_completes cfg w evs k rid d request
               Hdrv Hon Has Hrid Hreq Hpk Hfar Hland).
    fold new.
    apply (fold_left_invariant (tick_driver cfg)
             (trip_done k rid (Driver.mk k (fst new) (snd new) AVAILABLE None)
                (RideRequest.set_picked_up false (RideRequest.set_status COMPLETED request)))).
    + unfold trip_done. cbn [fst snd].
      split; [apply in_or_app; right; now left|]. split; [|split].
      * rewrite get_driver_complete_trip, Z.eqb_refl.
        rewrite get_driver_move_driver, Z.eqb_refl, Hdrv. cbn [option_map].
        unfold Driver.set_assigned_request_id, Driver.set_status, Driver.set_position.
        cbn [Driver.id Driver.x Driver.y Driver.status Driver.assigned_request_id].
        now rewrite Ek.
      * rewrite get_request_complete_trip, Z.eqb_refl.
        unfold move_driver. cbn [requests with_drivers]. now rewrite Hreq.
      * intros k' d' Hget Hst Has'.
        rewrite get_driver_complete_trip in Hget.
        destruct (Z.eqb_spec k' k) as [->|Hk'].
        -- rewrite get_driver_move_driver, Z.eqb_refl, Hdrv in Hget.
           cbn in Hget. injection Hget as <-. discriminate Hst.
        -- rewrite get_driver_move_driver in Hget.
           destruct (Z.eqb_spec k' k) as [|_]; [contradiction|].
           apply Hk'. now apply (Honly k' d').
    + intros st1 k2. now apply trip_done_step.
  - apply IH.
    + destruct Hin as [Hin|Hin]; [contradiction | exact Hin].
    + now apply trip_pending_step.
Qed.

(** C6, as the code behaves.  Take a driver that at the start of a [Tick]
    is on trip for a picked-up request, does not stand on the dropoff
    point, and is one movement step away from landing exactly on it; and let
    no other driver that is on trip be assigned the same request.  Then the
    events the [Tick] returns hold a [completed] for the pair, and in the
    store it returns the request is [COMPLETED] with [picked_up] false and
    the driver is [AVAILABLE], at the position the step took it to, with
    its [assigned_request_id] cleared. *)
Theorem tick_completes_unshared_trip (cfg : Config) (w : World) (k : Z) :
  sole_driver_of_its_request w k -> completes_trip cfg w k.
Proof.
  intros Hsole d rid request Hdrv Hon Has Hrid Hreq Hpk Hfar new Hland.
  destruct (get_driver_some _ _ _ Hdrv) as [Hin Ek].
  pose proof (trip_completed_by_loop cfg k rid d request Hon Has Hrid Hpk Hfar Hland
                (map Driver.id (drivers w))
                (mkWorld (drivers w) (riders w) (requests w) (current_time w + 1)%Z, []))
    as H.
  fold new in H. unfold _tick_internal.
  destruct H as (H1 & H2 & H3 & _).
  - rewrite <- Ek. now apply in_map.
  - unfold trip_pending. cbn [fst drivers requests].
    split; [exact Hdrv|]. split; [exact Hreq|].
    intros k' d' Hget Hst Has'. exact (Hsole d rid Hdrv Has k' d' Hget Hst Has').
  - auto.
Qed.

(** The last tick of scenario A's trip: driver 1 at (7,7) heading for
    (8,8). *)
Lemma tick_completes_unshared_trip_witness :
  let w := mkWorld [ Driver.mk 1 7 7 ON_TRIP (Some 1%Z) ]
             [ Rider.mk 1 2 2 8 8 ]
             [ RideRequest.mk 1 1 2 2 8 8 ASSIGNED 0 (Some 1%Z) true ] 7 in
  In (TickEvent.mk 1 1 "completed") (snd (_tick_internal scenario_A_config w)) /\
  get_request 1 (requests (fst (_tick_internal scenario_A_config w))) =
    Some (RideRequest.mk 1 1 2 2 8 8 COMPLETED 0 (Some 1%Z) false) /\
  get_driver 1 (drivers (fst (_tick_internal scenario_A_config w))) =
    Some (Driver.mk 1
            (fst (move_towards_target scenario_A_config 7 7 8 8))
            (snd (move_towards_target scenario_A_config 7 7 8 8)) AVAILABLE None).
Proof.
  cbv zeta.
  apply (tick_completes_unshared_trip scenario_A_config
           (mkWorld [ Driver.mk 1 7 7 ON_TRIP (Some 1%Z) ]
              [ Rider.mk 1 2 2 8 8 ]
              [ RideRequest.mk 1 1 2 2 8 8 ASSIGNED 0 (Some 1%Z) true ] 7)
           1%Z
         ltac:(intros d rid _ _ k' d' Hget _ _;
               apply get_driver_some in Hget; destruct Hget as [[<-|[]] <-]; reflexivity)
           (Driver.mk 1 7 7 ON_TRIP (Some 1%Z)) 1%Z
           (RideRequest.mk 1 1 2 2 8 8 ASSIGNED 0 (Some 1%Z) true)
           eq_refl eq_refl eq_refl).
  - discriminate.
  - reflexivity.
  - reflexivity.
  - simpl. intros [Hx _]. vm_compute in Hx. discriminate Hx.
  - split; reflexivity.
Defined.

(** C6, as stated, fails when two drivers share a request.  Drivers 1 and
    2 are both on trip for request 1, which is picked up, and both are one
    step from its dropoff point.  The loop reaches driver 1
    first and completes the trip, which resets [picked_up]; driver 2 is then
    moved towards the pickup point and stays on trip, and the only event is
    the [completed] of driver 1.  In the second store the pickup point is
    the dropoff point: the step of driver 2 does land on it, and is
    recorded as a pickup. *)
Lemma tick_leaves_shared_trip_open :
  (~ completes_trip scenario_A_config shared_request_world 2 /\
   get_driver 2 (drivers (fst (_tick_internal scenario_A_config shared_request_world)))
     = Some (Driver.mk 2 7 6 ON_TRIP (Some 1%Z)) /\
   snd (_tick_internal scenario_A_config shared_request_world)
     = [TickEvent.mk 1 1 "completed"]) /\
  (~ completes_trip scenario_A_config shared_spot_world 2 /\
   get_driver 2 (drivers (fst (_tick_internal scenario_A_config shared_spot_world)))
     = Some (Driver.mk 2 8 8 ON_TRIP (Some 1%Z)) /\
   snd (_tick_internal scenario_A_config shared_spot_world)
     = [TickEvent.mk 1 1 "completed"; TickEvent.mk 2 1 "reached_pickup"]).
Proof.
  split; (split; [intro H | split; reflexivity]).
  - destruct (H (Driver.mk 2 8 7 ON_TRIP (Some 1%Z)) 1%Z
                (RideRequest.mk 1 1 2 2 8 8 ASSIGNED 0 (Some 2%Z) true)
                eq_refl eq_refl eq_refl) as (_ & _ & Hd).
    + discriminate.
    + reflexivity.
    + reflexivity.
    + simpl. intros [_ Hy]. vm_compute in Hy. discriminate Hy.
    + split; reflexivity.
    + vm_compute in Hd. discriminate Hd.
  - destruct (H (Driver.mk 2 8 7 ON_TRIP (Some 1%Z)) 1%Z
                (RideRequest.mk 1 1 8 8 8 8 ASSIGNED 0 (Some 2%Z) true)
                eq_refl eq_refl eq_refl) as (_ & _ & Hd).
    + discriminate.
    + reflexivity.
    + reflexivity.
    + simpl. intros [_ Hy]. vm_compute in Hy. discriminate Hy.
    + split; reflexivity.
    + vm_compute in Hd. discriminate Hd.
Qed.

Lemma option_map_none_iff {A B : Type} (f : A -> B) (o : option A) :
  option_map f o = None <-> o = None.
Proof. destruct o; simpl; split; intro H; congruence. Qed.

(** One iteration: at most one new event, about the iteration's driver and
    a request that is stored; no key appears or disappears. *)
Lemma tick_driver_step (cfg : Config) (w : World) (evs : list TickEvent.t) (k : Z) :
  exists w' new,
    tick_driver cfg (w, evs) k = (w', evs ++ new) /\
    (List.length new <= 1)%nat /\
    (forall e, In e new ->
       TickEvent.driver_id e = k /\
       (TickEvent.event e = "reached_pickup"%string \/
        TickEvent.event e = "completed"%string) /\
       get_driver k (drivers w) <> None /\
       get_request (TickEvent.request_id e) (requests w) <> None) /\
    (forall k', get_driver k' (drivers w') = None <-> get_driver k' (drivers w) = None) /\
    (forall r, get_request r (requests w') = None <-> get_request r (requests w) = None).
Proof.
  assert (Hd : forall k' k nx ny w,
             get_driver k' (drivers (move_driver k nx ny w)) = None <->
             get_driver k' (drivers w) = None).
  { intros. rewrite get_driver_move_driver.
    destruct (k' =? k0)%Z; [apply option_map_none_iff | reflexivity]. }
  assert (Hr : forall r rid w,
             get_request r (requests (mark_picked_up rid w)) = None <->
             get_request r (requests w) = None).
  { intros. rewrite get_request_mark_picked_up.
    destruct (r =? rid)%Z; [apply option_map_none_iff | reflexivity]. }
  destruct (tick_driver_cases cfg w evs k)
    as [E|(driver & rid & request & Hdrv & _ & _ & _ & Hreq &
           [(_ & _ & _ & E)|[(nx & ny & _ & _ & _ & [(_ & _ & E)|(_ & E)])
                            |(nx & ny & _ & _ & _ & [(_ & _ & E)|(_ & E)])]])];
    rewrite E.
  - exists w, []. rewrite app_nil_r.
    split; [reflexivity|]. split; [cbn; lia|]. split; [intros e []|].
    split; reflexivity.
  - eexists. eexists. split; [reflexivity|]. split; [cbn; lia|]. split; [|split].
    + intros e [<-|[]]. cbn. rewrite Hdrv, Hreq. repeat split; auto; discriminate.
    + intro k'. reflexivity.
    + intro r. apply Hr.
  - eexists. eexists. split; [reflexivity|]. split; [cbn; lia|]. split; [|split].
    + intros e [<-|[]]. cbn. rewrite Hdrv, Hreq. repeat split; auto; discriminate.
    + intro k'. apply Hd.
    + intro r. rewrite Hr. reflexivity.
  - exists (move_driver k nx ny w), []. rewrite app_nil_r.
    split; [reflexivity|]. split; [cbn; lia|]. split; [intros e []|]. split.
    + intro k'. apply Hd.
    + reflexivity.
  - eexists. eexists. split; [reflexivity|]. split; [cbn; lia|]. split; [|split].
    + intros e [<-|[]]. cbn. rewrite Hdrv, Hreq. repeat split; auto; discriminate.
    + intro k'. rewrite get_driver_complete_trip.
      destruct (k' =? k)%Z; [rewrite option_map_none_iff|]; apply Hd.
    + intro r. rewrite get_request_complete_trip.
      destruct (r =? rid)%Z; [rewrite option_map_none_iff|]; reflexivity.
  - exists (move_driver k nx ny w), []. rewrite app_nil_r.
    split; [reflexivity|]. split; [cbn; lia|]. split; [intros e []|]. split.
    + intro k'. apply Hd.
    + reflexivity.
Qed.

(** X5.  The events of a [Tick] are well formed: there are at most as many
    as there are drivers, and each is a [reached_pickup] or a [completed]
    for a driver and a request that are in the store. *)
Theorem tick_events_well_formed (cfg : Config) (w : World) :
  let events := snd (_tick_internal cfg w) in
  (List.length events <= List.length (drivers w))%nat /\
  forall e, In e events ->
    (TickEvent.event e = "reached_pickup"%string \/
     TickEvent.event e = "completed"%string) /\
    get_driver (TickEvent.driver_id e) (drivers w) <> None /\
    get_request (TickEvent.request_id e) (requests w) <> None.
Proof.
  cbv zeta. unfold _tick_internal.
  set (w0 := mkWorld (drivers w) (riders w) (requests w) (current_time w + 1)%Z).
  assert (H : forall ks w1 evs1,
    (forall k', get_driver k' (drivers w1) = None <-> get_driver k' (drivers w) = None) ->
    (forall r, get_request r (requests w1) = None <-> get_request r (requests w) = None) ->
    (forall e, In e evs1 ->
       (TickEvent.event e = "reached_pickup"%string \/
        TickEvent.event e = "completed"%string) /\
       get_driver (TickEvent.driver_id e) (drivers w) <> None /\
       get_request (TickEvent.request_id e) (requests w) <> None) ->
    let evs := snd (fold_left (tick_driver cfg) ks (w1, evs1)) in
    (List.length evs <= List.length evs1 + List.length ks)%nat /\
    forall e, In e evs ->
      (TickEvent.event e = "reached_pickup"%string \/
       TickEvent.event e = "completed"%string) /\
      get_driver (TickEvent.driver_id e) (drivers w) <> None /\
      get_request (TickEvent.request_id e) (requests w) <> None).
  { induction ks as [|k ks IH]; intros w1 evs1 Hd Hr Hevs; cbv zeta.
    - cbn [fold_left snd List.length]. split; [lia | exact Hevs].
    - cbn [fold_left].
      destruct (tick_driver_step cfg w1 evs1 k) as (w2 & new & E & Hlen & Hnew & Hd2 & Hr2).
      rewrite E.
      destruct (IH w2 (evs1 ++ new)) as [I1 I2].
      + intro k'. rewrite Hd2. apply Hd.
      + intro r. rewrite Hr2. apply Hr.
      + intros e He. apply in_app_or in He. destruct He as [He|He]; [now apply Hevs|].
        destruct (Hnew e He) as (Ek & Hkind & Hdk & Hrk).
        split; [exact Hkind|]. split.
        * rewrite Ek. intro Hn. apply Hdk. now apply Hd.
        * intro Hn. apply Hrk. now apply Hr.
      + split; [|exact I2].
        rewrite length_app in I1. cbn [List.length]. lia. }
  destruct (H (map Driver.id (drivers w)) w0 []) as [H1 H2].
  - reflexivity.
  - reflexivity.
  - intros e [].
  - rewrite length_map in H1. cbn [List.length] in H1. split; [lia | exact H2].
Qed.

(** X6.  [Tick] moves only drivers that are on trip: a driver whose status
    is not [ON_TRIP] is the same after the call, and no event carries its
    id. *)
Theorem tick_leaves_idle_drivers (cfg : Config) (w : World) (k : Z) (d : Driver.t) :
  get_driver k (drivers w) = Some d ->
  Driver.status d <> ON_TRIP ->
  get_driver k (drivers (fst (_tick_internal cfg w))) = Some d /\
  forall e, In e (snd (_tick_internal cfg w)) -> TickEvent.driver_id e <> k.
Proof.
  intros Hd Hidle. unfold _tick_internal.
  set (P := fun st : World * list TickEvent.t =>
              get_driver k (drivers (fst st)) = Some d /\
              (forall e, In e (snd st) -> TickEvent.driver_id e <> k)).
  apply (fold_left_invariant (tick_driver cfg) P).
  - unfold P; cbn [fst snd drivers]. split; [exact Hd | intros e []].
  - intros [w1 evs1] k1 (H1 & H3). cbn [fst snd] in H1, H3.
    destruct (Z.eq_dec k1 k) as [->|Hne].
    + destruct (tick_driver_cases cfg w1 evs1 k)
        as [->|(driver & _ & _ & Hdrv & Hon & _)].
      * unfold P; cbn [fst snd]. auto.
      * rewrite H1 in Hdrv. injection Hdrv as <-. contradiction.
    + destruct (tick_driver cfg (w1, evs1) k1) as [w2 evs2] eqn:E.
      apply tick_driver_frame in E. destruct E as (F1 & _ & new & -> & F3).
      unfold P; cbn [fst snd]. split.
      * rewrite F1 by congruence. exact H1.
      * intros e He. apply in_app_or in He. destruct He as [He|He].
        -- now apply H3.
        -- rewrite (F3 e He). exact Hne.
Qed.

Lemma tick_leaves_idle_drivers_witness :
  let w := fst (_tick_internal default_config sample_world) in
  get_driver 3 (drivers w) = Some (Driver.mk 3 10 10 OFFLINE None).
Proof.
  cbv zeta.
  apply (tick_leaves_idle_drivers default_config sample_world 3
           (Driver.mk 3 10 10 OFFLINE None)).
  - reflexivity.
  - discriminate.
Defined.

(** ** Back-reference symmetry as an invariant *)

Lemma filter_by_key (k : Z) (ds : list Driver.t) :
  NoDup (map Driver.id ds) ->
  filter (fun d => (Driver.id d =? k)%Z) ds =
  match get_driver k ds with
  | Some d => [d]
  | None => []
  end.
Proof.
  unfold get_driver. induction ds as [|a ds IH]; intro Hnd; [reflexivity|].
  inversion Hnd as [|? ? Hnot Hnd']; subst. cbn [filter find].
  destruct (Z.eqb_spec (Driver.id a) k) as [E|E].
  - f_equal. apply filter_none. intros d Hd.
    apply Z.eqb_neq. intro Hk. apply Hnot. rewrite E, <- Hk. now apply in_map.
  - now apply IH.
Qed.

Lemma option_Z_eqb_eq (a b : option Z) : option_Z_eqb a b = true <-> a = b.
Proof.
  destruct a as [m|], b as [n|]; cbn; try (split; intro H; congruence).
  rewrite Z.eqb_eq. split; intro H; congruence.
Qed.

(** With unique driver keys, the boolean check and the proposition
    agree. *)
Lemma back_reference_ok_iff_linked (w : World) :
  NoDup (map Driver.id (drivers w)) ->
  back_reference_ok w = true <-> linked w.
Proof.
  intro Hnd. unfold back_reference_ok, linked. rewrite forallb_forall.
  split; intros H r Hin.
  - intro Hst. specialize (H r Hin).
    rewrite Hst in H. cbn [RequestStatus_eqb] in H.
    destruct (RideRequest.assigned_driver_id r) as [k|]; [|discriminate H].
    rewrite (filter_by_key k _ Hnd) in H.
    destruct (get_driver k (drivers w)) as [d|] eqn:Hget; [|discriminate H].
    apply andb_true_iff in H. destruct H as [H1 H2].
    apply DriverStatus_eqb_eq in H1. apply option_Z_eqb_eq in H2.
    exists k, d. auto.
  - destruct (RequestStatus_eqb (RideRequest.status r) ASSIGNED) eqn:Est; [|reflexivity].
    apply RequestStatus_eqb_eq in Est.
    destruct (H r Hin Est) as (k & d & Ek & Hget & Hon & Has).
    rewrite Ek, (filter_by_key k _ Hnd), Hget.
    apply andb_true_iff. split.
    + now apply DriverStatus_eqb_eq.
    + now apply option_Z_eqb_eq.
Qed.

Lemma in_update_request (rid : Z) (f : RideRequest.t -> RideRequest.t)
    (rs : list RideRequest.t) (r' : RideRequest.t) :
  In r' (update_request rid f rs) ->
  exists r, In r rs /\
    r' = if (RideRequest.id r =? rid)%Z then f r else r.
Proof.
  unfold update_request. intro H. apply in_map_iff in H.
  destruct H as (r & <- & Hin). eauto.
Qed.

Lemma linked_move_driver (k : Z) (nx ny : Q) (w : World) :
  linked w -> linked (move_driver k nx ny w).
Proof.
  intros H r Hin Hst. change (requests (move_driver k nx ny w)) with (requests w) in Hin.
  destruct (H r Hin Hst) as (k0 & d0 & E & Hget & Hon & Has).
  destruct (k0 =? k)%Z eqn:Ek.
  - exists k0, (Driver.set_position nx ny d0).
    rewrite get_driver_move_driver, Ek, Hget. auto.
  - exists k0, d0. rewrite get_driver_move_driver, Ek. auto.
Qed.

Lemma linked_mark_picked_up (rid : Z) (w : World) :
  linked w -> linked (mark_picked_up rid w).
Proof.
  intros H r' Hin Hst. unfold mark_picked_up in Hin. cbn [requests with_requests] in Hin.
  apply in_update_request in Hin. destruct Hin as (r & Hin & ->).
  change (drivers (mark_picked_up rid w)) with (drivers w).
  destruct (RideRequest.id r =? rid)%Z; [|now apply H].
  exact (H r Hin Hst).
Qed.

Lemma linked_complete_trip (k rid : Z) (w : World) (driver : Driver.t) :
  get_driver k (drivers w) = Some driver ->
  Driver.assigned_request_id driver = Some rid ->
  linked w -> linked (complete_trip k rid w).
Proof.
  intros Hd Has H r' Hin Hst. unfold complete_trip in Hin.
  cbn [requests with_drivers with_requests] in Hin.
  apply in_update_request in Hin. destruct Hin as (r & Hin & ->).
  destruct (Z.eqb_spec (RideRequest.id r) rid) as [E|E]; [discriminate Hst|].
  destruct (H r Hin Hst) as (k0 & d0 & Ek & Hget & Hon & Has0).
  exists k0, d0. rewrite get_driver_complete_trip.
  destruct (Z.eqb_spec k0 k) as [->|_]; [|auto].
  rewrite Hd in Hget. injection Hget as <-. congruence.
Qed.

Lemma tick_driver_linked (cfg : Config) (w : World) (evs : list TickEvent.t) (k : Z) :
  linked w -> linked (fst (tick_driver cfg (w, evs) k)).
Proof.
  intro H.
  destruct (tick_driver_cases cfg w evs k)
    as [E|(driver & rid & request & Hdrv & _ & Has & _ & _ &
           [(_ & _ & _ & E)|[(nx & ny & _ & _ & _ & [(_ & _ & E)|(_ & E)])
                            |(nx & ny & _ & _ & _ & [(_ & _ & E)|(_ & E)])]])];
    rewrite E; cbn [fst].
  - exact H.
  - now apply linked_mark_picked_up.
  - apply linked_mark_picked_up. now apply linked_move_driver.
  - now apply linked_move_driver.
  - apply (linked_complete_trip k rid _ (Driver.set_position nx ny driver)).
    + rewrite get_driver_move_driver, Z.eqb_refl, Hdrv. reflexivity.
    + exact Has.
    + now apply linked_move_driver.
  - now apply linked_move_driver.
Qed.

Lemma update_driver_ids (k : Z) (f : Driver.t -> Driver.t) (ds : list Driver.t) :
  (forall d, Driver.id (f d) = Driver.id d) ->
  map Driver.id (update_driver k f ds) = map Driver.id ds.
Proof.
  intro Hid. unfold update_driver. rewrite map_map. apply map_ext.
  intro d. destruct (Driver.id d =? k)%Z; [apply Hid | reflexivity].
Qed.

Lemma tick_keeps_driver_ids (cfg : Config) (w : World) :
  map Driver.id (drivers (fst (_tick_internal cfg w))) = map Driver.id (drivers w).
Proof.
  unfold _tick_internal.
  apply (fold_left_invariant (tick_driver cfg)
           (fun st : World * list TickEvent.t =>
              map Driver.id (drivers (fst st)) = map Driver.id (drivers w))).
  - reflexivity.
  - intros [w1 evs1] k H. cbn [fst] in H.
    assert (Hmove : forall nx ny,
              map Driver.id (drivers (move_driver k nx ny w1)) = map Driver.id (drivers w)).
    { intros nx ny. unfold move_driver. cbn [drivers with_drivers].
      now rewrite update_driver_ids. }
    destruct (tick_driver_cases cfg w1 evs1 k)
      as [E|(driver & rid & request & _ & _ & _ & _ & _ &
             [(_ & _ & _ & E)|[(nx & ny & _ & _ & _ & [(_ & _ & E)|(_ & E)])
                              |(nx & ny & _ & _ & _ & [(_ & _ & E)|(_ & E)])]])];
      rewrite E; cbn [fst]; try exact H; try apply Hmove.
    unfold complete_trip. cbn [drivers with_drivers].
    rewrite update_driver_ids by reflexivity. apply Hmove.
Qed.

(** X7.  [Tick] keeps back-reference symmetry: with unique driver keys, if
    every assigned request names exactly one driver, on trip and pointing
    back at it, before the call, the same holds after it. *)
Theorem tick_keeps_back_references (cfg : Config) (w : World) :
  NoDup (map Driver.id (drivers w)) ->
  back_reference_ok w = true ->
  back_reference_ok (fst (_tick_internal cfg w)) = true.
Proof.
  intros Hnd Hok.
  pose proof (tick_keeps_driver_ids cfg w) as Hids.
  apply back_reference_ok_iff_linked; [now rewrite Hids|].
  apply back_reference_ok_iff_linked in Hok; [|exact Hnd].
  unfold _tick_internal.
  apply (fold_left_invariant (tick_driver cfg)
           (fun st : World * list TickEvent.t => linked (fst st))).
  - exact Hok.
  - intros [w1 evs1] k H. now apply tick_driver_linked.
Qed.

Lemma tick_keeps_back_references_witness :
  back_reference_ok (fst (_tick_internal scenario_A_config scenario_A_dispatched)) = true.
Proof.
  apply (tick_keeps_back_references scenario_A_config scenario_A_dispatched).
  - cbn. repeat constructor. intros [].
  - reflexivity.
Defined.

(** ** Requests a tick cannot advance *)

(** A request is frozen when every on-trip driver that points at it already
    stands on its dropoff point with the passenger picked up: no branch of
    the loop applies to such a driver.  An iteration keeps the request, the
    drivers pointing at it, and the property. *)
Lemma tick_driver_frozen (cfg : Config) (w0 w : World) (evs : list TickEvent.t)
    (k' rid : Z) (request : RideRequest.t) :
  let pointing (d : Driver.t) :=
    Driver.status d = ON_TRIP /\ Driver.assigned_request_id d = Some rid in
  let frozen (w1 : World) :=
    get_request rid (requests w1) = Some request /\
    (forall k d, get_driver k (drivers w1) = Some d -> pointing d ->
       RideRequest.picked_up request = true /\
       Driver.x d == RideRequest.dropoff_x request /\
       Driver.y d == RideRequest.dropoff_y request) /\
    (forall k d, get_driver k (drivers w0) = Some d -> pointing d ->
       get_driver k (drivers w1) = Some d) in
  frozen w -> frozen (fst (tick_driver cfg (w, evs) k')).
Proof.
  intros pointing frozen (Hreq & Hdrv & Hkeep). subst frozen pointing. cbv beta in *.
  destruct (tick_driver_cases cfg w evs k')
    as [E|(driver & rid' & request' & Hd & Hon & Has & _ & Hreq' & Hcases)].
  { rewrite E. cbn [fst]. auto. }
  assert (Hne : rid' <> rid).
  { intros ->. rewrite Hreq in Hreq'. injection Hreq' as <-.
    destruct (Hdrv k' driver Hd (conj Hon Has)) as (Hpk & Hx & Hy).
    destruct Hcases as [(Hf & _)|[(nx & ny & Hf & _)|(nx & ny & _ & Hfar & _)]];
      [congruence | congruence | apply Hfar; auto]. }
  assert (Hnb : (rid =? rid')%Z = false) by (apply Z.eqb_neq; congruence).
  assert (Hmove : forall nx ny k d,
    get_driver k (drivers (move_driver k' nx ny w)) = Some d ->
    Driver.status d = ON_TRIP /\ Driver.assigned_request_id d = Some rid ->
    RideRequest.picked_up request = true /\
    Driver.x d == RideRequest.dropoff_x request /\
    Driver.y d == RideRequest.dropoff_y request).
  { intros nx ny k d Hget [Hst Hrid].
    rewrite get_driver_move_driver in Hget.
    destruct (Z.eqb_spec k k') as [->|_]; [|now apply (Hdrv k)].
    rewrite Hd in Hget. injection Hget as <-. cbn in Hrid. congruence. }
  assert (Hkeep' : forall nx ny k d,
    get_driver k (drivers w0) = Some d ->
    Driver.status d = ON_TRIP /\ Driver.assigned_request_id d = Some rid ->
    get_driver k (drivers (move_driver k' nx ny w)) = Some d).
  { intros nx ny k d Hget Hp. pose proof (Hkeep k d Hget Hp) as Hcur.
    rewrite get_driver_move_driver.
    destruct (Z.eqb_spec k k') as [->|_]; [|exact Hcur].
    rewrite Hd in Hcur. injection Hcur as <-. destruct Hp. congruence. }
  destruct Hcases
    as [(_ & _ & _ & E)|[(nx & ny & _ & _ & _ & [(_ & _ & E)|(_ & E)])
                        |(nx & ny & _ & _ & _ & [(_ & _ & E)|(_ & E)])]];
    rewrite E; cbn [fst].
  - split; [now rewrite get_request_mark_picked_up, Hnb|]. split; assumption.
  - split; [now rewrite get_request_mark_picked_up, Hnb|].
    split; [apply Hmove | apply Hkeep'].
  - split; [exact Hreq|]. split; [apply Hmove | apply Hkeep'].
  - split; [now rewrite get_request_complete_trip, Hnb|]. split.
    + intros k d Hget Hp. rewrite get_driver_complete_trip in Hget.
      destruct (Z.eqb_spec k k') as [->|_]; [|now apply (Hmove nx ny k)].
      rewrite get_driver_move_driver, Z.eqb_refl, Hd in Hget.
      cbn in Hget. injection Hget as <-. destruct Hp as [Hst _]. discriminate Hst.
    + intros k d Hget Hp. pose proof (Hkeep' nx ny k d Hget Hp) as Hcur.
      rewrite get_driver_complete_trip.
      destruct (Z.eqb_spec k k') as [->|_]; [|exact Hcur].
      rewrite get_driver_move_driver, Z.eqb_refl, Hd in Hcur.
      cbn in Hcur. injection Hcur as <-. destruct Hp. cbn in *. congruence.
  - split; [exact Hreq|]. split; [apply Hmove | apply Hkeep'].
Qed.

(** The same over any number of whole ticks. *)
Lemma tick_n_frozen (cfg : Config) (rid : Z) (request : RideRequest.t) (n : nat) :
  forall w : World,
  get_request rid (requests w) = Some request ->
  (forall k d, get_driver k (drivers w) = Some d ->
     Driver.status d = ON_TRIP /\ Driver.assigned_request_id d = Some rid ->
     RideRequest.picked_up request = true /\
     Driver.x d == RideRequest.dropoff_x request /\
     Driver.y d == RideRequest.dropoff_y request) ->
  get_request rid (requests (fst (tick_n cfg n w))) = Some request /\
  forall k d, get_driver k (drivers w) = Some d ->
    Driver.status d = ON_TRIP /\ Driver.assigned_request_id d = Some rid ->
    get_driver k (drivers (fst (tick_n cfg n w))) = Some d.
Proof.
  induction n as [|n IH]; intros w Hreq Hdrv.
  - cbn [tick_n fst]. auto.
  - cbn [tick_n].
    assert (Hone :
      get_request rid (requests (fst (_tick_internal cfg w))) = Some request /\
      (forall k d, get_driver k (drivers (fst (_tick_internal cfg w))) = Some d ->
         Driver.status d = ON_TRIP /\ Driver.assigned_request_id d = Some rid ->
         RideRequest.picked_up request = true /\
         Driver.x d == RideRequest.dropoff_x request /\
         Driver.y d == RideRequest.dropoff_y request) /\
      (forall k d, get_driver k (drivers w) = Some d ->
         Driver.status d = ON_TRIP /\ Driver.assigned_request_id d = Some rid ->
         get_driver k (drivers (fst (_tick_internal cfg w))) = Some d)).
    { unfold _tick_internal.
      apply (fold_left_invariant (tick_driver cfg)
        (fun st : World * list TickEvent.t =>
           get_request rid (requests (fst st)) = Some request /\
           (forall k d, get_driver k (drivers (fst st)) = Some d ->
              Driver.status d = ON_TRIP /\ Driver.assigned_request_id d = Some rid ->
              RideRequest.picked_up request = true /\
              Driver.x d == RideRequest.dropoff_x request /\
              Driver.y d == RideRequest.dropoff_y request) /\
           (forall k d, get_driver k (drivers w) = Some d ->
              Driver.status d = ON_TRIP /\ Driver.assigned_request_id d = Some rid ->
              get_driver k (drivers (fst st)) = Some d))).
      - cbn [fst requests drivers]. auto.
      - intros [w1 evs1] k1 H. exact (tick_driver_frozen cfg w w1 evs1 k1 rid request H). }
    destruct (_tick_internal cfg w) as [w1 events] eqn:E1. cbn [fst] in Hone.
    destruct Hone as (H1 & H2 & H3).
    destruct (tick_n cfg n w1) as [w2 later] eqn:E2. cbn [fst].
    destruct (IH w1 H1 H2) as [I1 I2]. rewrite E2 in I1, I2. cbn [fst] in I1, I2.
    split; [exact I1|].
    intros k d Hget Hp. apply I2; [|exact Hp]. now apply H3.
Qed.

(** X8.  A request that no driver points at is out of [Tick]'s reach: it
    is the same after any number of ticks.  (So a request whose driver was
    deleted stays as it is.) *)
Theorem tick_ignores_unreferenced_request (cfg : Config) (w : World) (rid : Z)
    (request : RideRequest.t) (n : nat) :
  get_request rid (requests w) = Some request ->
  (forall k d, get_driver k (drivers w) = Some d ->
     Driver.assigned_request_id d <> Some rid) ->
  get_request rid (requests (fst (tick_n cfg n w))) = Some request.
Proof.
  intros Hreq Hnone.
  apply (tick_n_frozen cfg rid request n w Hreq).
  intros k d Hget [_ Hrid]. exfalso. exact (Hnone k d Hget Hrid).
Qed.

Lemma tick_ignores_unreferenced_request_witness :
  get_request 2 (requests (fst (tick_n scenario_A_config 8
    (mkWorld (drivers scenario_A_dispatched) (riders sample_world)
       [ RideRequest.mk 1 1 2 2 8 8 ASSIGNED 0 (Some 1%Z) false;
         RideRequest.mk 2 2 15 15 20 20 ASSIGNED 0 (Some 7%Z) false ] 0))))
  = Some (RideRequest.mk 2 2 15 15 20 20 ASSIGNED 0 (Some 7%Z) false).
Proof.
  apply tick_ignores_unreferenced_request.
  - reflexivity.
  - intros k d Hget. apply get_driver_some in Hget.
    destruct Hget as [[<-|[]] _]. discriminate.
Defined.

(** X9.  A trip is never completed from a standstill: while a request is
    picked up and every on-trip driver pointing at it (here: the driver
    under [k]) stands on the dropoff point, no number of ticks changes the
    request or that driver, which stays on trip.  A request whose dropoff
    point is its pickup point ends up in this state. *)
Theorem tick_never_completes_at_dropoff (cfg : Config) (w : World) (k rid : Z)
    (d : Driver.t) (request : RideRequest.t) (n : nat) :
  get_driver k (drivers w) = Some d ->
  Driver.status d = ON_TRIP ->
  Driver.assigned_request_id d = Some rid ->
  get_request rid (requests w) = Some request ->
  RideRequest.picked_up request = true ->
  Driver.x d == RideRequest.dropoff_x request ->
  Driver.y d == RideRequest.dropoff_y request ->
  (forall k' d', get_driver k' (drivers w) = Some d' ->
     Driver.assigned_request_id d' = Some rid -> k' = k) ->
  get_request rid (requests (fst (tick_n cfg n w))) = Some request /\
  get_driver k (drivers (fst (tick_n cfg n w))) = Some d.
Proof.
  intros Hd Hon Has Hreq Hpk Hx Hy Honly.
  destruct (tick_n_frozen cfg rid request n w Hreq) as [H1 H2].
  - intros k' d' Hget [_ Hrid].
    pose proof (Honly k' d' Hget Hrid) as ->.
    rewrite Hd in Hget. injection Hget as <-. auto.
  - split; [exact H1|]. apply H2; auto.
Qed.

(** A request from (2,2) to (2,2), its driver at (2,2) after pickup. *)
Lemma tick_never_completes_at_dropoff_witness :
  let d := Driver.mk 1 2 2 ON_TRIP (Some 1%Z) in
  let request := RideRequest.mk 1 1 2 2 2 2 ASSIGNED 0 (Some 1%Z) true in
  let w := mkWorld [d] [Rider.mk 1 2 2 2 2] [request] 1 in
  get_request 1 (requests (fst (tick_n default_config 100 w))) = Some request /\
  get_driver 1 (drivers (fst (tick_n default_config 100 w))) = Some d.
Proof.
  cbv zeta.
  apply tick_never_completes_at_dropoff; try reflexivity.
  intros k' d' Hget _. apply get_driver_some in Hget.
  destruct Hget as [[<-|[]] <-]. reflexivity.
Defined.

(** ** The retry loop, draw by draw *)

(** The retry loop refuses some number [j] of offers in a row, on the draws
    [draws st, ..., draws st + j - 1]; then either the next draw accepts,
    before the attempts run out, or all attempts are used. *)
Lemma offer_loop_trace (cfg : Config) (random : nat -> Q) (request_id : Z)
    (request : RideRequest.t) :
  forall (remaining : nat) (available : list Z) (best : Z) (attempts : Z)
         (st st' : DispatchState) (attempts' : Z),
  List.length available = remaining ->
  In best available ->
  (forall k, In k available -> get_driver k (drivers (world st)) <> None) ->
  offer_loop cfg random remaining request_id request available best attempts st
    = (st', attempts') ->
  exists j : nat,
    attempts' = (attempts + Z.of_nat j)%Z /\
    (forall i, (draws st <= i < draws st + j)%nat ->
               simulate_driver_rejection cfg random i = true) /\
    ((exists b st0,
        (j < remaining)%nat /\
        simulate_driver_rejection cfg random (draws st + j) = false /\
        In b available /\
        world st0 = world st /\ draws st0 = (draws st + j)%nat /\
        results st0 = results st /\
        st' = accept_offer request_id b attempts' st0)
     \/
     (j = remaining /\
      world st' = world st /\ draws st' = (draws st + j)%nat /\
      results st' = results st)).
Proof.
  induction remaining as [|r IH]; intros available best attempts st st' attempts'
    Hlen Hbest Hres Hrun.
  - cbn [offer_loop] in Hrun. injection Hrun as <- <-.
    exists 0%nat. split; [cbn; lia|]. split; [intros i Hi; lia|].
    right. repeat split. lia.
  - cbn [offer_loop] in Hrun.
    destruct (simulate_driver_rejection cfg random (draws st)) eqn:Erej.
    + pose proof (remove_first_length best available Hbest) as Hlen'.
      destruct (remove_first best available) as [|k0 rest] eqn:Erem.
      * injection Hrun as <- <-. cbn [List.length] in Hlen'.
        exists 1%nat. split; [cbn; lia|]. split.
        -- intros i Hi. assert (i = draws st) as -> by lia. exact Erej.
        -- right. cbn [world draws results]. repeat split; lia.
      * cbn [world] in Hrun.
        destruct (best_driver_loop_from_inf cfg (drivers (world st)) request k0 rest
                    (Some best)) as (b' & d' & Eb & Hin' & _ & _).
        { apply Hres. apply (remove_first_incl best). rewrite Erem. now left. }
        rewrite Eb in Hrun.
        apply IH in Hrun.
        -- cbn [world draws results] in Hrun.
           destruct Hrun as (j & Ha & Hrej & Hend).
           exists (S j). split; [lia|]. split.
           ++ intros i Hi. destruct (Nat.eq_dec i (draws st)) as [->|Hne]; [exact Erej|].
              apply Hrej. lia.
           ++ destruct Hend as [(b & st0 & Hj & Hacc & Hb & Hw & Hd & Hr & E)|(Hj & Hw & Hd & Hr)].
              ** left. exists b, st0.
                 replace (draws st + S j)%nat with (S (draws st) + j)%nat by lia.
                 repeat split; try assumption; [lia|].
                 apply (remove_first_incl best). now rewrite Erem.
              ** right. repeat split; try assumption; lia.
        -- cbn [List.length] in Hlen' |- *. lia.
        -- exact Hin'.
        -- cbn [world]. intros k Hk. apply Hres.
           apply (remove_first_incl best). now rewrite Erem.
    + injection Hrun as <- <-. exists 0%nat.
      split; [lia|]. split; [intros i Hi; lia|].
      left. exists best, st. rewrite Nat.add_0_r.
      repeat split; try assumption. lia.
Qed.

(** One request of a call with a non-empty snapshot, draw by draw. *)
Lemma dispatch_request_trace (cfg : Config) (random : nat -> Q) (snapshot : list Z)
    (st : DispatchState) (request_id : Z) :
  snapshot <> [] ->
  (forall k, In k snapshot -> get_driver k (drivers (world st)) <> None) ->
  get_request request_id (requests (world st)) <> None ->
  let st' := dispatch_request cfg random snapshot st request_id in
  let candidates := List.length snapshot in
  exists (j : nat) (st0 : DispatchState),
    world st0 = world st /\ draws st0 = (draws st + j)%nat /\
    results st0 = results st /\
    (forall i, (draws st <= i < draws st + j)%nat ->
               simulate_driver_rejection cfg random i = true) /\
    ((exists b,
        (j < candidates)%nat /\
        simulate_driver_rejection cfg random (draws st + j) = false /\
        In b snapshot /\
        st' = accept_offer request_id b (Z.of_nat j) st0)
     \/
     (j = candidates /\
      st' = fail_request request_id (Z.of_nat candidates) st0)).
Proof.
  intros Hne Hres Hreq st' candidates. subst st' candidates. unfold dispatch_request.
  destruct (get_request request_id (requests (world st))) as [request|];
    [|contradiction].
  destruct snapshot as [|k0 rest]; [contradiction|].
  destruct (best_driver_loop_from_inf cfg (drivers (world st)) request k0 rest None)
    as (b & d & Eb & Hin & _ & _).
  { apply Hres. now left. }
  rewrite Eb.
  destruct (offer_loop cfg random (List.length (k0 :: rest)) request_id request
              (k0 :: rest) b 0 st) as [st1 attempts1] eqn:Erun.
  apply offer_loop_trace in Erun; [|reflexivity|exact Hin|exact Hres].
  destruct Erun as (j & Ha & Hrej & Hend). rewrite Z.add_0_l in Ha. subst attempts1.
  destruct Hend as [(b1 & st0 & Hj & Hacc & Hb & Hw & Hd & Hr & E)|(Hj & Hw & Hd & Hr)].
  - destruct (Z.leb_spec (Z.of_nat (List.length (k0 :: rest))) (Z.of_nat j)) as [Hle|_];
      [lia|].
    exists j, st0. repeat split; try assumption.
    left. exists b1. auto.
  - destruct (Z.leb_spec (Z.of_nat (List.length (k0 :: rest))) (Z.of_nat j)) as [_|Hlt];
      [|lia].
    exists j, st1. repeat split; try assumption.
    right. split; [exact Hj|]. now rewrite Hj.
Qed.

(** ** A whole call, request by request *)

Lemma accept_offer_resolves (request_id b : Z) (a : Z) (st st0 : DispatchState)
    (snapshot todo : list Z) :
  world st0 = world st ->
  (forall k, In k snapshot -> get_driver k (drivers (world st)) <> None) ->
  (forall rid, In rid todo -> get_request rid (requests (world st)) <> None) ->
  (forall k, In k snapshot ->
     get_driver k (drivers (world (accept_offer request_id b a st0))) <> None) /\
  (forall rid, In rid todo ->
     get_request rid (requests (world (accept_offer request_id b a st0))) <> None).
Proof.
  intros Hw Hres Hreq. unfold accept_offer.
  cbn [world drivers requests with_drivers with_requests]. rewrite Hw. split.
  - intros k Hk. apply get_driver_update_resolves; [reflexivity | now apply Hres].
  - intros rid Hrid. apply get_request_update_resolves; [reflexivity | now apply Hreq].
Qed.

Lemma fail_request_resolves (request_id : Z) (a : Z) (st st0 : DispatchState)
    (snapshot todo : list Z) :
  world st0 = world st ->
  (forall k, In k snapshot -> get_driver k (drivers (world st)) <> None) ->
  (forall rid, In rid todo -> get_request rid (requests (world st)) <> None) ->
  (forall k, In k snapshot ->
     get_driver k (drivers (world (fail_request request_id a st0))) <> None) /\
  (forall rid, In rid todo ->
     get_request rid (requests (world (fail_request request_id a st0))) <> None).
Proof.
  intros Hw Hres Hreq. unfold fail_request.
  cbn [world drivers requests with_requests]. rewrite Hw. split.
  - exact Hres.
  - intros rid Hrid. apply get_request_update_resolves; [reflexivity | now apply Hreq].
Qed.

Lemma draws_used_entry (rid : Z) (o : option Z) (j : nat) (status : string) :
  draws_used (DispatchResult.mk rid o (Z.of_nat j) status) =
  (j + match o with Some _ => 1 | None => 0 end)%nat.
Proof. unfold draws_used. cbn. now rewrite Nat2Z.id. Qed.

(** The results of a call with a non-empty snapshot: one well-formed entry
    per request processed, in order; the draws taken are those the entries
    stand for; an entry with a refusal in it witnesses a refusing draw, an
    assigned entry an accepting one. *)
Lemma dispatch_fold_trace (cfg : Config) (random : nat -> Q) (snapshot : list Z) :
  snapshot <> [] ->
  forall (todo : list Z) (st : DispatchState),
  (forall k, In k snapshot -> get_driver k (drivers (world st)) <> None) ->
  (forall rid, In rid todo -> get_request rid (requests (world st)) <> None) ->
  let st' := fold_left (dispatch_request cfg random snapshot) todo st in
  exists new : list DispatchResult.t,
    results st' = results st ++ new /\
    map DispatchResult.request_id new = todo /\
    (forall e, In e new -> result_ok snapshot e) /\
    draws st' = (draws st + list_sum (map draws_used new))%nat /\
    (forall e, In e new -> (0 < DispatchResult.attempts e)%Z ->
       exists i, simulate_driver_rejection cfg random i = true) /\
    (forall e, In e new -> DispatchResult.assigned_driver_id e <> None ->
       exists i, simulate_driver_rejection cfg random i = false).
Proof.
  intro Hne. induction todo as [|rid rest IH]; intros st Hres Hreq st'; subst st'.
  - exists []. cbn [fold_left map list_sum]. rewrite app_nil_r, Nat.add_0_r.
    repeat split; try reflexivity; intros e [].
  - cbn [fold_left].
    destruct (dispatch_request_trace cfg random snapshot st rid Hne Hres)
      as (j & st0 & Hw & Hd & Hr & Hrej & Hend).
    { apply Hreq. now left. }
    assert (Hreq' : forall r, In r rest -> get_request r (requests (world st)) <> None).
    { intros r Hin. apply Hreq. now right. }
    destruct Hend as [(b & Hj & Hacc & Hb & E)|(Hj & E)]; rewrite E.
    + destruct (accept_offer_resolves rid b (Z.of_nat j) st st0 snapshot rest Hw Hres Hreq')
        as [Hres1 Hreq1].
      destruct (IH _ Hres1 Hreq1) as (new & I1 & I2 & I3 & I4 & I5 & I6).
      exists (DispatchResult.mk rid (Some b) (Z.of_nat j) "assigned" :: new).
      rewrite I1, I4. unfold accept_offer at 1 2. cbn [results draws]. rewrite Hr, Hd.
      split; [now rewrite <- app_assoc|]. split; [cbn; now rewrite I2|].
      split; [|split; [|split]].
      * intros e [<-|He]; [|now apply I3]. left. cbn.
        split; [reflexivity|]. split; [eauto|]. lia.
      * cbn [map]. rewrite draws_used_entry. unfold list_sum. cbn [fold_right]. lia.
      * intros e [<-|He] Hpos; [|now apply (I5 e)]. cbn in Hpos.
        exists (draws st). apply Hrej. lia.
      * intros e [<-|He] Hsome; [|now apply (I6 e)]. eauto.
    + destruct (fail_request_resolves rid (Z.of_nat (List.length snapshot)) st st0
                  snapshot rest Hw Hres Hreq') as [Hres1 Hreq1].
      destruct (IH _ Hres1 Hreq1) as (new & I1 & I2 & I3 & I4 & I5 & I6).
      exists (DispatchResult.mk rid None (Z.of_nat (List.length snapshot)) "failed" :: new).
      rewrite I1, I4. unfold fail_request at 1 2. cbn [results draws]. rewrite Hr, Hd.
      split; [now rewrite <- app_assoc|]. split; [cbn; now rewrite I2|].
      split; [|split; [|split]].
      * intros e [<-|He]; [|now apply I3]. right. cbn. auto.
      * cbn [map]. rewrite draws_used_entry. unfold list_sum. cbn [fold_right]. lia.
      * intros e [<-|He] Hpos; [|now apply (I5 e)].
        exists (draws st). apply Hrej.
        destruct snapshot; [contradiction|]. cbn [List.length] in Hj. lia.
      * intros e [<-|He] Hsome; [|now apply (I6 e)]. cbn in Hsome. contradiction.
Qed.

Lemma dispatch_unfold (cfg : Config) (random : nat -> Q) (w : World) (n : nat) :
  (_dispatch_ride_internal cfg random w n = mkDispatchState w n [] /\
   (waiting_requests w = [] \/ all_available_drivers w = [])) \/
  (_dispatch_ride_internal cfg random w n =
     fold_left (dispatch_request cfg random (all_available_drivers w))
       (waiting_requests w) (mkDispatchState w n []) /\
   all_available_drivers w <> []).
Proof.
  unfold _dispatch_ride_internal.
  destruct (waiting_requests w) as [|r0 rs]; [left; auto|].
  destruct (all_available_drivers w) as [|k0 ks]; [left; auto|].
  right. split; [reflexivity | discriminate].
Qed.

(** X10.  The result list of [Dispatch] is well formed: every entry is
    about a request that was waiting at the start of the call, and is
    either assigned to a driver of the call-start snapshot after fewer
    refusals than the snapshot has drivers, or failed with no driver after
    exactly that many. *)
Theorem dispatch_results_well_formed (cfg : Config) (random : nat -> Q)
    (w : World) (n : nat) (e : DispatchResult.t) :
  In e (results (_dispatch_ride_internal cfg random w n)) ->
  result_ok (all_available_drivers w) e /\
  In (DispatchResult.request_id e) (waiting_requests w).
Proof.
  destruct (dispatch_unfold cfg random w n) as [[-> Hempty]|[-> Hsome]].
  - cbn [results]. intros [].
  - destruct (dispatch_fold_trace cfg random (all_available_drivers w) Hsome
                (waiting_requests w) (mkDispatchState w n [])
                (snapshot_resolves w) (waiting_resolves w))
      as (new & E & Hids & Hok & _).
    cbn [results app] in E. rewrite E. intro He.
    split; [now apply Hok|].
    rewrite <- Hids. now apply in_map.
Qed.

(** The second entry of the sample data's call in which the second
    request's best driver refuses. *)
Lemma dispatch_results_well_formed_witness :
  result_ok (all_available_drivers sample_world)
    (DispatchResult.mk 2 (Some 1%Z) 1 "assigned") /\
  In 2%Z (waiting_requests sample_world).
Proof.
  apply (dispatch_results_well_formed default_config second_offer_rejected sample_world 0
           (DispatchResult.mk 2 (Some 1%Z) 1 "assigned")).
  vm_compute. right. left. reflexivity.
Defined.


(** X12.  With a rejection rate of 0 (and draws that are not negative), no
    offer is refused: every entry of the results is an assignment with
    [attempts] 0, and none is a failure. *)
Theorem dispatch_never_rejecting (cfg : Config) (random : nat -> Q)
    (w : World) (n : nat) (e : DispatchResult.t) :
  REJECTION_RATE cfg <= 0 ->
  (forall i, 0 <= random i) ->
  In e (results (_dispatch_ride_internal cfg random w n)) ->
  DispatchResult.status e = "assigned"%string /\
  DispatchResult.attempts e = 0%Z /\
  DispatchResult.assigned_driver_id e <> None.
Proof.
  intros Hrate Hrand.
  destruct (dispatch_unfold cfg random w n) as [[-> Hempty]|[-> Hsome]].
  - cbn [results]. intros [].
  - destruct (dispatch_fold_trace cfg random (all_available_drivers w) Hsome
                (waiting_requests w) (mkDispatchState w n [])
                (snapshot_resolves w) (waiting_resolves w))
      as (new & E & Hids & Hok & _ & Hrej & _).
    cbn [results app] in E. rewrite E. intro He.
    assert (Hzero : ~ (0 < DispatchResult.attempts e)%Z).
    { intro Hpos. destruct (Hrej e He Hpos) as (i & Hi).
      rewrite (never_rejects cfg random i Hrate Hrand) in Hi. discriminate Hi. }
    destruct (Hok e He) as [(Hst & (b & Hb & _) & Hrange)|(Hst & _ & Hatt)].
    + split; [exact Hst|]. split; [lia|]. rewrite Hb. discriminate.
    + exfalso. apply Hzero. rewrite Hatt.
      destruct (all_available_drivers w); [contradiction|]. cbn [List.length]. lia.
Qed.

(** The first entry of the sample data's call. *)
Lemma dispatch_never_rejecting_witness :
  let e := DispatchResult.mk 1 (Some 1%Z) 0 "assigned" in
  DispatchResult.status e = "assigned"%string /\
  DispatchResult.attempts e = 0%Z /\
  DispatchResult.assigned_driver_id e <> None.
Proof.
  cbv zeta.
  apply (dispatch_never_rejecting scenario_A_config (fun _ => 1 # 2) sample_world 0).
  - cbn. discriminate.
  - intro i. cbn. discriminate.
  - vm_compute. left. reflexivity.
Defined.

(** ** What a dispatch leaves alone *)

Lemma fold_left_invariant_in {A B : Type} (f : A -> B -> A) (P : A -> Prop)
    (l : list B) (a : A) :
  P a -> (forall a b, In b l -> P a -> P (f a b)) -> P (fold_left f l a).
Proof.
  revert a. induction l as [|b l IH]; intros a Ha Hstep; simpl; [assumption|].
  apply IH.
  - apply Hstep; [now left | assumption].
  - intros a' b' Hin. apply Hstep. now right.
Qed.

Lemma dispatch_request_idle (cfg : Config) (random : nat -> Q) (snapshot : list Z)
    (st : DispatchState) (request_id : Z) :
  snapshot = [] \/ get_request request_id (requests (world st)) = None ->
  dispatch_request cfg random snapshot st request_id = st.
Proof.
  intros [->|E]; unfold dispatch_request.
  - now destruct (get_request request_id (requests (world st))).
  - now rewrite E.
Qed.

(** X13.  [Dispatch] rewrites nothing but assignments: the time counter
    and the riders are untouched; every driver keeps its id and position,
    and a driver outside the call-start snapshot is untouched; every
    request keeps its id, rider, coordinates and [picked_up] flag, and a
    request whose id is not that of a waiting request is untouched. *)
Theorem dispatch_frame (cfg : Config) (random : nat -> Q) (w : World) (n : nat) :
  let w' := world (_dispatch_ride_internal cfg random w n) in
  current_time w' = current_time w /\
  riders w' = riders w /\
  Forall2 (fun d d' =>
             Driver.set_assigned_request_id (Driver.assigned_request_id d)
               (Driver.set_status (Driver.status d) d') = d /\
             (~ In (Driver.id d) (all_available_drivers w) -> d' = d))
          (drivers w) (drivers w') /\
  Forall2 (fun r r' =>
             RideRequest.set_assigned_driver_id (RideRequest.assigned_driver_id r)
               (RideRequest.set_attempts (RideRequest.attempts r)
                  (RideRequest.set_status (RideRequest.status r) r')) = r /\
             (~ In (RideRequest.id r) (waiting_requests w) -> r' = r))
          (requests w) (requests w').
Proof.
  cbv zeta.
  set (Rd := fun d d' : Driver.t =>
               Driver.set_assigned_request_id (Driver.assigned_request_id d)
                 (Driver.set_status (Driver.status d) d') = d /\
               (~ In (Driver.id d) (all_available_drivers w) -> d' = d)).
  set (Rr := fun r r' : RideRequest.t =>
               RideRequest.set_assigned_driver_id (RideRequest.assigned_driver_id r)
                 (RideRequest.set_attempts (RideRequest.attempts r)
                    (RideRequest.set_status (RideRequest.status r) r')) = r /\
               (~ In (RideRequest.id r) (waiting_requests w) -> r' = r)).
  assert (Hinit : Forall2 Rd (drivers w) (drivers w) /\ Forall2 Rr (requests w) (requests w)).
  { split; apply Forall2_same; intros []; split; reflexivity. }
  destruct (dispatch_unfold cfg random w n) as [[-> _]|[-> Hsome]].
  { cbn [world]. destruct Hinit. auto. }
  set (P := fun st : DispatchState =>
              (forall k, In k (all_available_drivers w) ->
                         get_driver k (drivers (world st)) <> None) /\
              current_time (world st) = current_time w /\
              riders (world st) = riders w /\
              Forall2 Rd (drivers w) (drivers (world st)) /\
              Forall2 Rr (requests w) (requests (world st))).
  assert (H : P (fold_left (dispatch_request cfg random (all_available_drivers w))
                   (waiting_requests w) (mkDispatchState w n []))).
  { apply fold_left_invariant_in.
    - unfold P. cbn [world]. destruct Hinit. repeat split; auto using snapshot_resolves.
    - intros st rid Hrid (H0 & H1 & H2 & H3 & H4).
      destruct (get_request rid (requests (world st))) as [request|] eqn:Ereq.
      2:{ rewrite dispatch_request_idle by auto. unfold P. auto. }
      assert (Hreq : get_request rid (requests (world st)) <> None) by congruence.
      assert (Hrs : forall g,
        (forall r', RideRequest.set_assigned_driver_id (RideRequest.assigned_driver_id r')
                      (RideRequest.set_attempts (RideRequest.attempts r')
                         (RideRequest.set_status (RideRequest.status r') (g r'))) = r') ->
        Forall2 Rr (requests w) (update_request rid g (requests (world st)))).
      { intros g Hg. apply Forall2_map_r; [|exact H4].
        intros r r' [Hs Hu]. unfold Rr.
        destruct (Z.eqb_spec (RideRequest.id r') rid) as [Eid|_]; [|auto].
        pose proof (f_equal RideRequest.id Hs) as Hid. cbn in Hid.
        split.
        - rewrite <- Hs at 4. specialize (Hg r').
          rewrite <- Hg at 2. reflexivity.
        - intro Hnot. exfalso. apply Hnot. rewrite <- Hid, Eid. exact Hrid. }
      destruct (dispatch_request_trace cfg random (all_available_drivers w) st rid
                  Hsome H0 Hreq)
        as (j & st0 & Hw & _ & _ & _ & [(b & _ & _ & Hb & E)|(_ & E)]); rewrite E.
      + unfold P, accept_offer.
        cbn [world current_time riders drivers requests with_drivers with_requests].
        rewrite Hw. split; [|split; [|split; [|split]]]; try assumption.
        * intros k Hk. apply get_driver_update_resolves; [reflexivity | now apply H0].
        * apply Forall2_map_r; [|exact H3].
          intros d d' [Hs Hu]. unfold Rd.
          destruct (Z.eqb_spec (Driver.id d') b) as [Eid|_]; [|auto].
          pose proof (f_equal Driver.id Hs) as Hid. cbn in Hid.
          split; [exact Hs|].
          intro Hnot. exfalso. apply Hnot. rewrite <- Hid, Eid. exact Hb.
        * apply Hrs. intros []. reflexivity.
      + unfold P, fail_request.
        cbn [world current_time riders drivers requests with_requests].
        rewrite Hw. split; [|split; [|split; [|split]]]; try assumption.
        apply Hrs. intros []. reflexivity. }
  destruct H as (_ & H1 & H2 & H3 & H4). auto.
Qed.

(** ** Pickup *)

(** X15.  A driver that is on trip for a request not yet picked up, and
    already stands on the pickup point, spends the iteration on the pickup
    alone: [reached_pickup] is emitted and [picked_up] set, the driver does
    not move, and nothing else in the store changes. *)
Theorem tick_pickup_on_the_spot (cfg : Config) (w : World) (evs : list TickEvent.t)
    (k rid : Z) (d : Driver.t) (request : RideRequest.t) :
  get_driver k (drivers w) = Some d ->
  Driver.status d = ON_TRIP ->
  Driver.assigned_request_id d = Some rid ->
  rid <> 0%Z ->
  get_request rid (requests w) = Some request ->
  RideRequest.picked_up request = false ->
  Driver.x d == RideRequest.pickup_x request ->
  Driver.y d == RideRequest.pickup_y request ->
  tick_driver cfg (w, evs) k =
    (mark_picked_up rid w, evs ++ [TickEvent.mk k rid "reached_pickup"]) /\
  drivers (mark_picked_up rid w) = drivers w /\
  get_request rid (requests (mark_picked_up rid w)) =
    Some (RideRequest.set_picked_up true request).
Proof.
  intros Hd Hon Has Hrid Hreq Hpk Hx Hy.
  split; [|split].
  - destruct (tick_driver_cases cfg w evs k)
      as [E|(driver & rid' & request' & Hd' & _ & Has' & _ & Hreq' & Hcases)].
    + exfalso. revert E. unfold tick_driver.
      rewrite Hd, Hon, Has. cbn [DriverStatus_eqb andb truthy].
      destruct (Z.eqb_spec rid 0) as [|_]; [contradiction|]. cbn [negb].
      rewrite Hreq, Hpk. cbn [negb].
      assert (Enear : Qlt_bool 0
                (calculate_manhattan_distance (Driver.x d) (Driver.y d)
                   (RideRequest.pickup_x request) (RideRequest.pickup_y request)) = false)
        by (apply manhattan_positive_false; auto).
      assert (Ez : Qeq_bool
                (calculate_manhattan_distance (Driver.x d) (Driver.y d)
                   (RideRequest.pickup_x request) (RideRequest.pickup_y request)) 0 = true)
        by (apply manhattan_zero_bool; auto).
      rewrite Enear, Ez. intro E. injection E as _ E.
      apply (f_equal (@List.length _)) in E. rewrite length_app in E. cbn in E. lia.
    + rewrite Hd in Hd'. injection Hd' as <-.
      rewrite Has in Has'. injection Has' as <-.
      rewrite Hreq in Hreq'. injection Hreq' as <-.
      destruct Hcases as [(_ & _ & _ & E)|[(nx & ny & _ & Hfar & _)|(nx & ny & Ht & _)]].
      * exact E.
      * exfalso. apply Hfar. auto.
      * congruence.
  - reflexivity.
  - rewrite get_request_mark_picked_up, Z.eqb_refl, Hreq. reflexivity.
Qed.

Lemma tick_pickup_on_the_spot_witness :
  let w := mkWorld [ Driver.mk 1 2 2 ON_TRIP (Some 1%Z) ] [ Rider.mk 1 2 2 8 8 ]
             [ RideRequest.mk 1 1 2 2 8 8 ASSIGNED 0 (Some 1%Z) false ] 0 in
  tick_driver default_config (w, []) 1 =
    (mark_picked_up 1 w, [TickEvent.mk 1 1 "reached_pickup"]).
Proof.
  cbv zeta.
  apply (tick_pickup_on_the_spot default_config
           (mkWorld [ Driver.mk 1 2 2 ON_TRIP (Some 1%Z) ] [ Rider.mk 1 2 2 8 8 ]
              [ RideRequest.mk 1 1 2 2 8 8 ASSIGNED 0 (Some 1%Z) false ] 0)
           [] 1 1 (Driver.mk 1 2 2 ON_TRIP (Some 1%Z))
           (RideRequest.mk 1 1 2 2 8 8 ASSIGNED 0 (Some 1%Z) false));
    try reflexivity.
  discriminate.
Defined.

(** ** Status overview *)

Lemma count_drivers_partition (ds : list Driver.t) :
  (count_drivers AVAILABLE ds + count_drivers ON_TRIP ds + count_drivers OFFLINE ds
   = List.length ds)%nat.
Proof.
  unfold count_drivers. induction ds as [|d ds IH]; [reflexivity|].
  cbn [filter List.length]. destruct (Driver.status d); cbn [DriverStatus_eqb List.length]; lia.
Qed.

Lemma count_requests_partition (rs : list RideRequest.t) :
  (count_requests WAITING rs + count_requests ASSIGNED rs + count_requests COMPLETED rs
   + count_requests FAILED rs + count_requests REJECTED rs = List.length rs)%nat.
Proof.
  unfold count_requests. induction rs as [|r rs IH]; [reflexivity|].
  cbn [filter List.length].
  destruct (RideRequest.status r); cbn [RequestStatus_eqb List.length]; lia.
Qed.

(** X16.  In the status overview the three driver counts add up to the
    driver total; the four request counts add up to the request total less
    the requests in status [REJECTED], which the overview does not
    report. *)
Theorem status_counts_add_up (w : World) :
  let s := get_system_status w in
  (Status.drivers_available s + Status.drivers_on_trip s + Status.drivers_offline s
   = Status.drivers_total s)%nat /\
  (Status.requests_waiting s + Status.requests_assigned s + Status.requests_completed s
   + Status.requests_failed s + count_requests REJECTED (requests w)
   = Status.requests_total s)%nat.
Proof.
  cbv zeta. unfold get_system_status. cbn.
  split; [apply count_drivers_partition | apply count_requests_partition].
Qed.

(** ** Dictionary writes and lookups *)

Lemma find_dict_set {A : Type} (key : A -> Z) (v : A) (l : list A) (k : Z) :
  find (fun a => (key a =? k)%Z) (dict_set key v l) =
  if (key v =? k)%Z then Some v else find (fun a => (key a =? k)%Z) l.
Proof.
  unfold dict_set.
  destruct (existsb (fun a => (key a =? key v)%Z) l) eqn:Ex.
  - induction l as [|a l IH]; [discriminate Ex|].
    cbn [existsb] in Ex. cbn [map find].
    destruct (Z.eqb_spec (key a) (key v)) as [E|E].
    + destruct (Z.eqb_spec (key v) k) as [Ek|Ek]; [reflexivity|].
      rewrite E. destruct (Z.eqb_spec (key v) k) as [|_]; [contradiction|].
      cbn [orb] in Ex.
      clear IH. induction l as [|b l IH]; [reflexivity|].
      cbn [map find].
      destruct (Z.eqb_spec (key b) (key v)) as [Eb|Eb].
      * destruct (Z.eqb_spec (key v) k) as [|_]; [contradiction|].
        rewrite Eb. destruct (Z.eqb_spec (key v) k) as [|_]; [contradiction|]. exact IH.
      * destruct (key b =? k)%Z; [reflexivity | exact IH].
    + cbn [orb] in Ex. rewrite (IH Ex).
      destruct (Z.eqb_spec (key a) k) as [Ea|Ea]; [|reflexivity].
      destruct (Z.eqb_spec (key v) k) as [Ev|_]; [congruence | reflexivity].
  - assert (Hno : forall a, In a l -> (key a =? key v)%Z = false).
    { intros a Hin. destruct (key a =? key v)%Z eqn:E; [|reflexivity].
      assert (existsb (fun a => (key a =? key v)%Z) l = true)
        by (apply existsb_exists; eauto).
      congruence. }
    clear Ex. induction l as [|a l IH].
    + cbn. now destruct (key v =? k)%Z.
    + cbn [app find].
      assert (Ha : (key a =? key v)%Z = false) by (apply Hno; now left).
      rewrite IH by (intros b Hb; apply Hno; now right).
      destruct (Z.eqb_spec (key a) k) as [Ea|Ea]; [|reflexivity].
      apply Z.eqb_neq in Ha.
      destruct (Z.eqb_spec (key v) k) as [Ev|_]; [congruence | reflexivity].
Qed.

Lemma dict_set_length {A : Type} (key : A -> Z) (v : A) (l : list A) :
  List.length (dict_set key v l) =
  match find (fun a => (key a =? key v)%Z) l with
  | Some _ => List.length l
  | None => S (List.length l)
  end.
Proof.
  unfold dict_set.
  destruct (existsb (fun a => (key a =? key v)%Z) l) eqn:Ex.
  - rewrite length_map.
    destruct (find (fun a => (key a =? key v)%Z) l) eqn:Ef; [reflexivity|].
    apply existsb_exists in Ex. destruct Ex as (a & Hin & Ha).
    pose proof (find_none _ _ Ef a Hin) as Hn. cbv beta in Hn. congruence.
  - rewrite length_app. cbn [List.length].
    destruct (find (fun a => (key a =? key v)%Z) l) eqn:Ef; [|lia].
    apply find_some in Ef. destruct Ef as [Hin Ha].
    assert (existsb (fun a => (key a =? key v)%Z) l = true)
      by (apply existsb_exists; eauto).
    congruence.
Qed.

Lemma dict_set_keys {A : Type} (key : A -> Z) (v : A) (l : list A) :
  NoDup (map key l) -> NoDup (map key (dict_set key v l)).
Proof.
  intro Hnd. unfold dict_set.
  destruct (existsb (fun a => (key a =? key v)%Z) l) eqn:Ex.
  - rewrite map_map.
    replace (map (fun a => key (if (key a =? key v)%Z then v else a)) l) with (map key l);
      [exact Hnd|].
    apply map_ext. intro a. destruct (Z.eqb_spec (key a) (key v)); congruence.
  - rewrite map_app. cbn [map].
    apply NoDup_app_remove_l with (l := []). cbn [app].
    assert (Hnot : ~ In (key v) (map key l)).
    { intro Hin. apply in_map_iff in Hin. destruct Hin as (a & Ha & Hin).
      assert (existsb (fun a => (key a =? key v)%Z) l = true).
      { apply existsb_exists. exists a. split; [exact Hin|]. now apply Z.eqb_eq. }
      congruence. }
    clear Ex. induction l as [|a l IH]; cbn [map app].
    + constructor; [intros [] | constructor].
    + inversion Hnd as [|? ? Hna Hnd']; subst. constructor.
      * rewrite in_app_iff. intros [H|[H|[]]]; [contradiction|].
        apply Hnot. left. congruence.
      * apply IH; [exact Hnd'|]. intro H. apply Hnot. now right.
Qed.

Lemma find_dict_del {A : Type} (key : A -> Z) (k' : Z) (l : list A) (k : Z) :
  find (fun a => (key a =? k)%Z) (dict_del key k' l) =
  if (k =? k')%Z then None else find (fun a => (key a =? k)%Z) l.
Proof.
  unfold dict_del. induction l as [|a l IH].
  - cbn. now destruct (k =? k')%Z.
  - cbn [filter find].
    destruct (Z.eqb_spec (key a) k') as [E|E]; cbn [negb find].
    + rewrite IH. destruct (Z.eqb_spec k k') as [|Hne]; [reflexivity|].
      destruct (Z.eqb_spec (key a) k); [congruence | reflexivity].
    + rewrite IH. destruct (Z.eqb_spec (key a) k) as [Ea|Ea]; [|reflexivity].
      destruct (Z.eqb_spec k k'); [congruence | reflexivity].
Qed.

Lemma dict_del_length {A : Type} (key : A -> Z) (k : Z) (l : list A) :
  NoDup (map key l) -> find (fun a => (key a =? k)%Z) l <> None ->
  S (List.length (dict_del key k l)) = List.length l.
Proof.
  unfold dict_del. induction l as [|a l IH]; intros Hnd Hfound; [now cbn in Hfound|].
  inversion Hnd as [|? ? Hna Hnd']; subst. cbn [filter find List.length] in *.
  destruct (Z.eqb_spec (key a) k) as [E|E]; cbn [negb List.length].
  - f_equal. f_equal. apply forallb_filter_id.
    apply forallb_forall. intros b Hb. apply negb_true_iff, Z.eqb_neq.
    intro Hk. apply Hna. rewrite E, <- Hk. now apply in_map.
  - f_equal. now apply IH.
Qed.

(** ** Drivers router *)

(** X17.  [create_driver] stores the new driver, unassigned, under the
    value of the router's counter and moves that counter on by one.
    Looking that key up returns the new driver and every other key is as
    before; if the key was in use its driver is replaced and the number of
    drivers stays the same, otherwise it grows by one.  Unique keys stay
    unique; riders, requests, the time and the dispatch module's own
    counter are untouched. *)
Theorem create_driver_stores (s : System) (driver_request : DriversRouter.DriverCreate) :
  let new_id := drivers_router_counter s in
  let s' := fst (DriversRouter.create_driver s driver_request) in
  let d := snd (DriversRouter.create_driver s driver_request) in
  d = Driver.mk new_id (DriversRouter.x driver_request) (DriversRouter.y driver_request)
        (DriversRouter.status driver_request) None /\
  (forall k, get_driver k (drivers (store s')) =
             if (new_id =? k)%Z then Some d else get_driver k (drivers (store s))) /\
  List.length (drivers (store s')) =
    match get_driver new_id (drivers (store s)) with
    | Some _ => List.length (drivers (store s))
    | None => S (List.length (drivers (store s)))
    end /\
  (NoDup (map Driver.id (drivers (store s))) ->
   NoDup (map Driver.id (drivers (store s')))) /\
  drivers_router_counter s' = (new_id + 1)%Z /\
  driver_counter s' = driver_counter s /\
  riders (store s') = riders (store s) /\
  requests (store s') = requests (store s) /\
  current_time (store s') = current_time (store s).
Proof.
  cbv zeta. unfold DriversRouter.create_driver, DriversRouter._create_driver_internal.
  cbn [fst snd store drivers riders requests current_time with_drivers
         drivers_router_counter driver_counter].
  split; [reflexivity|]. split; [|split; [|split]].
  - intro k. unfold get_driver. now rewrite find_dict_set.
  - now rewrite dict_set_length.
  - apply dict_set_keys.
  - repeat split.
Qed.

(** [init_sample_data] builds the sample store whatever was there before;
    only the time counter and the routers' counters survive. *)
Lemma init_sample_data_store (s : System) :
  fst (init_sample_data s) =
  mkSystem
    (mkWorld (drivers sample_world) (riders sample_world) (requests sample_world)
       (current_time (store s)))
    4 3 3
    (drivers_router_counter s) (riders_router_counter s) (requests_router_counter s).
Proof. reflexivity. Qed.

(** X18.  The sample data and the drivers router draw ids from different
    counters.  [init_sample_data] numbers its drivers 1 to 3 from the
    dispatch module's counter and leaves the router's counter where it was;
    so when the router's counter is still in that range (as it is in a
    fresh process), the next [create_driver] reuses the id of a sample
    driver and replaces it: there are still three drivers, and the key
    now holds the new one. *)
Theorem create_driver_after_init_replaces (s : System)
    (driver_request : DriversRouter.DriverCreate) :
  (1 <= drivers_router_counter s <= 3)%Z ->
  let s1 := fst (init_sample_data s) in
  let s2 := fst (DriversRouter.create_driver s1 driver_request) in
  let d := snd (DriversRouter.create_driver s1 driver_request) in
  Driver.id d = drivers_router_counter s /\
  get_driver (Driver.id d) (drivers (store s1)) <> None /\
  List.length (drivers (store s2)) = 3%nat /\
  DriversRouter.get_driver s2 (Driver.id d) = Ok d.
Proof.
  intros Hrange. cbv zeta. rewrite init_sample_data_store.
  unfold DriversRouter.create_driver, DriversRouter._create_driver_internal,
    DriversRouter.get_driver.
  cbn [fst snd store drivers with_drivers drivers_router_counter Driver.id].
  assert (Hfound : get_driver (drivers_router_counter s) (drivers sample_world) <> None).
  { assert (Hk : drivers_router_counter s = 1%Z \/ drivers_router_counter s = 2%Z \/
                 drivers_router_counter s = 3%Z) by lia.
    destruct Hk as [E | [E | E]]; rewrite E; discriminate. }
  split; [reflexivity|]. split; [exact Hfound|]. split.
  - rewrite dict_set_length. cbn [Driver.id]. fold (get_driver (drivers_router_counter s)
      (drivers sample_world)).
    destruct (get_driver (drivers_router_counter s) (drivers sample_world));
      [reflexivity | contradiction].
  - unfold get_driver. rewrite find_dict_set. cbn [Driver.id].
    now rewrite Z.eqb_refl.
Qed.

Lemma create_driver_after_init_replaces_witness :
  let s1 := fst (init_sample_data startup) in
  let req := DriversRouter.mkDriverCreate 9 9 AVAILABLE in
  let s2 := fst (DriversRouter.create_driver s1 req) in
  List.length (drivers (store s2)) = 3%nat /\
  DriversRouter.get_driver s2 1 = Ok (Driver.mk 1 9 9 AVAILABLE None).
Proof.
  cbv zeta.
  destruct (create_driver_after_init_replaces startup
              (DriversRouter.mkDriverCreate 9 9 AVAILABLE)) as (_ & _ & H3 & H4).
  - cbn. lia.
  - split; [exact H3 | exact H4].
Defined.

(** X19.  [delete_driver] answers 404 for a key that is not stored and
    changes nothing.  For a stored key it removes exactly that driver:
    the key is then not found, every other key is as before, and the
    requests are untouched, so a request assigned to the deleted driver
    keeps naming it. *)
Theorem delete_driver_removes (s : System) (driver_id : Z) :
  (get_driver driver_id (drivers (store s)) = None ->
   DriversRouter.delete_driver s driver_id = HTTPException 404 "Driver not found") /\
  (get_driver driver_id (drivers (store s)) <> None ->
   exists s',
     DriversRouter.delete_driver s driver_id = Ok (s', "Driver deleted successfully"%string) /\
     DriversRouter.get_driver s' driver_id = HTTPException 404 "Driver not found" /\
     (forall k, k <> driver_id ->
        get_driver k (drivers (store s')) = get_driver k (drivers (store s))) /\
     (NoDup (map Driver.id (drivers (store s))) ->
      S (List.length (drivers (store s'))) = List.length (drivers (store s))) /\
     requests (store s') = requests (store s) /\
     riders (store s') = riders (store s)).
Proof.
  unfold DriversRouter.delete_driver, DriversRouter.get_driver. split.
  - intros ->. reflexivity.
  - intro Hfound.
    destruct (get_driver driver_id (drivers (store s))) as [d|] eqn:Ed; [|contradiction].
    eexists. split; [reflexivity|].
    cbn [store with_store drivers riders requests with_drivers].
    unfold get_driver in *. split; [|split; [|split]].
    + now rewrite find_dict_del, Z.eqb_refl.
    + intros k Hk. rewrite find_dict_del.
      destruct (Z.eqb_spec k driver_id); [contradiction | reflexivity].
    + intro Hnd. apply dict_del_length; [exact Hnd|]. now rewrite Ed.
    + split; reflexivity.
Qed.

Lemma delete_driver_removes_witness :
  exists s',
    DriversRouter.delete_driver (fst (init_sample_data startup)) 2
      = Ok (s', "Driver deleted successfully"%string) /\
    DriversRouter.get_driver s' 2 = HTTPException 404 "Driver not found".
Proof.
  destruct (delete_driver_removes (fst (init_sample_data startup)) 2) as [_ H].
  destruct H as (s' & H1 & H2 & _).
  - discriminate.
  - exists s'. split; assumption.
Defined.

(** X20.  [update_driver_status] answers 404 for a key that is not stored.
    For a stored driver it changes the status and nothing else: position
    and [assigned_request_id] are kept (also when an on-trip driver is made
    available or taken offline), the other drivers, the number of drivers
    and the requests are as before. *)
Theorem update_driver_status_only_status (s : System) (driver_id : Z)
    (status : DriverStatus) :
  (get_driver driver_id (drivers (store s)) = None ->
   DriversRouter.update_driver_status s driver_id status
     = HTTPException 404 "Driver not found") /\
  (forall d, get_driver driver_id (drivers (store s)) = Some d ->
   exists s',
     DriversRouter.update_driver_status s driver_id status
       = Ok (s', Driver.set_status status d) /\
     get_driver driver_id (drivers (store s')) = Some (Driver.set_status status d) /\
     (forall k, k <> driver_id ->
        get_driver k (drivers (store s')) = get_driver k (drivers (store s))) /\
     List.length (drivers (store s')) = List.length (drivers (store s)) /\
     requests (store s') = requests (store s)).
Proof.
  unfold DriversRouter.update_driver_status, DriversRouter._update_driver_status_internal.
  split.
  - intros ->. reflexivity.
  - intros d Hd. rewrite Hd.
    destruct (get_driver_some _ _ _ Hd) as [_ Hid].
    assert (E : Driver.mk driver_id (Driver.x d) (Driver.y d) status
                  (Driver.assigned_request_id d) = Driver.set_status status d).
    { unfold Driver.set_status. now rewrite Hid. }
    rewrite E. eexists. split; [reflexivity|].
    cbn [store with_store drivers requests with_drivers].
    assert (Ek : Driver.id (Driver.set_status status d) = driver_id) by exact Hid.
    unfold get_driver in *. split; [|split; [|split]].
    + now rewrite find_dict_set, Ek, Z.eqb_refl.
    + intros k Hk. rewrite find_dict_set, Ek.
      destruct (Z.eqb_spec driver_id k); [congruence | reflexivity].
    + rewrite dict_set_length, Ek, Hd. reflexivity.
    + reflexivity.
Qed.

Lemma update_driver_status_only_status_witness :
  exists s',
    DriversRouter.update_driver_status (fst (init_sample_data startup)) 1 OFFLINE
      = Ok (s', Driver.mk 1 0 0 OFFLINE None).
Proof.
  destruct (update_driver_status_only_status (fst (init_sample_data startup)) 1 OFFLINE)
    as [_ H].
  destruct (H (Driver.mk 1 0 0 AVAILABLE None) eq_refl) as (s' & H1 & _).
  exists s'. exact H1.
Defined.

(** ** Requests router *)

(** X21.  [create_request] answers 400 when the rider is not stored.
    Otherwise the new request gets the router's counter as id, the
    coordinates given in the call, status [WAITING], no attempts, no
    driver and [picked_up] false; it can be looked up under its id and is
    among the waiting requests the next [Dispatch] will process; the
    router's counter moves on by one and drivers and riders are
    untouched. *)
Theorem create_request_stores (s : System)
    (request_data : RequestsRouter.RideRequestCreate) :
  (get_rider (RequestsRouter.rider_id request_data) (riders (store s)) = None ->
   RequestsRouter.create_request s request_data = HTTPException 400 "Rider not found") /\
  (get_rider (RequestsRouter.rider_id request_data) (riders (store s)) <> None ->
   exists s',
     let r := RideRequest.mk (requests_router_counter s)
                (RequestsRouter.rider_id request_data)
                (RequestsRouter.pickup_x request_data) (RequestsRouter.pickup_y request_data)
                (RequestsRouter.dropoff_x request_data) (RequestsRouter.dropoff_y request_data)
                WAITING 0 None false in
     RequestsRouter.create_request s request_data = Ok (s', r) /\
     RequestsRouter.get_request s' (RideRequest.id r) = Ok r /\
     In (RideRequest.id r) (waiting_requests (store s')) /\
     (forall k, k <> RideRequest.id r ->
        get_request k (requests (store s')) = get_request k (requests (store s))) /\
     requests_router_counter s' = (requests_router_counter s + 1)%Z /\
     drivers (store s') = drivers (store s) /\
     riders (store s') = riders (store s)).
Proof.
  unfold RequestsRouter.create_request, RequestsRouter._create_request_internal. split.
  - intros ->. reflexivity.
  - intro Hfound.
    destruct (get_rider (RequestsRouter.rider_id request_data) (riders (store s)));
      [|contradiction].
    eexists. cbv zeta. split; [reflexivity|].
    unfold RequestsRouter.get_request.
    cbn [store drivers riders requests with_requests requests_router_counter RideRequest.id].
    assert (Hget : forall k,
      get_request k
        (dict_set RideRequest.id
           (RideRequest.mk (requests_router_counter s)
              (RequestsRouter.rider_id request_data)
              (RequestsRouter.pickup_x request_data) (RequestsRouter.pickup_y request_data)
              (RequestsRouter.dropoff_x request_data) (RequestsRouter.dropoff_y request_data)
              WAITING 0 None false)
           (requests (store s))) =
      if (requests_router_counter s =? k)%Z
      then Some (RideRequest.mk (requests_router_counter s)
              (RequestsRouter.rider_id request_data)
              (RequestsRouter.pickup_x request_data) (RequestsRouter.pickup_y request_data)
              (RequestsRouter.dropoff_x request_data) (RequestsRouter.dropoff_y request_data)
              WAITING 0 None false)
      else get_request k (requests (store s))).
    { intro k. unfold get_request. now rewrite find_dict_set. }
    split; [|split; [|split]].
    + now rewrite Hget, Z.eqb_refl.
    + pose proof (Hget (requests_router_counter s)) as H. rewrite Z.eqb_refl in H.
      apply get_request_some in H. destruct H as [Hin _].
      apply (waiting_member
               (with_requests
                  (dict_set RideRequest.id _ (requests (store s))) (store s)) _ Hin).
      reflexivity.
    + intros k Hk. rewrite Hget.
      destruct (Z.eqb_spec (requests_router_counter s) k); [congruence | reflexivity].
    + repeat split.
Qed.

Lemma create_request_stores_witness :
  exists s',
    RequestsRouter.create_request (fst (init_sample_data startup))
      (RequestsRouter.mkRideRequestCreate 2 1 1 3 3)
    = Ok (s', RideRequest.mk 1 2 1 1 3 3 WAITING 0 None false).
Proof.
  destruct (create_request_stores (fst (init_sample_data startup))
              (RequestsRouter.mkRideRequestCreate 2 1 1 3 3)) as [_ H].
  destruct H as (s' & H1 & _).
  - discriminate.
  - exists s'. exact H1.
Defined.

(** ** Manual accept *)

(** X22.  A manual accept of a waiting request by an available driver
    succeeds: the request is [ASSIGNED] to that driver with [attempts]
    reset to 0, the driver is [ON_TRIP] at its old position and points at
    the request; every other driver and request, the riders and the time
    are as before.  No score is computed: the driver is the one named in
    the call. *)
Theorem accept_request_assigns (w : World) (request_id driver_id : Z)
    (request : RideRequest.t) (driver : Driver.t) :
  get_request request_id (requests w) = Some request ->
  RideRequest.status request = WAITING ->
  get_driver driver_id (drivers w) = Some driver ->
  Driver.status driver = AVAILABLE ->
  exists w',
    let request' :=
      RideRequest.set_attempts 0
        (RideRequest.set_assigned_driver_id (Some driver_id)
           (RideRequest.set_status ASSIGNED request)) in
    RequestsRouter.accept_request w request_id driver_id = Ok (w', request') /\
    get_request request_id (requests w') = Some request' /\
    get_driver driver_id (drivers w') =
      Some (Driver.mk driver_id (Driver.x driver) (Driver.y driver) ON_TRIP
              (Some request_id)) /\
    (forall k, k <> driver_id -> get_driver k (drivers w') = get_driver k (drivers w)) /\
    (forall k, k <> request_id -> get_request k (requests w') = get_request k (requests w)) /\
    riders w' = riders w /\ current_time w' = current_time w.
Proof.
  intros Hreq Hwait Hdrv Hav.
  unfold RequestsRouter.accept_request, RequestsRouter._accept_request_internal.
  rewrite Hreq, Hwait, Hdrv, Hav. cbn [RequestStatus_eqb DriverStatus_eqb negb].
  destruct (get_driver_some _ _ _ Hdrv) as [_ Hid].
  eexists. cbv zeta. split; [reflexivity|].
  cbn [drivers requests riders current_time with_drivers with_requests].
  split; [|split; [|split; [|split]]].
  - rewrite get_request_update by reflexivity. now rewrite Z.eqb_refl, Hreq.
  - rewrite get_driver_update by reflexivity. rewrite Z.eqb_refl, Hdrv.
    cbn [option_map]. unfold Driver.set_assigned_request_id, Driver.set_status.
    cbn [Driver.id Driver.x Driver.y]. now rewrite Hid.
  - intros k Hk. now apply get_driver_update_other.
  - intros k Hk. rewrite get_request_update by reflexivity.
    destruct (Z.eqb_spec k request_id); [contradiction | reflexivity].
  - split; reflexivity.
Qed.

Lemma accept_request_assigns_witness :
  exists w',
    RequestsRouter.accept_request sample_world 1 2 =
    Ok (w', RideRequest.mk 1 1 2 2 8 8 ASSIGNED 0 (Some 2%Z) false).
Proof.
  destruct (accept_request_assigns sample_world 1 2 (new_request 1 1 2 2 8 8)
              (Driver.mk 2 5 5 AVAILABLE None) eq_refl eq_refl eq_refl eq_refl)
    as (w' & H & _).
  exists w'. exact H.
Defined.

(** X23.  The checks of the manual accept and reject endpoints, in the
    order the code makes them: an unknown request is a 404; a request that
    is not waiting is a 400; an unknown driver is a 404; and, for accept
    only, a driver that is not available is a 400.  A reject by a driver
    that is on trip or offline passes the checks. *)
Theorem accept_reject_checks (cfg : Config) (w : World) (request_id driver_id : Z) :
  (get_request request_id (requests w) = None ->
   RequestsRouter.accept_request w request_id driver_id
     = HTTPException 404 "Request not found" /\
   reject_request cfg w request_id driver_id = HTTPException 404 "Request not found") /\
  (forall request, get_request request_id (requests w) = Some request ->
   RideRequest.status request <> WAITING ->
   RequestsRouter.accept_request w request_id driver_id
     = HTTPException 400 "Request is not in waiting status" /\
   reject_request cfg w request_id driver_id
     = HTTPException 400 "Request is not in waiting status") /\
  (forall request, get_request request_id (requests w) = Some request ->
   RideRequest.status request = WAITING ->
   get_driver driver_id (drivers w) = None ->
   RequestsRouter.accept_request w request_id driver_id
     = HTTPException 404 "Driver not found" /\
   reject_request cfg w request_id driver_id = HTTPException 404 "Driver not found") /\
  (forall request driver, get_request request_id (requests w) = Some request ->
   RideRequest.status request = WAITING ->
   get_driver driver_id (drivers w) = Some driver ->
   Driver.status driver <> AVAILABLE ->
   RequestsRouter.accept_request w request_id driver_id
     = HTTPException 400 "Driver is not available" /\
   exists out, reject_request cfg w request_id driver_id = Ok out).
Proof.
  unfold RequestsRouter.accept_request, reject_request.
  split; [|split; [|split]].
  - intros ->. split; reflexivity.
  - intros request -> Hst.
    destruct (RideRequest.status request); try (split; reflexivity). contradiction.
  - intros request -> -> ->. split; reflexivity.
  - intros request driver Hreq Hst Hdrv Hna. rewrite Hreq, Hst, Hdrv.
    cbn [RequestStatus_eqb negb]. split.
    + destruct (Driver.status driver); try reflexivity. contradiction.
    + unfold _reject_request_internal. rewrite Hreq.
      destruct (find_best_driver cfg _ _ _); eexists; reflexivity.
Qed.

Lemma accept_reject_checks_witness :
  RequestsRouter.accept_request sample_world 1 3 = HTTPException 400 "Driver is not available" /\
  exists out, reject_request default_config sample_world 1 3 = Ok out.
Proof.
  destruct (accept_reject_checks default_config sample_world 1 3) as (_ & _ & _ & H).
  apply (H (new_request 1 1 2 2 8 8) (Driver.mk 3 10 10 OFFLINE None));
    try reflexivity.
  discriminate.
Defined.

(** ** Manual accept and reject keep back-references *)

(** Linking a driver that is not on trip to the requests stored under
    [rid] keeps every other link. *)
Lemma linked_assign (w : World) (k rid : Z) (d : Driver.t) (rs' : list RideRequest.t) :
  linked w ->
  get_driver k (drivers w) = Some d ->
  Driver.status d <> ON_TRIP ->
  (forall r', In r' rs' ->
     (RideRequest.id r' = rid /\ RideRequest.assigned_driver_id r' = Some k) \/
     In r' (requests w)) ->
  linked
    (with_drivers
       (update_driver k
          (fun d => Driver.set_assigned_request_id (Some rid) (Driver.set_status ON_TRIP d))
          (drivers w))
       (with_requests rs' w)).
Proof.
  intros Hl Hd Hidle Hrs r' Hin Hst.
  cbn [drivers requests with_drivers with_requests] in *.
  destruct (Hrs r' Hin) as [[Hid Hadi]|Hold].
  - exists k. eexists. split; [exact Hadi|].
    rewrite get_driver_update by reflexivity. rewrite Z.eqb_refl, Hd. cbn [option_map].
    split; [reflexivity|]. split; [reflexivity|]. cbn. now rewrite Hid.
  - destruct (Hl r' Hold Hst) as (k0 & d0 & Hadi & Hget & Hon & Has).
    exists k0, d0. split; [exact Hadi|].
    rewrite get_driver_update_other; [auto | reflexivity |].
    intros ->. rewrite Hd in Hget. injection Hget as <-. contradiction.
Qed.

Lemma linked_requests (w : World) (rs' : list RideRequest.t) :
  linked w ->
  (forall r', In r' rs' -> RideRequest.status r' <> ASSIGNED \/ In r' (requests w)) ->
  linked (with_requests rs' w).
Proof.
  intros Hl Hrs r' Hin Hst. cbn [drivers requests with_requests] in *.
  destruct (Hrs r' Hin) as [Hno|Hold]; [contradiction|].
  exact (Hl r' Hold Hst).
Qed.

(** X24.  A successful manual accept keeps back-reference symmetry: with
    unique driver keys, if every assigned request and its driver point at
    each other before the call, they do after it. *)
Theorem accept_keeps_back_references (w w' : World) (request_id driver_id : Z)
    (request' : RideRequest.t) :
  NoDup (map Driver.id (drivers w)) ->
  back_reference_ok w = true ->
  RequestsRouter.accept_request w request_id driver_id = Ok (w', request') ->
  back_reference_ok w' = true.
Proof.
  intros Hnd Hok. apply back_reference_ok_iff_linked in Hok; [|exact Hnd].
  unfold RequestsRouter.accept_request, RequestsRouter._accept_request_internal.
  destruct (get_request request_id (requests w)) as [request|]; [|discriminate].
  destruct (negb (RequestStatus_eqb (RideRequest.status request) WAITING)); [discriminate|].
  destruct (get_driver driver_id (drivers w)) as [driver|] eqn:Hd; [|discriminate].
  destruct (Driver.status driver) eqn:Hst; cbn [DriverStatus_eqb negb]; try discriminate.
  intro E. injection E as <- _.
  apply back_reference_ok_iff_linked.
  - cbn [drivers with_drivers]. now rewrite update_driver_ids.
  - apply (linked_assign w driver_id request_id driver); auto; [congruence|].
    intros r' Hin. apply in_update_request in Hin. destruct Hin as (r & Hin & ->).
    destruct (Z.eqb_spec (RideRequest.id r) request_id) as [E|_]; [|now right].
    left. split; [exact E | reflexivity].
Qed.

Lemma accept_keeps_back_references_witness :
  match RequestsRouter.accept_request sample_world 1 2 with
  | Ok (w', _) => back_reference_ok w' = true
  | HTTPException _ _ => False
  end.
Proof.
  destruct (RequestsRouter.accept_request sample_world 1 2) as [[w' r']|code detail] eqn:E.
  - apply (accept_keeps_back_references sample_world w' 1 2 r'); [|reflexivity|exact E].
    cbn. repeat constructor; cbn; intuition discriminate.
  - vm_compute in E. discriminate E.
Defined.

(** X25.  A successful manual reject keeps back-reference symmetry, whether
    it reassigns the request or fails it. *)
Theorem reject_keeps_back_references (cfg : Config) (w w' : World)
    (request_id driver_id : Z) (request' : RideRequest.t) :
  NoDup (map Driver.id (drivers w)) ->
  back_reference_ok w = true ->
  reject_request cfg w request_id driver_id = Ok (w', request') ->
  back_reference_ok w' = true.
Proof.
  intros Hnd Hok. apply back_reference_ok_iff_linked in Hok; [|exact Hnd].
  unfold reject_request, _reject_request_internal.
  destruct (get_request request_id (requests w)) as [request|]; [|discriminate].
  destruct (negb (RequestStatus_eqb (RideRequest.status request) WAITING)); [discriminate|].
  destruct (get_driver driver_id (drivers w)) as [rejecting|]; [|discriminate].
  cbv zeta. cbn [drivers with_requests].
  pose proof (find_best_driver_spec cfg (drivers w)
                (RideRequest.set_attempts (RideRequest.attempts request + 1)%Z request)
                driver_id Hnd) as Hbest.
  destruct (find_best_driver cfg (drivers w)
              (RideRequest.set_attempts (RideRequest.attempts request + 1)%Z request)
              [driver_id]) as [k|];
    intro E; injection E as <- _.
  - destruct Hbest as (best & Ek & Hin & Hst & _).
    apply back_reference_ok_iff_linked.
    + cbn [drivers with_drivers with_requests]. now rewrite update_driver_ids.
    + cbn [requests with_requests].
      apply (linked_assign w k request_id best _ Hok).
      * rewrite <- Ek. now apply get_driver_of_member.
      * congruence.
      * intros r' Hr. apply in_update_request in Hr. destruct Hr as (r1 & Hr1 & ->).
        apply in_update_request in Hr1. destruct Hr1 as (r0 & Hr0 & ->).
        destruct (RideRequest.id r0 =? request_id)%Z eqn:E; cbv iota.
        -- change (RideRequest.id (RideRequest.set_attempts _ r0)) with (RideRequest.id r0).
           rewrite E. left. split; [now apply Z.eqb_eq | reflexivity].
        -- rewrite E. now right.
  - apply back_reference_ok_iff_linked; [exact Hnd|].
    cbn [requests with_requests].
    apply (linked_requests w _ Hok).
    intros r' Hr. apply in_update_request in Hr. destruct Hr as (r1 & Hr1 & ->).
    apply in_update_request in Hr1. destruct Hr1 as (r0 & Hr0 & ->).
    destruct (RideRequest.id r0 =? request_id)%Z eqn:E; cbv iota.
    + change (RideRequest.id (RideRequest.set_attempts _ r0)) with (RideRequest.id r0).
      rewrite E. left. discriminate.
    + rewrite E. now right.
Qed.

Lemma reject_keeps_back_references_witness :
  match reject_request default_config sample_world 2 2 with
  | Ok (w', _) => back_reference_ok w' = true
  | HTTPException _ _ => False
  end.
Proof.
  destruct (reject_request default_config sample_world 2 2) as [[w' r']|code detail] eqn:E.
  - apply (reject_keeps_back_references default_config sample_world w' 2 2 r');
      [|reflexivity|exact E].
    cbn. repeat constructor; cbn; intuition discriminate.
  - vm_compute in E. discriminate E.
Defined.

(** ** Riders and their requests *)

Lemma get_rider_dict_set (v : Rider.t) (l : list Rider.t) (k : Z) :
  get_rider k (dict_set Rider.id v l) =
  if (Rider.id v =? k)%Z then Some v else get_rider k l.
Proof. unfold get_rider. apply find_dict_set. Qed.

(** X26.  A request carries its own coordinates: once created, it is
    unaffected by what happens to its rider.  Updating the rider replaces
    the rider's coordinates only, and deleting the rider removes the rider
    only; either way the request is still found, unchanged, and after the
    deletion it names a rider that no longer exists. *)
Theorem request_outlives_rider_edits (s s1 : System)
    (request_data : RequestsRouter.RideRequestCreate) (r : RideRequest.t)
    (rider_request : RidersRouter.RiderCreate) :
  RequestsRouter.create_request s request_data = Ok (s1, r) ->
  let rider_id := RequestsRouter.rider_id request_data in
  (exists s2,
     let rider := Rider.mk rider_id
                    (RidersRouter.pickup_x rider_request) (RidersRouter.pickup_y rider_request)
                    (RidersRouter.dropoff_x rider_request)
                    (RidersRouter.dropoff_y rider_request) in
     RidersRouter.update_rider s1 rider_id rider_request = Ok (s2, rider) /\
     RidersRouter.get_rider s2 rider_id = Ok rider /\
     RequestsRouter.get_request s2 (RideRequest.id r) = Ok r) /\
  (exists s3,
     RidersRouter.delete_rider s1 rider_id = Ok (s3, "Rider deleted successfully"%string) /\
     RidersRouter.get_rider s3 rider_id = HTTPException 404 "Rider not found" /\
     RequestsRouter.get_request s3 (RideRequest.id r) = Ok r /\
     RideRequest.rider_id r = rider_id).
Proof.
  intros Hcreate rider_id. subst rider_id.
  unfold RequestsRouter.create_request, RequestsRouter._create_request_internal in Hcreate.
  destruct (get_rider (RequestsRouter.rider_id request_data) (riders (store s)))
    as [rider0|] eqn:Hrider; [|discriminate Hcreate].
  injection Hcreate as <- <-.
  set (r := RideRequest.mk (requests_router_counter s) _ _ _ _ _ WAITING 0 None false).
  set (s1 := mkSystem _ _ _ _ _ _ _).
  assert (Hr1 : get_request (RideRequest.id r) (requests (store s1)) = Some r).
  { unfold s1. cbn [store requests with_requests]. unfold get_request.
    rewrite find_dict_set. now rewrite Z.eqb_refl. }
  assert (Hriders : riders (store s1) = riders (store s)) by reflexivity.
  assert (Hrider1 : get_rider (RequestsRouter.rider_id request_data) (riders (store s1))
                    = Some rider0) by (rewrite Hriders; exact Hrider).
  split.
  - unfold RidersRouter.update_rider, RidersRouter._update_rider_internal.
    rewrite Hrider1. eexists. cbv zeta. split; [reflexivity|]. split.
    + unfold RidersRouter.get_rider.
      cbn [store with_store riders RidersRouter.with_riders].
      rewrite get_rider_dict_set. cbn [Rider.id]. now rewrite Z.eqb_refl.
    + unfold RequestsRouter.get_request.
      cbn [store with_store requests RidersRouter.with_riders].
      now rewrite Hr1.
  - unfold RidersRouter.delete_rider. rewrite Hrider1.
    eexists. split; [reflexivity|]. split; [|split].
    + unfold RidersRouter.get_rider.
      cbn [store with_store riders RidersRouter.with_riders].
      unfold get_rider. now rewrite find_dict_del, Z.eqb_refl.
    + unfold RequestsRouter.get_request.
      cbn [store with_store requests RidersRouter.with_riders].
      now rewrite Hr1.
    + reflexivity.
Qed.

Lemma request_outlives_rider_edits_witness :
  exists s3,
    RidersRouter.delete_rider
      (fst (RequestsRouter._create_request_internal (fst (init_sample_data startup))
              (RequestsRouter.mkRideRequestCreate 2 1 1 3 3)))
      2
    = Ok (s3, "Rider deleted successfully"%string) /\
    RequestsRouter.get_request s3 1 = Ok (RideRequest.mk 1 2 1 1 3 3 WAITING 0 None false).
Proof.
  destruct (request_outlives_rider_edits (fst (init_sample_data startup))
              (fst (RequestsRouter._create_request_internal (fst (init_sample_data startup))
                      (RequestsRouter.mkRideRequestCreate 2 1 1 3 3)))
              (RequestsRouter.mkRideRequestCreate 2 1 1 3 3)
              (RideRequest.mk 1 2 1 1 3 3 WAITING 0 None false)
              (RidersRouter.mkRiderCreate 0 0 0 0) eq_refl)
    as [_ (s3 & H1 & _ & H3 & _)].
  exists s3. split; [exact H1 | exact H3].
Defined.

(** ** Administrative resets *)

(** [init_sample_data] and [reset_all_data] forget the previous
    entities altogether and are idempotent, alone and after one another;
    neither resets the time counter or the routers' id counters.  After a
    reset the overview reports no entity, and dispatch and tick have
    nothing to do. *)
Lemma resets_are_idempotent (cfg : Config) (random : nat -> Q) (n : nat) (s : System) :
  let init s := fst (init_sample_data s) in
  let reset s := fst (reset_all_data s) in
  init (init s) = init s /\ init (reset s) = init s /\
  reset (reset s) = reset s /\ reset (init s) = reset s /\
  current_time (store (init s)) = current_time (store s) /\
  current_time (store (reset s)) = current_time (store s) /\
  drivers_router_counter (init s) = drivers_router_counter s /\
  riders_router_counter (init s) = riders_router_counter s /\
  requests_router_counter (init s) = requests_router_counter s /\
  get_system_status (store (reset s)) =
    Status.mk (current_time (store s)) 0 0 0 0 0 0 0 0 0 0 /\
  get_system_status (store (init s)) =
    Status.mk (current_time (store s)) 3 2 0 1 2 2 2 0 0 0 /\
  results (dispatch_ride cfg random (store (reset s)) n) = [] /\
  snd (tick cfg (store (reset s))) = [].
Proof. cbv zeta. repeat split. Qed.

(** ** Dispatch and back-references *)






(** ** Riders router *)

(** X28.  [create_rider] stores the rider under the value of the riders
    router's counter and advances that counter; the rider is then found
    under its id, and a request created for that id is accepted (it is not
    answered with 400) and carries the coordinates given for the request,
    whatever the rider's own coordinates are. *)
Theorem create_rider_then_request (s : System) (rider_request : RidersRouter.RiderCreate)
    (px py dx dy : Q) :
  let s1 := fst (RidersRouter.create_rider s rider_request) in
  let rider := snd (RidersRouter.create_rider s rider_request) in
  Rider.id rider = riders_router_counter s /\
  riders_router_counter s1 = (riders_router_counter s + 1)%Z /\
  RidersRouter.get_rider s1 (Rider.id rider) = Ok rider /\
  (forall k, k <> Rider.id rider ->
     get_rider k (riders (store s1)) = get_rider k (riders (store s))) /\
  exists s2 r,
    RequestsRouter.create_request s1
      (RequestsRouter.mkRideRequestCreate (Rider.id rider) px py dx dy) = Ok (s2, r) /\
    RideRequest.rider_id r = Rider.id rider /\
    RideRequest.pickup_x r = px /\ RideRequest.pickup_y r = py /\
    RideRequest.dropoff_x r = dx /\ RideRequest.dropoff_y r = dy /\
    RideRequest.status r = WAITING.
Proof.
  cbv zeta. unfold RidersRouter.create_rider, RidersRouter._create_rider_internal,
    RidersRouter.get_rider.
  cbn [fst snd store riders RidersRouter.with_riders riders_router_counter Rider.id].
  split; [reflexivity|]. split; [reflexivity|].
  split; [|split].
  - rewrite get_rider_dict_set. cbn [Rider.id]. now rewrite Z.eqb_refl.
  - intros k Hk. rewrite get_rider_dict_set. cbn [Rider.id].
    destruct (Z.eqb_spec (riders_router_counter s) k); [congruence | reflexivity].
  - unfold RequestsRouter.create_request, RequestsRouter._create_request_internal.
    cbn [RequestsRouter.rider_id store riders RidersRouter.with_riders].
    rewrite get_rider_dict_set. cbn [Rider.id]. rewrite Z.eqb_refl.
    eexists. eexists. split; [reflexivity|]. repeat split.
Qed.

(** * Binary64: an overflowed score *)

Section Binary64Facts.
Import PrimFloat.
Local Open Scope float_scope.

(** With a rejection rate of 1 every draw of [random.random()], which is
    below 1, is a refusal. *)
Lemma binary64_always_rejects (cfg : Binary64.Config) (random : nat -> float) (n : nat) :
  Binary64.REJECTION_RATE cfg = 1 ->
  (forall i, (random i <? 1) = true) ->
  Binary64.simulate_driver_rejection cfg random n = true.
Proof.
  intros Hrate Hrand. unfold Binary64.simulate_driver_rejection.
  rewrite Hrate. apply Hrand.
Qed.

(** C4 fails on the code.  Rejection rate 1, two candidates, one waiting
    request: the score of driver 1 is finite, the score of driver 2 has
    overflowed to [inf].  Driver 1 is the best driver and refuses; the
    scoring loop that follows finds no score below [inf] and leaves
    [best_driver] on driver 1; the second refusal then removes driver 1
    from a list it is no longer in.  The call raises [ValueError] after two
    draws: nothing is reported, and the request is left waiting with no
    attempts recorded, not failed with 2 attempts. *)
Theorem dispatch_raises_on_overflowed_score (random : nat -> float) :
  (forall i, (random i <? 1) = true) ->
  let cfg := Binary64.always_reject_config in
  let w := Binary64.far_driver_world in
  let request := Binary64.RideRequest.mk 1 1 (-0x1p1023) 0 0 0 WAITING 0 None false in
  Binary64.REJECTION_RATE cfg = 1 /\
  Binary64.all_available_drivers w = [1; 2]%Z /\
  Binary64.get_request 1 (Binary64.requests w) = Some request /\
  Binary64.calculate_driver_score cfg (Binary64.Driver.mk 1 0 0 AVAILABLE None) request
    = 0x1p1023 /\
  Binary64.calculate_driver_score cfg (Binary64.Driver.mk 2 0x1p1023 0 AVAILABLE None) request
    = infinity /\
  Binary64._dispatch_ride_internal cfg random w 0 =
    Binary64.Raises "ValueError" (Binary64.mkDispatchState w 2 []).
Proof.
  intros Hrand cfg w request.
  repeat (split; [reflexivity|]).
  assert (Hrej : forall n, Binary64.simulate_driver_rejection cfg random n = true).
  { intro n. now apply binary64_always_rejects. }
  unfold Binary64._dispatch_ride_internal.
  change (Binary64.waiting_requests w) with [1%Z].
  change (Binary64.all_available_drivers w) with [1%Z; 2%Z].
  cbn [Binary64.dispatch_requests].
  unfold Binary64.dispatch_request.
  change (Binary64.get_request 1 (Binary64.requests
            (Binary64.world (Binary64.mkDispatchState w 0 [])))) with (Some request).
  cbv iota beta zeta.
  change (fst (Binary64.best_driver_loop cfg
                 (Binary64.drivers (Binary64.world (Binary64.mkDispatchState w 0 [])))
                 request [1%Z; 2%Z] None infinity)) with (Some 1%Z).
  cbv iota beta.
  cbn [List.length Binary64.offer_loop Binary64.draws].
  rewrite Hrej.
  cbn [Binary64.list_remove Z.eqb Pos.eqb option_map Binary64.world Binary64.draws
       Binary64.results].
  change (fst (Binary64.best_driver_loop cfg (Binary64.drivers w) request [2%Z]
                 (Some 1%Z) infinity)) with (Some 1%Z).
  cbv iota beta.
  rewrite Hrej.
  reflexivity.
Qed.

Lemma dispatch_raises_on_overflowed_score_witness :
  Binary64._dispatch_ride_internal Binary64.always_reject_config (fun _ => 0.5)
    Binary64.far_driver_world 0 =
  Binary64.Raises "ValueError" (Binary64.mkDispatchState Binary64.far_driver_world 2 []).
Proof.
  apply (dispatch_raises_on_overflowed_score (fun _ => 0.5)).
  intro i. reflexivity.
Defined.

(** C10 fails on the code.  Driver 1 rejects the request by hand while
    driver 2 is available.  The score of driver 2 has overflowed to [inf],
    which is not below the initial [best_score]: [find_best_driver] returns
    nothing and the request is marked failed, although an available driver
    other than the rejecting one exists. *)
Theorem reject_fails_despite_available_driver :
  let cfg := Binary64.default_config in
  let w := Binary64.far_driver_world in
  let request := Binary64.RideRequest.mk 1 1 (-0x1p1023) 0 0 0 WAITING 0 None false in
  let other := Binary64.Driver.mk 2 0x1p1023 0 AVAILABLE None in
  Binary64.get_request 1 (Binary64.requests w) = Some request /\
  Binary64.get_driver 1 (Binary64.drivers w) <> None /\
  Binary64.get_driver 2 (Binary64.drivers w) = Some other /\
  Binary64.calculate_driver_score cfg other request = infinity /\
  Binary64.find_best_driver cfg (Binary64.drivers w) request [1%Z] = None /\
  Binary64.reject_request cfg w 1 1 =
    Ok (Binary64.mkWorld (Binary64.drivers w)
          [ Binary64.RideRequest.mk 1 1 (-0x1p1023) 0 0 0 FAILED 1 None false ],
        Binary64.RideRequest.mk 1 1 (-0x1p1023) 0 0 0 FAILED 1 None false).
Proof.
  cbv zeta. repeat split; try reflexivity. discriminate.
Qed.

End Binary64Facts.

(** * Binary64: the manual reject on doubles *)

Section Binary64Order.
Import PrimFloat SpecFloat.
Local Open Scope float_scope.

(** The comparison [<] of binary64 numbers is a strict order, [nan]
    included (it is below nothing and nothing is below it). *)
Lemma SFltb_irrefl (a : spec_float) : SFltb a a = false.
Proof.
  unfold SFltb, SFcompare.
  destruct a as [s|s| |s m e]; try destruct s; try reflexivity.
  - rewrite Z.compare_refl.
    change (Pos.compare_cont Eq m m) with (Pos.compare m m).
    now rewrite Pos.compare_refl.
  - rewrite Z.compare_refl.
    change (Pos.compare_cont Eq m m) with (Pos.compare m m).
    now rewrite Pos.compare_refl.
Qed.

Lemma SFltb_trans (a b c : spec_float) :
  SFltb a b = true -> SFltb b c = true -> SFltb a c = true.
Proof.
  unfold SFltb, SFcompare.
  destruct a as [sa|sa| |sa ma ea]; try destruct sa;
    destruct b as [sb|sb| |sb mb eb]; try destruct sb;
    try (intros H; discriminate H);
    destruct c as [sc|sc| |sc mc ec]; try destruct sc;
    try (intros _ H; discriminate H);
    try (intros _ _; reflexivity);
    change (Pos.compare_cont Eq ma mb) with (Pos.compare ma mb);
    change (Pos.compare_cont Eq mb mc) with (Pos.compare mb mc);
    change (Pos.compare_cont Eq ma mc) with (Pos.compare ma mc);
    destruct (Z.compare_spec ea eb); destruct (Z.compare_spec eb ec);
    destruct (Z.compare_spec ea ec);
    try (intros H; discriminate H); try (intros _ H; discriminate H);
    try (intros _ _; reflexivity); try lia;
    destruct (Pos.compare_spec ma mb); destruct (Pos.compare_spec mb mc);
    destruct (Pos.compare_spec ma mc); cbn [CompOpp];
    try (intros H; discriminate H); try (intros _ H; discriminate H);
    try (intros _ _; reflexivity); lia.
Qed.

Lemma binary64_ltb_irrefl (a : float) : (a <? a) = false.
Proof. rewrite FloatAxioms.ltb_spec. apply SFltb_irrefl. Qed.

Lemma binary64_ltb_trans (a b c : float) :
  (a <? b) = true -> (b <? c) = true -> (a <? c) = true.
Proof. rewrite !FloatAxioms.ltb_spec. apply SFltb_trans. Qed.

(** If nothing is below [b] and [b] is replaced by something below it,
    nothing is below that either. *)
Lemma binary64_ltb_below (a b c : float) :
  (a <? b) = false -> (c <? b) = true -> (a <? c) = false.
Proof.
  intros Hab Hcb. destruct (a <? c) eqn:E; [|reflexivity].
  rewrite (binary64_ltb_trans a c b E Hcb) in Hab. discriminate Hab.
Qed.

End Binary64Order.

Section Binary64Reject.
Import PrimFloat.
Local Open Scope float_scope.

Lemma binary64_get_driver_some (k : Z) (ds : list Binary64.Driver.t) (d : Binary64.Driver.t) :
  Binary64.get_driver k ds = Some d -> In d ds /\ Binary64.Driver.id d = k.
Proof.
  unfold Binary64.get_driver. intro H. apply find_some in H.
  destruct H as [Hin Hk]. split; [exact Hin|]. now apply Z.eqb_eq.
Qed.

Lemma binary64_get_driver_of_member (ds : list Binary64.Driver.t) (d : Binary64.Driver.t) :
  NoDup (map Binary64.Driver.id ds) -> In d ds ->
  Binary64.get_driver (Binary64.Driver.id d) ds = Some d.
Proof.
  unfold Binary64.get_driver.
  induction ds as [|a ds IH]; intros Hnd Hin; [contradiction|].
  cbn [map] in Hnd. inversion Hnd as [|? ? Hnotin Hnd']; subst.
  cbn [find]. destruct Hin as [->|Hin].
  - now rewrite Z.eqb_refl.
  - destruct (Z.eqb_spec (Binary64.Driver.id a) (Binary64.Driver.id d)) as [E|_].
    + exfalso. apply Hnotin. rewrite E. now apply in_map.
    + now apply IH.
Qed.

Lemma binary64_get_driver_update (k k' : Z) (f : Binary64.Driver.t -> Binary64.Driver.t)
    (ds : list Binary64.Driver.t) :
  (forall d, Binary64.Driver.id (f d) = Binary64.Driver.id d) ->
  Binary64.get_driver k (Binary64.update_driver k' f ds) =
  if (k =? k')%Z then option_map f (Binary64.get_driver k ds)
  else Binary64.get_driver k ds.
Proof.
  intro Hid. unfold Binary64.get_driver, Binary64.update_driver.
  induction ds as [|a ds IH]; cbn [map find].
  - now destruct (k =? k')%Z.
  - destruct (Z.eqb_spec (Binary64.Driver.id a) k') as [Ea|Ea].
    + rewrite Hid. destruct (Z.eqb_spec (Binary64.Driver.id a) k) as [Ek|Ek].
      * assert (E : (k =? k')%Z = true) by (apply Z.eqb_eq; congruence).
        now rewrite E.
      * exact IH.
    + destruct (Z.eqb_spec (Binary64.Driver.id a) k) as [Ek|Ek].
      * assert (E : (k =? k')%Z = false) by (apply Z.eqb_neq; congruence).
        now rewrite E.
      * exact IH.
Qed.

Lemma binary64_get_request_update (k k' : Z)
    (f : Binary64.RideRequest.t -> Binary64.RideRequest.t)
    (rs : list Binary64.RideRequest.t) :
  (forall r, Binary64.RideRequest.id (f r) = Binary64.RideRequest.id r) ->
  Binary64.get_request k (Binary64.update_request k' f rs) =
  if (k =? k')%Z then option_map f (Binary64.get_request k rs)
  else Binary64.get_request k rs.
Proof.
  intro Hid. unfold Binary64.get_request, Binary64.update_request.
  induction rs as [|a rs IH]; cbn [map find].
  - now destruct (k =? k')%Z.
  - destruct (Z.eqb_spec (Binary64.RideRequest.id a) k') as [Ea|Ea].
    + rewrite Hid. destruct (Z.eqb_spec (Binary64.RideRequest.id a) k) as [Ek|Ek].
      * assert (E : (k =? k')%Z = true) by (apply Z.eqb_eq; congruence).
        now rewrite E.
      * exact IH.
    + destruct (Z.eqb_spec (Binary64.RideRequest.id a) k) as [Ek|Ek].
      * assert (E : (k =? k')%Z = false) by (apply Z.eqb_neq; congruence).
        now rewrite E.
      * exact IH.
Qed.

(** The scoring loop on doubles either keeps the values it started from,
    when no listed driver scores below the starting score, or ends on a
    listed driver whose score is below the starting score and that no
    listed driver scores below. *)
Lemma binary64_best_driver_loop_spec (cfg : Binary64.Config)
    (ds : list Binary64.Driver.t) (request : Binary64.RideRequest.t)
    (available : list Z) :
  forall (b0 : option Z) (s0 : float),
  (Binary64.best_driver_loop cfg ds request available b0 s0 = (b0, s0) /\
   forall k d, In k available -> Binary64.get_driver k ds = Some d ->
     (Binary64.calculate_driver_score cfg d request <? s0) = false)
  \/
  (exists k d,
     Binary64.best_driver_loop cfg ds request available b0 s0 =
       (Some k, Binary64.calculate_driver_score cfg d request) /\
     In k available /\
     Binary64.get_driver k ds = Some d /\
     (Binary64.calculate_driver_score cfg d request <? s0) = true /\
     forall k' d', In k' available -> Binary64.get_driver k' ds = Some d' ->
       (Binary64.calculate_driver_score cfg d' request
        <? Binary64.calculate_driver_score cfg d request) = false).
Proof.
  induction available as [|k rest IH]; intros b0 s0; cbn [Binary64.best_driver_loop].
  - left. split; [reflexivity|]. intros k d [].
  - destruct (Binary64.get_driver k ds) as [driver|] eqn:Ek.
    + destruct (Binary64.calculate_driver_score cfg driver request <? s0) eqn:Elt.
      * right.
        destruct (IH (Some k) (Binary64.calculate_driver_score cfg driver request))
          as [[E Hall]|(k1 & d1 & E & Hin & Hget & Hlt & Hmin)].
        -- exists k, driver. split; [exact E|]. split; [now left|].
           split; [exact Ek|]. split; [exact Elt|].
           intros k' d' [<-|Hin'] Hget'.
           ++ rewrite Ek in Hget'. injection Hget' as <-. apply binary64_ltb_irrefl.
           ++ now apply (Hall k').
        -- exists k1, d1. split; [exact E|]. split; [now right|].
           split; [exact Hget|].
           split; [exact (binary64_ltb_trans _ _ _ Hlt Elt)|].
           intros k' d' [<-|Hin'] Hget'.
           ++ rewrite Ek in Hget'. injection Hget' as <-.
              apply (binary64_ltb_below _ _ _ (binary64_ltb_irrefl _) Hlt).
           ++ now apply (Hmin k').
      * destruct (IH b0 s0) as [[E Hall]|(k1 & d1 & E & Hin & Hget & Hlt & Hmin)].
        -- left. split; [exact E|].
           intros k' d' [<-|Hin'] Hget'.
           ++ rewrite Ek in Hget'. injection Hget' as <-. exact Elt.
           ++ now apply (Hall k').
        -- right. exists k1, d1. split; [exact E|]. split; [now right|].
           split; [exact Hget|]. split; [exact Hlt|].
           intros k' d' [<-|Hin'] Hget'.
           ++ rewrite Ek in Hget'. injection Hget' as <-.
              exact (binary64_ltb_below _ _ _ Elt Hlt).
           ++ now apply (Hmin k').
    + destruct (IH b0 s0) as [[E Hall]|(k1 & d1 & E & Hin & Hget & Hlt & Hmin)].
      * left. split; [exact E|].
        intros k' d' [<-|Hin'] Hget'; [congruence | now apply (Hall k')].
      * right. exists k1, d1. split; [exact E|]. split; [now right|].
        split; [exact Hget|]. split; [exact Hlt|].
        intros k' d' [<-|Hin'] Hget'; [congruence | now apply (Hmin k')].
Qed.

(** [find_best_driver] on doubles: the driver it returns is available, is
    not the excluded one, has a score below [inf], and no other such
    driver has a score below its score; it returns nothing exactly when no
    available driver other than the excluded one has a score below
    [inf]. *)
Lemma binary64_find_best_driver_spec (cfg : Binary64.Config)
    (ds : list Binary64.Driver.t) (request : Binary64.RideRequest.t) (driver_id : Z) :
  NoDup (map Binary64.Driver.id ds) ->
  match Binary64.find_best_driver cfg ds request [driver_id] with
  | Some k =>
      exists best, Binary64.Driver.id best = k /\ In best ds /\
        Binary64.Driver.status best = AVAILABLE /\ k <> driver_id /\
        (Binary64.calculate_driver_score cfg best request <? infinity) = true /\
        forall d, In d ds -> Binary64.Driver.status d = AVAILABLE ->
          Binary64.Driver.id d <> driver_id ->
          (Binary64.calculate_driver_score cfg d request
           <? Binary64.calculate_driver_score cfg best request) = false
  | None =>
      forall d, In d ds -> Binary64.Driver.status d = AVAILABLE ->
        Binary64.Driver.id d <> driver_id ->
        (Binary64.calculate_driver_score cfg d request <? infinity) = false
  end.
Proof.
  intro Hnd. unfold Binary64.find_best_driver.
  set (p := fun driver : Binary64.Driver.t =>
              DriverStatus_eqb (Binary64.Driver.status driver) AVAILABLE
              && negb (existsb (Z.eqb (Binary64.Driver.id driver)) [driver_id])).
  assert (Hp : forall d, p d = true <->
                 Binary64.Driver.status d = AVAILABLE /\ Binary64.Driver.id d <> driver_id).
  { intro d. unfold p. cbn [existsb]. rewrite orb_false_r, andb_true_iff,
      negb_true_iff, DriverStatus_eqb_eq, Z.eqb_neq. reflexivity. }
  assert (Hmem : forall d, In (Binary64.Driver.id d) (map Binary64.Driver.id (filter p ds)) ->
                           In d ds -> p d = true).
  { intros d Hin Hd. apply in_map_iff in Hin. destruct Hin as (d1 & Hk & Hd1).
    apply filter_In in Hd1. destruct Hd1 as [Hd1 Hp1].
    pose proof (binary64_get_driver_of_member ds d1 Hnd Hd1) as G1.
    rewrite Hk, (binary64_get_driver_of_member ds d Hnd Hd) in G1.
    injection G1 as ->. exact Hp1. }
  destruct (filter p ds) as [|d0 rest] eqn:Ef.
  - cbn [map]. intros d Hin Hst Hne. exfalso.
    assert (Hd : In d (filter p ds)) by (apply filter_In; split; [assumption | now apply Hp]).
    rewrite Ef in Hd. contradiction.
  - assert (Hcand : forall d, In d ds -> Binary64.Driver.status d = AVAILABLE ->
                      Binary64.Driver.id d <> driver_id ->
                      In (Binary64.Driver.id d) (map Binary64.Driver.id (d0 :: rest))).
    { intros d Hd Hst Hne. apply in_map. rewrite <- Ef. apply filter_In.
      split; [exact Hd | now apply Hp]. }
    change (match map Binary64.Driver.id (d0 :: rest) with
            | [] => None
            | _ :: _ =>
                fst (Binary64.best_driver_loop cfg ds request
                       (map Binary64.Driver.id (d0 :: rest)) None infinity)
            end)
      with (fst (Binary64.best_driver_loop cfg ds request
                   (map Binary64.Driver.id (d0 :: rest)) None infinity)).
    destruct (binary64_best_driver_loop_spec cfg ds request
                (map Binary64.Driver.id (d0 :: rest)) None infinity)
      as [[E Hall]|(k & best & E & Hin & Hget & Hlt & Hmin)]; rewrite E; cbn [fst].
    + intros d Hd Hst Hne.
      apply (Hall (Binary64.Driver.id d) d).
      * now apply Hcand.
      * now apply binary64_get_driver_of_member.
    + destruct (binary64_get_driver_some _ _ _ Hget) as [Hbest Hk].
      assert (Hpb : p best = true) by (apply Hmem; [now rewrite Hk | exact Hbest]).
      apply Hp in Hpb. destruct Hpb as [Hst Hne].
      exists best. repeat split; try assumption; try congruence.
      intros d Hd Hsd Hnd'.
      apply (Hmin (Binary64.Driver.id d) d).
      * now apply Hcand.
      * now apply binary64_get_driver_of_member.
Qed.

(** X30.  The manual reject on doubles.  A reject of a waiting request by
    an existing driver succeeds; the request's [attempts] goes up by one;
    the rejecting driver's record is untouched; and either the request is
    [ASSIGNED] to an available driver other than the rejecting one whose
    score is below [inf] and that no other such driver scores below, that
    driver being put [ON_TRIP] with its [assigned_request_id] set to the
    request; or no available driver other than the rejecting one has a
    score below [inf], and the request is [FAILED] with no assigned
    driver. *)
Theorem binary64_reject_request_reassigns (cfg : Binary64.Config) (w : Binary64.World)
    (request_id driver_id : Z) (request : Binary64.RideRequest.t)
    (rejecting : Binary64.Driver.t) :
  NoDup (map Binary64.Driver.id (Binary64.drivers w)) ->
  Binary64.get_request request_id (Binary64.requests w) = Some request ->
  Binary64.RideRequest.status request = WAITING ->
  Binary64.get_driver driver_id (Binary64.drivers w) = Some rejecting ->
  exists w' request',
    Binary64.reject_request cfg w request_id driver_id = Ok (w', request') /\
    Binary64.get_request request_id (Binary64.requests w') = Some request' /\
    Binary64.RideRequest.attempts request' = (Binary64.RideRequest.attempts request + 1)%Z /\
    Binary64.get_driver driver_id (Binary64.drivers w') = Some rejecting /\
    ((exists best,
        In best (Binary64.drivers w) /\ Binary64.Driver.status best = AVAILABLE /\
        Binary64.Driver.id best <> driver_id /\
        (Binary64.calculate_driver_score cfg best request <? infinity) = true /\
        (forall d, In d (Binary64.drivers w) -> Binary64.Driver.status d = AVAILABLE ->
           Binary64.Driver.id d <> driver_id ->
           (Binary64.calculate_driver_score cfg d request
            <? Binary64.calculate_driver_score cfg best request) = false) /\
        Binary64.RideRequest.status request' = ASSIGNED /\
        Binary64.RideRequest.assigned_driver_id request' = Some (Binary64.Driver.id best) /\
        Binary64.get_driver (Binary64.Driver.id best) (Binary64.drivers w') =
          Some (Binary64.Driver.mk (Binary64.Driver.id best) (Binary64.Driver.x best)
                  (Binary64.Driver.y best) ON_TRIP (Some request_id)))
     \/
     ((forall d, In d (Binary64.drivers w) -> Binary64.Driver.status d = AVAILABLE ->
         Binary64.Driver.id d <> driver_id ->
         (Binary64.calculate_driver_score cfg d request <? infinity) = false) /\
      Binary64.RideRequest.status request' = FAILED /\
      Binary64.RideRequest.assigned_driver_id request' = None /\
      Binary64.drivers w' = Binary64.drivers w)).
Proof.
  intros Hnd Hreq Hwait Hdrv.
  unfold Binary64.reject_request, Binary64._reject_request_internal.
  rewrite Hreq, Hwait, Hdrv. cbn [RequestStatus_eqb negb].
  cbv zeta. cbn [Binary64.drivers Binary64.requests].
  pose proof (binary64_find_best_driver_spec cfg (Binary64.drivers w)
                (Binary64.RideRequest.set_attempts
                   (Binary64.RideRequest.attempts request + 1)%Z request)
                driver_id Hnd) as Hbest.
  destruct (Binary64.find_best_driver cfg (Binary64.drivers w)
              (Binary64.RideRequest.set_attempts
                 (Binary64.RideRequest.attempts request + 1)%Z request)
              [driver_id]) as [k|].
  - destruct Hbest as (best & Ek & Hin & Hst & Hne & Hfin & Hmin).
    eexists. eexists. split; [reflexivity|].
    cbn [Binary64.drivers Binary64.requests].
    split; [|split; [|split]].
    + rewrite !binary64_get_request_update by reflexivity.
      rewrite Z.eqb_refl, Hreq. reflexivity.
    + reflexivity.
    + rewrite binary64_get_driver_update by reflexivity.
      destruct (Z.eqb_spec driver_id k) as [E|_]; [congruence | exact Hdrv].
    + left. exists best. subst k.
      repeat split; try assumption.
      rewrite binary64_get_driver_update by reflexivity.
      rewrite Z.eqb_refl, (binary64_get_driver_of_member _ _ Hnd Hin). reflexivity.
  - eexists. eexists. split; [reflexivity|].
    cbn [Binary64.drivers Binary64.requests].
    split; [|split; [|split]].
    + rewrite !binary64_get_request_update by reflexivity.
      rewrite Z.eqb_refl, Hreq. reflexivity.
    + reflexivity.
    + exact Hdrv.
    + right. repeat split. exact Hbest.
Qed.

(** Driver 2 rejects request 2 of the sample data; driver 1 gets it. *)
Lemma binary64_reject_request_reassigns_witness :
  let w := Binary64.mkWorld
             [ Binary64.Driver.mk 1 0 0 AVAILABLE None;
               Binary64.Driver.mk 2 5 5 AVAILABLE None;
               Binary64.Driver.mk 3 10 10 OFFLINE None ]
             [ Binary64.RideRequest.mk 1 1 2 2 8 8 WAITING 0 None false;
               Binary64.RideRequest.mk 2 2 15 15 20 20 WAITING 0 None false ] in
  exists w' request',
    Binary64.reject_request Binary64.default_config w 2 2 = Ok (w', request') /\
    Binary64.RideRequest.status request' = ASSIGNED /\
    Binary64.RideRequest.assigned_driver_id request' = Some 1%Z /\
    Binary64.RideRequest.attempts request' = 1%Z.
Proof.
  cbv zeta.
  set (w := Binary64.mkWorld _ _).
  assert (Hnd : NoDup (map Binary64.Driver.id (Binary64.drivers w))).
  { simpl. repeat constructor; simpl; intuition discriminate. }
  destruct (binary64_reject_request_reassigns Binary64.default_config w 2 2
              (Binary64.RideRequest.mk 2 2 15 15 20 20 WAITING 0 None false)
              (Binary64.Driver.mk 2 5 5 AVAILABLE None)
              Hnd eq_refl eq_refl eq_refl)
    as (w' & request' & E & Hget & Hatt & _ & _).
  exists w', request'. split; [exact E|].
  vm_compute in E. injection E as <- <-.
  repeat split.
Defined.

End Binary64Reject.

(** * Binary64: Dispatch when scores are, or are not, below [inf] *)

Section Binary64Dispatch.
Import PrimFloat.
Local Open Scope float_scope.

Lemma binary64_get_request_member (rs : list Binary64.RideRequest.t)
    (r : Binary64.RideRequest.t) :
  In r rs -> Binary64.get_request (Binary64.RideRequest.id r) rs <> None.
Proof.
  unfold Binary64.get_request. intros Hin E.
  apply (find_none _ _ E) in Hin. rewrite Z.eqb_refl in Hin. discriminate Hin.
Qed.

Lemma binary64_waiting_member (w : Binary64.World) (r : Binary64.RideRequest.t) :
  In r (Binary64.requests w) -> Binary64.RideRequest.status r = WAITING ->
  In (Binary64.RideRequest.id r) (Binary64.waiting_requests w).
Proof.
  intros Hin Hst. unfold Binary64.waiting_requests. apply in_map.
  apply filter_In. split; [exact Hin|]. now rewrite Hst.
Qed.

Lemma binary64_snapshot_resolves (w : Binary64.World) (k : Z) :
  In k (Binary64.all_available_drivers w) ->
  Binary64.get_driver k (Binary64.drivers w) <> None.
Proof.
  unfold Binary64.all_available_drivers, Binary64.get_driver. intros Hin E.
  apply in_map_iff in Hin. destruct Hin as (d & <- & Hd). apply filter_In in Hd.
  destruct Hd as [Hd _]. apply (find_none _ _ E) in Hd.
  rewrite Z.eqb_refl in Hd. discriminate Hd.
Qed.

(** [l.remove(k)] on a list that holds [k] does not raise. *)
Lemma binary64_list_remove_member (k : Z) (l : list Z) :
  In k l ->
  exists l', Binary64.list_remove k l = Some l' /\
    List.length l = S (List.length l') /\
    forall x, In x l' -> In x l.
Proof.
  induction l as [|h t IH]; intro Hin; [contradiction|].
  cbn [Binary64.list_remove].
  destruct (Z.eqb_spec h k) as [->|Hne].
  - exists t. split; [reflexivity|]. split; [reflexivity|]. intros x Hx. now right.
  - destruct Hin as [E|Hin]; [contradiction|].
    destruct (IH Hin) as (l' & E & Hlen & Hsub).
    exists (h :: l'). rewrite E. split; [reflexivity|].
    split; [cbn [List.length]; now rewrite Hlen|].
    intros x [<-|Hx]; [now left | right; now apply Hsub].
Qed.

(** Over a list whose first driver has a score below [inf], the scoring
    loop started from [inf] ends on a driver of the list. *)
Lemma binary64_best_driver_loop_finds (cfg : Binary64.Config)
    (ds : list Binary64.Driver.t) (request : Binary64.RideRequest.t)
    (k0 : Z) (rest : list Z) (b0 : option Z) (d0 : Binary64.Driver.t) :
  Binary64.get_driver k0 ds = Some d0 ->
  (Binary64.calculate_driver_score cfg d0 request <? infinity) = true ->
  exists k,
    fst (Binary64.best_driver_loop cfg ds request (k0 :: rest) b0 infinity) = Some k /\
    In k (k0 :: rest).
Proof.
  intros Hget Hfin.
  destruct (binary64_best_driver_loop_spec cfg ds request (k0 :: rest) b0 infinity)
    as [[_ Hall]|(k & d & E & Hin & _)].
  - rewrite (Hall k0 d0 (or_introl eq_refl) Hget) in Hfin. discriminate Hfin.
  - exists k. rewrite E. auto.
Qed.

(** Over a list none of whose drivers has a score below [inf], the scoring
    loop started from [inf] keeps the [best_driver] it started with. *)
Lemma binary64_best_driver_loop_keeps (cfg : Binary64.Config)
    (ds : list Binary64.Driver.t) (request : Binary64.RideRequest.t)
    (available : list Z) (b0 : option Z) :
  (forall k d, In k available -> Binary64.get_driver k ds = Some d ->
     (Binary64.calculate_driver_score cfg d request <? infinity) = false) ->
  fst (Binary64.best_driver_loop cfg ds request available b0 infinity) = b0.
Proof.
  intro Hinf.
  destruct (binary64_best_driver_loop_spec cfg ds request available b0 infinity)
    as [[E _]|(k & d & _ & Hin & Hget & Hlt & _)].
  - now rewrite E.
  - rewrite (Hinf k d Hin Hget) in Hlt. discriminate Hlt.
Qed.

(** X31.  On doubles, a call in which no candidate has a score below [inf]
    for any waiting request returns no result and leaves the store as it
    was, whatever the rejection rate: every request is skipped at
    [if best_driver:]. *)
Theorem binary64_dispatch_skips_overflowed_scores (cfg : Binary64.Config)
    (random : nat -> float) (w : Binary64.World) (n : nat) :
  (forall k d rid request,
     In k (Binary64.all_available_drivers w) ->
     Binary64.get_driver k (Binary64.drivers w) = Some d ->
     In rid (Binary64.waiting_requests w) ->
     Binary64.get_request rid (Binary64.requests w) = Some request ->
     (Binary64.calculate_driver_score cfg d request <? infinity) = false) ->
  Binary64._dispatch_ride_internal cfg random w n =
    Binary64.Returns (Binary64.mkDispatchState w n []).
Proof.
  intro Hinf. unfold Binary64._dispatch_ride_internal.
  destruct (Binary64.waiting_requests w) as [|r0 rs] eqn:Ew; [reflexivity|].
  destruct (Binary64.all_available_drivers w) as [|k0 ks] eqn:Ea; [reflexivity|].
  assert (H : forall todo, (forall rid, In rid todo -> In rid (r0 :: rs)) ->
            Binary64.dispatch_requests cfg random (k0 :: ks) todo
              (Binary64.mkDispatchState w n []) =
            Binary64.Returns (Binary64.mkDispatchState w n [])).
  { induction todo as [|rid rest IH]; intro Hsub; [reflexivity|].
    cbn [Binary64.dispatch_requests].
    assert (E : Binary64.dispatch_request cfg random (k0 :: ks)
                  (Binary64.mkDispatchState w n []) rid =
                Binary64.Returns (Binary64.mkDispatchState w n [])).
    { unfold Binary64.dispatch_request. cbn [Binary64.world].
      destruct (Binary64.get_request rid (Binary64.requests w)) as [request|] eqn:Er;
        [|reflexivity].
      cbv zeta.
      rewrite binary64_best_driver_loop_keeps; [reflexivity|].
      intros k d Hk Hd. apply (Hinf k d rid request Hk Hd); [|exact Er].
      apply Hsub. now left. }
    rewrite E. apply IH. intros r Hr. apply Hsub. now right. }
  apply H. auto.
Qed.

(** Driver 2 of [far_driver_world] alone, with a rejection rate of 0. *)
Lemma binary64_dispatch_skips_overflowed_scores_witness :
  let w := Binary64.mkWorld
             [ Binary64.Driver.mk 2 0x1p1023 0 AVAILABLE None ]
             [ Binary64.RideRequest.mk 1 1 (-0x1p1023) 0 0 0 WAITING 0 None false ] in
  Binary64.all_available_drivers w = [2%Z] /\
  Binary64.waiting_requests w = [1%Z] /\
  Binary64._dispatch_ride_internal Binary64.never_reject_config (fun _ => 0.5) w 0 =
    Binary64.Returns (Binary64.mkDispatchState w 0 []).
Proof.
  cbv zeta. split; [reflexivity|]. split; [reflexivity|].
  apply binary64_dispatch_skips_overflowed_scores.
  intros k d rid request Hk Hd Hrid Hreq.
  cbn in Hk. destruct Hk as [<-|[]].
  cbn in Hrid. destruct Hrid as [<-|[]].
  cbn in Hd. injection Hd as <-.
  cbn in Hreq. injection Hreq as <-.
  reflexivity.
Defined.

(** When every offer is refused and every listed driver has a score below
    [inf], the retry loop goes through the whole list without raising:
    each refusal removes a listed driver and the scoring loop finds
    another. *)
Lemma binary64_offer_loop_all_reject (cfg : Binary64.Config) (random : nat -> float)
    (request_id : Z) (request : Binary64.RideRequest.t) :
  (forall n, Binary64.simulate_driver_rejection cfg random n = true) ->
  forall (remaining : nat) (available : list Z) (best : Z) (attempts_made : Z)
         (st : Binary64.DispatchState),
  In best available ->
  List.length available = remaining ->
  (forall k, In k available ->
     exists d, Binary64.get_driver k (Binary64.drivers (Binary64.world st)) = Some d /\
               (Binary64.calculate_driver_score cfg d request <? infinity) = true) ->
  Binary64.offer_loop cfg random remaining request_id request available best
    attempts_made st =
  Binary64.Returns
    (Binary64.mkDispatchState (Binary64.world st) (Binary64.draws st + remaining)
       (Binary64.results st),
     (attempts_made + Z.of_nat remaining)%Z).
Proof.
  intro Hrej.
  induction remaining as [|remaining IH]; intros available best attempts_made st Hbest Hlen Hfin.
  - destruct available; [contradiction | discriminate Hlen].
  - cbn [Binary64.offer_loop]. rewrite Hrej.
    destruct (binary64_list_remove_member best available Hbest) as (l' & E & Hlen' & Hsub).
    rewrite E.
    assert (Hl : List.length l' = remaining) by lia.
    destruct l' as [|k0 rest].
    + cbn [List.length] in Hl. subst remaining.
      cbn [Binary64.world Binary64.results].
      replace (Binary64.draws st + 1)%nat with (S (Binary64.draws st)) by lia.
      reflexivity.
    + cbn [Binary64.world].
      destruct (Hfin k0 (Hsub k0 (or_introl eq_refl))) as (d0 & Hget0 & Hfin0).
      destruct (binary64_best_driver_loop_finds cfg
                  (Binary64.drivers (Binary64.world st)) request k0 rest (Some best)
                  d0 Hget0 Hfin0) as (k1 & Ek1 & Hin1).
      rewrite Ek1.
      rewrite (IH (k0 :: rest) k1 (attempts_made + 1)%Z
                 (Binary64.mkDispatchState (Binary64.world st) (S (Binary64.draws st))
                    (Binary64.results st)) Hin1 Hl).
      * cbn [Binary64.world Binary64.draws Binary64.results].
        replace (S (Binary64.draws st) + remaining)%nat
          with (Binary64.draws st + S remaining)%nat by lia.
        replace (attempts_made + 1 + Z.of_nat remaining)%Z
          with (attempts_made + Z.of_nat (S remaining))%Z by lia.
        reflexivity.
      * cbn [Binary64.world]. intros k Hk. apply Hfin. now apply Hsub.
Qed.

(** One request of such a call: as many draws as there are candidates, then
    the request is failed. *)
Lemma binary64_dispatch_request_all_reject (cfg : Binary64.Config)
    (random : nat -> float) (snapshot : list Z) (st : Binary64.DispatchState)
    (rid : Z) (request : Binary64.RideRequest.t) :
  (forall n, Binary64.simulate_driver_rejection cfg random n = true) ->
  snapshot <> [] ->
  Binary64.get_request rid (Binary64.requests (Binary64.world st)) = Some request ->
  (forall k, In k snapshot ->
     exists d, Binary64.get_driver k (Binary64.drivers (Binary64.world st)) = Some d /\
               (Binary64.calculate_driver_score cfg d request <? infinity) = true) ->
  Binary64.dispatch_request cfg random snapshot st rid =
  Binary64.Returns
    (Binary64.fail_request rid (Z.of_nat (List.length snapshot))
       (Binary64.mkDispatchState (Binary64.world st)
          (Binary64.draws st + List.length snapshot) (Binary64.results st))).
Proof.
  intros Hrej Hne Hreq Hfin.
  unfold Binary64.dispatch_request. rewrite Hreq. cbv zeta.
  destruct snapshot as [|k0 rest]; [contradiction|].
  destruct (Hfin k0 (or_introl eq_refl)) as (d0 & Hget0 & Hfin0).
  destruct (binary64_best_driver_loop_finds cfg
              (Binary64.drivers (Binary64.world st)) request k0 rest None
              d0 Hget0 Hfin0) as (k1 & Ek1 & Hin1).
  rewrite Ek1.
  rewrite (binary64_offer_loop_all_reject cfg random rid request Hrej
             (List.length (k0 :: rest)) (k0 :: rest) k1 0%Z st Hin1 eq_refl Hfin).
  rewrite Z.add_0_l, Z.leb_refl. reflexivity.
Qed.

(** The whole loop of such a call. *)
Lemma binary64_all_reject_requests (cfg : Binary64.Config) (random : nat -> float)
    (snapshot : list Z) :
  (forall n, Binary64.simulate_driver_rejection cfg random n = true) ->
  snapshot <> [] ->
  let candidates := Z.of_nat (List.length snapshot) in
  forall (todo : list Z) (st : Binary64.DispatchState),
  (forall rid, In rid todo ->
     Binary64.get_request rid (Binary64.requests (Binary64.world st)) <> None) ->
  (forall k rid request, In k snapshot -> In rid todo ->
     Binary64.get_request rid (Binary64.requests (Binary64.world st)) = Some request ->
     exists d, Binary64.get_driver k (Binary64.drivers (Binary64.world st)) = Some d /\
               (Binary64.calculate_driver_score cfg d request <? infinity) = true) ->
  exists st',
    Binary64.dispatch_requests cfg random snapshot todo st = Binary64.Returns st' /\
    Binary64.results st' =
      Binary64.results st ++
      map (fun k => DispatchResult.mk k None candidates "failed") todo /\
    Binary64.draws st' = (Binary64.draws st + List.length todo * List.length snapshot)%nat /\
    Binary64.drivers (Binary64.world st') = Binary64.drivers (Binary64.world st) /\
    Binary64.requests (Binary64.world st') =
      map (fun r => if existsb (Z.eqb (Binary64.RideRequest.id r)) todo
                    then Binary64.RideRequest.set_attempts candidates
                           (Binary64.RideRequest.set_status FAILED r)
                    else r)
          (Binary64.requests (Binary64.world st)).
Proof.
  intros Hrej Hne candidates.
  induction todo as [|rid rest IH]; intros st Hreq Hfin.
  - exists st. cbn [Binary64.dispatch_requests map existsb List.length].
    rewrite app_nil_r, map_id. repeat split. lia.
  - cbn [Binary64.dispatch_requests].
    destruct (Binary64.get_request rid (Binary64.requests (Binary64.world st)))
      as [request|] eqn:Er; [|exfalso; apply (Hreq rid); [now left | exact Er]].
    rewrite (binary64_dispatch_request_all_reject cfg random snapshot st rid request
               Hrej Hne Er).
    2:{ intros k Hk. apply (Hfin k rid request Hk); [now left | exact Er]. }
    fold candidates.
    set (st1 := Binary64.fail_request rid candidates
                  (Binary64.mkDispatchState (Binary64.world st)
                     (Binary64.draws st + List.length snapshot) (Binary64.results st))).
    assert (Hlook : forall r,
      Binary64.get_request r (Binary64.requests (Binary64.world st1)) =
      if (r =? rid)%Z
      then option_map (fun q => Binary64.RideRequest.set_attempts candidates
                                  (Binary64.RideRequest.set_status FAILED q))
             (Binary64.get_request r (Binary64.requests (Binary64.world st)))
      else Binary64.get_request r (Binary64.requests (Binary64.world st))).
    { intro r. subst st1. unfold Binary64.fail_request.
      cbn [Binary64.world Binary64.requests].
      now apply binary64_get_request_update. }
    destruct (IH st1) as (st' & E & I1 & I2 & I3 & I4).
    + intros r Hin Hnone. rewrite Hlook in Hnone.
      assert (Hr : Binary64.get_request r (Binary64.requests (Binary64.world st)) <> None)
        by (apply Hreq; now right).
      destruct (Binary64.get_request r (Binary64.requests (Binary64.world st)));
        [|contradiction].
      destruct (r =? rid)%Z; discriminate Hnone.
    + intros k r q Hk Hr Hq. rewrite Hlook in Hq.
      destruct (Binary64.get_request r (Binary64.requests (Binary64.world st)))
        as [q0|] eqn:Eq0.
      2:{ destruct (r =? rid)%Z; discriminate Hq. }
      destruct (Hfin k r q0 Hk (or_intror Hr) Eq0) as (d & Hd & Hlt).
      exists d. split; [exact Hd|].
      destruct (r =? rid)%Z; cbn [option_map] in Hq; injection Hq as <-; exact Hlt.
    + exists st'. split; [exact E|].
      rewrite I1, I2, I3, I4. subst st1. unfold Binary64.fail_request.
      cbn [Binary64.world Binary64.results Binary64.draws Binary64.drivers
           Binary64.requests map List.length].
      split; [now rewrite <- app_assoc|]. split; [lia|]. split; [reflexivity|].
      unfold Binary64.update_request. rewrite map_map. apply map_ext. intro r.
      cbn [existsb].
      destruct (Z.eqb_spec (Binary64.RideRequest.id r) rid) as [Hk|Hk]; cbn [orb].
      * change (Binary64.RideRequest.id
                  (Binary64.RideRequest.set_attempts candidates
                     (Binary64.RideRequest.set_status FAILED r)))
          with (Binary64.RideRequest.id r).
        destruct (existsb (Z.eqb (Binary64.RideRequest.id r)) rest); reflexivity.
      * reflexivity.
Qed.

(** X32.  Scenario B on doubles.  When every draw is a refusal, at least
    one driver is available, and every candidate's score for every waiting
    request is below [inf], the call returns: the results are one failed
    entry per waiting request, in order, with [attempts] equal to the
    number of candidates; one draw was made per candidate and request;
    every waiting request ends failed with that number of attempts; and no
    driver has changed. *)
Theorem binary64_all_reject_fails_every_request (cfg : Binary64.Config)
    (random : nat -> float) (w : Binary64.World) (n : nat) :
  (forall i, (random i <? Binary64.REJECTION_RATE cfg) = true) ->
  Binary64.all_available_drivers w <> [] ->
  (forall k d rid request,
     In k (Binary64.all_available_drivers w) ->
     Binary64.get_driver k (Binary64.drivers w) = Some d ->
     In rid (Binary64.waiting_requests w) ->
     Binary64.get_request rid (Binary64.requests w) = Some request ->
     (Binary64.calculate_driver_score cfg d request <? infinity) = true) ->
  let candidates := Z.of_nat (List.length (Binary64.all_available_drivers w)) in
  exists st,
    Binary64._dispatch_ride_internal cfg random w n = Binary64.Returns st /\
    Binary64.results st =
      map (fun k => DispatchResult.mk k None candidates "failed")
        (Binary64.waiting_requests w) /\
    Binary64.draws st =
      (n + List.length (Binary64.waiting_requests w)
           * List.length (Binary64.all_available_drivers w))%nat /\
    Binary64.drivers (Binary64.world st) = Binary64.drivers w /\
    Forall2 (fun r r' =>
               Binary64.RideRequest.status r = WAITING ->
               r' = Binary64.RideRequest.set_attempts candidates
                      (Binary64.RideRequest.set_status FAILED r))
            (Binary64.requests w) (Binary64.requests (Binary64.world st)).
Proof.
  intros Hrand Hsome Hfin candidates.
  assert (Hrej : forall i, Binary64.simulate_driver_rejection cfg random i = true)
    by exact Hrand.
  destruct (binary64_all_reject_requests cfg random (Binary64.all_available_drivers w)
              Hrej Hsome (Binary64.waiting_requests w) (Binary64.mkDispatchState w n []))
    as (st & E & I1 & I2 & I3 & I4).
  { cbn [Binary64.world]. intros rid Hin.
    unfold Binary64.waiting_requests in Hin. apply in_map_iff in Hin.
    destruct Hin as (r & <- & Hr). apply filter_In in Hr.
    apply binary64_get_request_member. tauto. }
  { cbn [Binary64.world]. intros k rid request Hk Hrid Hreq.
    destruct (Binary64.get_driver k (Binary64.drivers w)) as [d|] eqn:Ed.
    - exists d. split; [reflexivity|]. exact (Hfin k d rid request Hk Ed Hrid Hreq).
    - exfalso. revert Ed. now apply binary64_snapshot_resolves. }
  cbn [Binary64.results Binary64.draws Binary64.world app] in I1, I2, I3, I4.
  exists st. split; [|split; [exact I1|split; [exact I2|split; [exact I3|]]]].
  - unfold Binary64._dispatch_ride_internal.
    destruct (Binary64.waiting_requests w) as [|r0 rs] eqn:Ew; [exact E|].
    destruct (Binary64.all_available_drivers w) as [|k0 ks] eqn:Ea; [contradiction|].
    exact E.
  - rewrite I4.
    assert (Hdiag : forall (h : Binary64.RideRequest.t -> Binary64.RideRequest.t)
              (R : Binary64.RideRequest.t -> Binary64.RideRequest.t -> Prop) l,
              (forall a, In a l -> R a (h a)) -> Forall2 R l (map h l)).
    { intros h R l. induction l as [|a l IHl]; intro H; cbn [map]; constructor.
      - apply H. now left.
      - apply IHl. intros b Hb. apply H. now right. }
    apply Hdiag. intros r Hin Hst.
    assert (Ex : existsb (Z.eqb (Binary64.RideRequest.id r))
                   (Binary64.waiting_requests w) = true).
    { apply existsb_exists. exists (Binary64.RideRequest.id r).
      split; [now apply binary64_waiting_member | apply Z.eqb_refl]. }
    now rewrite Ex.
Qed.

(** Scenario B on the sample data: both requests fail after 2 attempts. *)
Lemma binary64_all_reject_fails_every_request_witness :
  let w := Binary64.mkWorld
             [ Binary64.Driver.mk 1 0 0 AVAILABLE None;
               Binary64.Driver.mk 2 5 5 AVAILABLE None;
               Binary64.Driver.mk 3 10 10 OFFLINE None ]
             [ Binary64.RideRequest.mk 1 1 2 2 8 8 WAITING 0 None false;
               Binary64.RideRequest.mk 2 2 15 15 20 20 WAITING 0 None false ] in
  exists st,
    Binary64._dispatch_ride_internal Binary64.always_reject_config (fun _ => 0.5) w 0 =
      Binary64.Returns st /\
    Binary64.results st =
      [ DispatchResult.mk 1 None 2 "failed"; DispatchResult.mk 2 None 2 "failed" ].
Proof.
  cbv zeta.
  set (w := Binary64.mkWorld _ _).
  destruct (binary64_all_reject_fails_every_request Binary64.always_reject_config
              (fun _ => 0.5) w 0) as (st & E & Hres & _).
  - intro i. reflexivity.
  - discriminate.
  - intros k d rid request Hk Hd Hrid Hreq.
    cbn in Hk. cbn in Hrid.
    destruct Hrid as [<-|[<-|[]]]; cbn in Hreq; injection Hreq as <-;
      destruct Hk as [<-|[<-|[]]]; cbn in Hd; injection Hd as <-; reflexivity.
  - exists st. split; [exact E | exact Hres].
Defined.

End Binary64Dispatch.

(** * Binary64: attempts recorded on failure *)

Section Binary64Failed.
Import PrimFloat.
Local Open Scope float_scope.

(** How the retry loop on doubles can end, whatever the scores are: by an
    acceptance before the bound is reached, with the assignment written and
    reported; with store and results as they were, after at most the bound;
    or by an exception, with the store as it was or with the assignment
    already written, and nothing reported. *)
Lemma binary64_offer_loop_shape (cfg : Binary64.Config) (random : nat -> float)
    (request_id : Z) (request : Binary64.RideRequest.t) :
  forall (remaining : nat) (available : list Z) (best : Z) (attempts : Z)
         (st : Binary64.DispatchState),
  match Binary64.offer_loop cfg random remaining request_id request available best
          attempts st with
  | Binary64.Returns (st', attempts') =>
      ((attempts' < attempts + Z.of_nat remaining)%Z /\
       exists b,
         Binary64.world st' = Binary64.assign request_id b attempts' (Binary64.world st) /\
         Binary64.results st' =
           Binary64.results st ++ [DispatchResult.mk request_id (Some b) attempts' "assigned"])
      \/
      ((attempts' <= attempts + Z.of_nat remaining)%Z /\
       Binary64.world st' = Binary64.world st /\
       Binary64.results st' = Binary64.results st)
  | Binary64.Raises _ st' =>
      (Binary64.world st' = Binary64.world st \/
       exists b a, Binary64.world st' = Binary64.assign request_id b a (Binary64.world st)) /\
      Binary64.results st' = Binary64.results st
  end.
Proof.
  induction remaining as [|remaining IH]; intros available best attempts st.
  - cbn [Binary64.offer_loop]. right. repeat split. cbn. lia.
  - cbn [Binary64.offer_loop].
    destruct (Binary64.simulate_driver_rejection cfg random (Binary64.draws st)).
    + destruct (Binary64.list_remove best available) as [[|k0 rest]|].
      * right. cbn [Binary64.world Binary64.results]. repeat split. lia.
      * cbn [Binary64.world].
        match goal with
        | |- match Binary64.offer_loop _ _ _ _ _ ?av ?b ?a ?s with _ => _ end =>
            specialize (IH av b a s);
            destruct (Binary64.offer_loop cfg random remaining request_id request av b a s)
              as [[st' attempts']|e st']
        end.
        -- cbn [Binary64.world Binary64.results] in IH.
           destruct IH as [(Hlt & b & Hw & Hr)|(Hle & Hw & Hr)].
           ++ left. split; [lia|]. exists b. auto.
           ++ right. repeat split; try assumption. lia.
        -- exact IH.
      * cbn [Binary64.world Binary64.results]. auto.
    + destruct (Binary64.list_remove best available) as [l'|].
      * left. cbn [Binary64.world Binary64.results Binary64.draws].
        split; [lia|]. exists best. auto.
      * cbn [Binary64.world Binary64.results]. split; [|reflexivity].
        right. exists best, attempts. reflexivity.
Qed.

(** One request of a call, whether its processing returns or raises: a
    failure it reports or writes carries the number of candidates. *)
Lemma binary64_dispatch_request_failed (cfg : Binary64.Config) (random : nat -> float)
    (snapshot : list Z) (rs0 : list Binary64.RideRequest.t)
    (st : Binary64.DispatchState) (rid : Z) :
  let candidates := Z.of_nat (List.length snapshot) in
  let R (r r' : Binary64.RideRequest.t) :=
    Binary64.RideRequest.id r' = Binary64.RideRequest.id r /\
    (r' = r \/ Binary64.RideRequest.status r' = ASSIGNED \/
     (Binary64.RideRequest.status r' = FAILED /\
      Binary64.RideRequest.attempts r' = candidates)) in
  let P (st : Binary64.DispatchState) :=
    (forall e, In e (Binary64.results st) -> DispatchResult.status e = "failed"%string ->
               DispatchResult.attempts e = candidates) /\
    Forall2 R rs0 (Binary64.requests (Binary64.world st)) in
  P st -> P (Binary64.final_state (Binary64.dispatch_request cfg random snapshot st rid)).
Proof.
  intros candidates R P [H2 H3].
  assert (Hassigned : forall b a st',
    (Binary64.world st' = Binary64.world st \/
     Binary64.world st' = Binary64.assign rid b a (Binary64.world st)) ->
    Forall2 R rs0 (Binary64.requests (Binary64.world st'))).
  { intros b a st' [->| ->]; [exact H3|].
    unfold Binary64.assign. cbn [Binary64.requests].
    apply Forall2_map_r; [|exact H3].
    intros r r' [Hid Hcase]. unfold R.
    destruct (Binary64.RideRequest.id r' =? rid)%Z; [|auto].
    split; [exact Hid|]. right. left. reflexivity. }
  unfold Binary64.dispatch_request.
  destruct (Binary64.get_request rid (Binary64.requests (Binary64.world st)));
    [|split; assumption].
  cbv zeta.
  destruct (fst (Binary64.best_driver_loop cfg (Binary64.drivers (Binary64.world st))
                   t snapshot None infinity)) as [best|]; [|split; assumption].
  pose proof (binary64_offer_loop_shape cfg random rid t (List.length snapshot)
                snapshot best 0%Z st) as Hshape.
  destruct (Binary64.offer_loop cfg random (List.length snapshot) rid t snapshot best
              0%Z st) as [[st' attempts']|e st'].
  - destruct Hshape as [(Hlt & b & Hw & Hr)|(Hle & Hw & Hr)].
    + destruct (Z.leb_spec (Z.of_nat (List.length snapshot)) attempts') as [Hge|_];
        [lia|].
      cbn [Binary64.final_state]. split.
      * rewrite Hr. intros e He Hfailed. apply in_app_or in He.
        destruct He as [He|[<-|[]]]; [now apply H2 | discriminate Hfailed].
      * apply (Hassigned b attempts'). now right.
    + destruct (Z.leb_spec (Z.of_nat (List.length snapshot)) attempts') as [Hge|_].
      * assert (Ea : attempts' = candidates) by (subst candidates; lia).
        cbn [Binary64.final_state]. unfold Binary64.fail_request.
        cbn [Binary64.results Binary64.world Binary64.requests]. rewrite Hr, Hw. split.
        -- intros e He Hfailed. apply in_app_or in He.
           destruct He as [He|[<-|[]]]; [now apply H2 | exact Ea].
        -- apply Forall2_map_r; [|exact H3].
           intros r r' [Hid Hcase]. unfold R.
           destruct (Binary64.RideRequest.id r' =? rid)%Z; [|auto].
           split; [exact Hid|]. right. right. split; [reflexivity | exact Ea].
      * cbn [Binary64.final_state]. unfold P. rewrite Hr, Hw. split; assumption.
  - destruct Hshape as [Hw Hr]. cbn [Binary64.final_state]. split.
    + now rewrite Hr.
    + destruct Hw as [Hw|(b & a & Hw)].
      * apply (Hassigned 0%Z 0%Z). now left.
      * apply (Hassigned b a). now right.
Qed.

(** X29.  Attempts recorded on failure, on doubles, for every call,
    whether it returns or raises.  In the state the call ends in, a result
    entry that is failed carries an [attempts] value equal to the number of
    available drivers captured at the start of the call; and a request that
    is failed is either exactly as it was before the call or records that
    number of attempts, so every request that was waiting and is failed
    records it. *)
Theorem binary64_failed_records_candidates (cfg : Binary64.Config)
    (random : nat -> float) (w : Binary64.World) (n : nat) :
  let st := Binary64.final_state (Binary64._dispatch_ride_internal cfg random w n) in
  let candidates := Z.of_nat (List.length (Binary64.all_available_drivers w)) in
  (forall e, In e (Binary64.results st) -> DispatchResult.status e = "failed"%string ->
             DispatchResult.attempts e = candidates) /\
  Forall2 (fun r r' =>
             Binary64.RideRequest.id r' = Binary64.RideRequest.id r /\
             (Binary64.RideRequest.status r' = FAILED ->
              r' = r \/ Binary64.RideRequest.attempts r' = candidates) /\
             (Binary64.RideRequest.status r = WAITING ->
              Binary64.RideRequest.status r' = FAILED ->
              Binary64.RideRequest.attempts r' = candidates))
          (Binary64.requests w) (Binary64.requests (Binary64.world st)).
Proof.
  intros st candidates.
  set (R := fun r r' : Binary64.RideRequest.t =>
              Binary64.RideRequest.id r' = Binary64.RideRequest.id r /\
              (r' = r \/ Binary64.RideRequest.status r' = ASSIGNED \/
               (Binary64.RideRequest.status r' = FAILED /\
                Binary64.RideRequest.attempts r' = candidates))).
  set (P := fun st : Binary64.DispatchState =>
              (forall e, In e (Binary64.results st) ->
                 DispatchResult.status e = "failed"%string ->
                 DispatchResult.attempts e = candidates) /\
              Forall2 R (Binary64.requests w) (Binary64.requests (Binary64.world st))).
  assert (H0 : P (Binary64.mkDispatchState w n [])).
  { unfold P. cbn [Binary64.results Binary64.world]. split; [intros e []|].
    apply Forall2_diag. intros a _. unfold R. auto. }
  assert (Hloop : forall todo st0, P st0 ->
            P (Binary64.final_state
                 (Binary64.dispatch_requests cfg random (Binary64.all_available_drivers w)
                    todo st0))).
  { induction todo as [|rid rest IH]; intros st0 H; [exact H|].
    cbn [Binary64.dispatch_requests].
    pose proof (binary64_dispatch_request_failed cfg random
                  (Binary64.all_available_drivers w) (Binary64.requests w) st0 rid H)
      as Hstep.
    destruct (Binary64.dispatch_request cfg random (Binary64.all_available_drivers w)
                st0 rid) as [st1|e st1]; cbn [Binary64.final_state] in Hstep.
    - now apply IH.
    - exact Hstep. }
  assert (H : P st).
  { subst st. unfold Binary64._dispatch_ride_internal.
    destruct (Binary64.waiting_requests w) as [|r0 rs] eqn:Ew; [exact H0|].
    destruct (Binary64.all_available_drivers w) as [|k0 ks] eqn:Ea; [exact H0|].
    rewrite <- Ea. rewrite <- Ea in Hloop. now apply Hloop. }
  destruct H as [H2 H3]. split; [exact H2|].
  eapply Forall2_impl; [|exact H3].
  intros r r' [Hid Hcase]. split; [exact Hid|]. split.
  - intro Hf. destruct Hcase as [->|[Ha|[_ Hc]]]; [now left | | now right].
    rewrite Ha in Hf. discriminate Hf.
  - intros Hw Hf. destruct Hcase as [->|[Ha|[_ Hc]]].
    + rewrite Hw in Hf. discriminate Hf.
    + rewrite Ha in Hf. discriminate Hf.
    + exact Hc.
Qed.

End Binary64Failed.
